(** * SCORM analyzer and repair server: a shallow embedding of [server.js]

    The development follows the layout of the server: JavaScript strings,
    POSIX paths, the directory tree the [fs] calls work on, the objects
    [xml2js] produces, the archive [adm-zip] builds, and then the server's
    own functions under their source names.  The embedding comes first,
    the theorems about it second. *)

From Stdlib Require Import String Ascii List Bool Arith Lia DecimalString.
Import ListNotations.
Open Scope string_scope.

(** ** JavaScript strings

    Strings are byte strings; [toLowerCase] folds the ASCII letters only. *)
Module JsString.

Definition nl : string := String "010" "".
Definition dq : string := String "034" "".

(** A non-empty string is truthy. *)
Definition truthy (s : string) : bool :=
  match s with
  | "" => false
  | String _ _ => true
  end.

Fixpoint startsWith (s pat : string) {struct pat} : bool :=
  match pat, s with
  | "", _ => true
  | String _ _, "" => false
  | String c pat', String d s' => Ascii.eqb c d && startsWith s' pat'
  end.

Fixpoint includes (s pat : string) {struct s} : bool :=
  startsWith s pat ||
  match s with
  | "" => false
  | String _ s' => includes s' pat
  end.

(** Number of positions of [s] at which [pat] occurs. *)
Fixpoint occurrences (s pat : string) {struct s} : nat :=
  (if startsWith s pat then 1 else 0) +
  match s with
  | "" => 0
  | String _ s' => occurrences s' pat
  end.

Fixpoint endsWith (s suf : string) {struct s} : bool :=
  String.eqb s suf ||
  match s with
  | "" => false
  | String _ s' => endsWith s' suf
  end.

Definition lowerChar (c : ascii) : ascii :=
  let n := nat_of_ascii c in
  if ((65 <=? n) && (n <=? 90))%nat then ascii_of_nat (n + 32) else c.

Fixpoint toLowerCase (s : string) : string :=
  match s with
  | "" => ""
  | String c s' => String (lowerChar c) (toLowerCase s')
  end.

(** [dropPrefix s pat] is what follows [pat] when [s] starts with it. *)
Fixpoint dropPrefix (s pat : string) {struct pat} : option string :=
  match pat, s with
  | "", _ => Some s
  | String _ _, "" => None
  | String c pat', String d s' =>
      if Ascii.eqb c d then dropPrefix s' pat' else None
  end.

(** The text before and after the first occurrence of [pat]. *)
Fixpoint indexSplit (s pat : string) {struct s} : option (string * string) :=
  match dropPrefix s pat with
  | Some post => Some ("", post)
  | None =>
      match s with
      | "" => None
      | String c s' =>
          match indexSplit s' pat with
          | Some (pre, post) => Some (String c pre, post)
          | None => None
          end
      end
  end.

(** GetSubstitution for a string pattern (no capture groups): [$$], [$&],
    [$`] and [$'] are expanded, every other [$] is literal. *)
Fixpoint getSubstitution (matched before after repl : string) : string :=
  match repl with
  | "" => ""
  | String c rest =>
      if Ascii.eqb c "$" then
        match rest with
        | "" => String c ""
        | String d rest' =>
            if Ascii.eqb d "$" then
              String "$" (getSubstitution matched before after rest')
            else if Ascii.eqb d "&" then
              matched ++ getSubstitution matched before after rest'
            else if Ascii.eqb d "`" then
              before ++ getSubstitution matched before after rest'
            else if Ascii.eqb d "'" then
              after ++ getSubstitution matched before after rest'
            else String c (getSubstitution matched before after rest)
        end
      else String c (getSubstitution matched before after rest)
  end.

(** [s.replace(pat, repl)] with a string pattern: first occurrence only. *)
Definition replace (s pat repl : string) : string :=
  match indexSplit s pat with
  | Some (pre, post) => pre ++ getSubstitution pat pre post repl ++ post
  | None => s
  end.

(** [s.replace(/\\/g, '/')]. *)
Fixpoint slashes (s : string) : string :=
  match s with
  | "" => ""
  | String c s' =>
      String (if Ascii.eqb c "\" then "/"%char else c) (slashes s')
  end.

Fixpoint splitOn (sep : ascii) (s : string) : list string :=
  match s with
  | "" => [""]
  | String c s' =>
      if Ascii.eqb c sep then "" :: splitOn sep s'
      else
        match splitOn sep s' with
        | hd :: tl => String c hd :: tl
        | [] => [String c ""]
        end
  end.

(** Whether the character [c] occurs in [s]. *)
Fixpoint hasChar (c : ascii) (s : string) : bool :=
  match s with
  | "" => false
  | String d s' => Ascii.eqb c d || hasChar c s'
  end.

Definition specialAfterDollar (d : ascii) : bool :=
  Ascii.eqb d "$" || Ascii.eqb d "&" || Ascii.eqb d "`" || Ascii.eqb d "'".

(** A replacement text in which no [$] starts a substitution pattern. *)
Fixpoint substFree (repl : string) : bool :=
  match repl with
  | "" => true
  | String c rest =>
      (if Ascii.eqb c "$" then
         match rest with
         | "" => true
         | String d _ => negb (specialAfterDollar d)
         end
       else true) && substFree rest
  end.

(** [e.name.match(/\.html?$/i)] *)
Definition matchesHtml (name : string) : bool :=
  endsWith (toLowerCase name) ".html" || endsWith (toLowerCase name) ".htm".

End JsString.

(** ** Exceptions

    A JavaScript computation either completes with a value or throws; the
    thrown value is identified with its [message]. *)
Inductive outcome (A : Type) : Type :=
| Ret (a : A)
| Throw (message : string).
Arguments Ret {A} a.
Arguments Throw {A} message.

Definition bind {A B : Type} (m : outcome A) (k : A -> outcome B) : outcome B :=
  match m with
  | Ret a => k a
  | Throw e => Throw e
  end.

(** [try { m } catch (e) { h e }] *)
Definition tryCatch {A : Type} (m : outcome A) (h : string -> outcome A) : outcome A :=
  match m with
  | Ret a => Ret a
  | Throw e => h e
  end.

Notation "x <- m ;; k" := (bind m (fun x => k))
  (at level 61, m at next level, right associativity).
Notation "' pat <- m ;; k" := (bind m (fun x => match x with pat => k end))
  (at level 61, pat pattern, m at next level, right associativity).

(** ** POSIX paths

    A normalized absolute path is the list of its segments; [render] gives
    the string [path.join] would. *)
Module Path.

Definition render (p : list string) : string := "/" ++ String.concat "/" p.

(** Segment by segment normalization, as [path.normalize] does it: empty
    segments and [.] are dropped, [..] removes the segment before it and is
    itself dropped at the root. *)
Fixpoint normalizeOnto (stack : list string) (segs : list string) : list string :=
  match segs with
  | [] => rev stack
  | seg :: rest =>
      if String.eqb seg "" || String.eqb seg "." then normalizeOnto stack rest
      else if String.eqb seg ".." then normalizeOnto (tl stack) rest
      else normalizeOnto (seg :: stack) rest
  end.

(** [path.join(dir, rel)] for an absolute normalized [dir]: the segments
    reached, and whether the joined string keeps a trailing slash. *)
Definition join (dir : list string) (rel : string) : list string * bool :=
  (normalizeOnto (rev dir) (JsString.splitOn "/" rel), JsString.endsWith rel "/").

Definition dirname (p : list string) : list string := removelast p.

(** [path.relative(from, to)] for absolute normalized paths. *)
Fixpoint relative (from to : list string) : list string :=
  match from, to with
  | f :: from', t :: to' =>
      if String.eqb f t then relative from' to'
      else (map (fun _ => "..") from ++ to)%list
  | _, _ => (map (fun _ => "..") from ++ to)%list
  end.

(** [path.relative(from, to).replace(/\\/g, '/')] *)
Definition relativeSlashed (from to : list string) : string :=
  JsString.slashes (String.concat "/" (relative from to)).

(** [joined.match(/\.html?$/i)] on the joined string. *)
Definition matchesHtml (joined : list string * bool) : bool :=
  negb (snd joined) && JsString.matchesHtml (last (fst joined) "").

End Path.

(** ** The directory tree

    A directory lists its entries in the order [readdirSync] reports them.
    A file holds text: read with ['utf8'] and written back, the bytes of a
    file that is well-formed UTF-8 stay as they are, and a string stands
    for the bytes of its encoding.  What the decoder makes of other bytes
    is left out; a theorem that states the very content of a rewritten
    document asks the document to be well-formed UTF-8. *)
Module Fs.

#[warnings="-register-all"] Inductive node : Type :=
| File (content : string)
| Dir (entries : list (string * node)).

Definition isDirectory (n : node) : bool :=
  match n with
  | Dir _ => true
  | File _ => false
  end.

Fixpoint entry (name : string) (es : list (string * node)) : option node :=
  match es with
  | [] => None
  | (n, child) :: tl => if String.eqb n name then Some child else entry name tl
  end.

(** The node a normalized path (a list of segments) leads to. *)
Fixpoint lookup (n : node) (p : list string) : option node :=
  match p with
  | [] => Some n
  | seg :: rest =>
      match n with
      | File _ => None
      | Dir es =>
          match entry seg es with
          | Some child => lookup child rest
          | None => None
          end
      end
  end.

Definition fileAt (n : node) (p : list string) : option string :=
  match lookup n p with
  | Some (File c) => Some c
  | _ => None
  end.

(** Replace the first entry called [name], or add one at the end. *)
Fixpoint setEntry (name : string) (child : node) (es : list (string * node))
  : list (string * node) :=
  match es with
  | [] => [(name, child)]
  | (n, old) :: tl =>
      if String.eqb n name then (n, child) :: tl
      else (n, old) :: setEntry name child tl
  end.

(** The tree after a file write at [p]; [None] when the write fails (the
    parent is missing or not a directory, or [p] is a directory). *)
Fixpoint writeAt (n : node) (p : list string) (content : string) : option node :=
  match p with
  | [] => None
  | seg :: rest =>
      match n with
      | File _ => None
      | Dir es =>
          match rest with
          | [] =>
              match entry seg es with
              | Some (Dir _) => None
              | _ => Some (Dir (setEntry seg (File content) es))
              end
          | _ :: _ =>
              match entry seg es with
              | Some child =>
                  match writeAt child rest content with
                  | Some child' => Some (Dir (setEntry seg child' es))
                  | None => None
                  end
              | None => None
              end
          end
      end
  end.

Definition existsSync (fs : node) (joined : list string * bool) : bool :=
  match lookup fs (fst joined) with
  | Some (Dir _) => true
  | Some (File _) => negb (snd joined)
  | None => false
  end.

Definition readFileSync (fs : node) (joined : list string * bool) : outcome string :=
  match lookup fs (fst joined) with
  | Some (File c) =>
      if snd joined then Throw "ENOTDIR: not a directory, open" else Ret c
  | Some (Dir _) => Throw "EISDIR: illegal operation on a directory, read"
  | None => Throw "ENOENT: no such file or directory, open"
  end.

Definition writeFileSync (fs : node) (joined : list string * bool) (content : string)
  : outcome node :=
  if snd joined then Throw "ENOENT: no such file or directory, open"
  else
    match writeAt fs (fst joined) content with
    | Some fs' => Ret fs'
    | None => Throw "ENOENT: no such file or directory, open"
    end.

(** [readdirSync(dir, { withFileTypes: true })] *)
Definition readdirSync (fs : node) (dir : list string) : outcome (list (string * node)) :=
  match lookup fs dir with
  | Some (Dir es) => Ret es
  | Some (File _) => Throw "ENOTDIR: not a directory, scandir"
  | None => Throw "ENOENT: no such file or directory, scandir"
  end.

End Fs.
Import Fs.

(** ** Archives (adm-zip) *)
Module AdmZip.

(** An entry as the analyzer sees it: its name and what [getData()] gives. *)
Record entry : Type := mkEntry { entryName : string; getData : outcome string }.

(** [zip.addFile(name, data)]: an entry of that name is updated in place,
    otherwise the new entry goes last. *)
Fixpoint addFile (zip : list (string * string)) (name data : string)
  : list (string * string) :=
  match zip with
  | [] => [(name, data)]
  | (n, d) :: tl =>
      if String.eqb n name then (n, data) :: tl else (n, d) :: addFile tl name data
  end.

End AdmZip.

(** ** Parsed documents (xml2js)

    With the options the server uses, an element without attributes and
    without child elements parses to its text, any other element to an
    object with the attributes under [$], non-blank text under [_], and
    each child name mapped to the array of the children of that name.  The
    parser gives [{ rootName: value }]. *)
Module Xml2js.

#[warnings="-register-all"] Inductive value : Type :=
| Text (s : string)
| Element (attrs : option (list (string * string)))
          (text : option string)
          (children : list (string * list value)).

Definition document : Type := string * value.

(** [parseStringPromise]: a document, [null] for blank input, or a
    rejection. *)
Definition parser : Type := string -> outcome (option document).

(** [builder.buildObject] *)
Definition builder : Type := document -> outcome string.

Fixpoint lookupKey {A : Type} (key : string) (l : list (string * A)) : option A :=
  match l with
  | [] => None
  | (k, a) :: tl => if String.eqb k key then Some a else lookupKey key tl
  end.

(** [obj[key] = a]: an own key keeps its place, a new one goes last. *)
Fixpoint setKey {A : Type} (key : string) (a : A) (l : list (string * A))
  : list (string * A) :=
  match l with
  | [] => [(key, a)]
  | (k, old) :: tl =>
      if String.eqb k key then (k, a) :: tl else (k, old) :: setKey key a tl
  end.

Definition children (v : value) (key : string) : option (list value) :=
  match v with
  | Text _ => None
  | Element _ _ kids => lookupKey key kids
  end.

Definition attributes (v : value) : option (list (string * string)) :=
  match v with
  | Text _ => None
  | Element attrs _ _ => attrs
  end.

Definition charData (v : value) : option string :=
  match v with
  | Text _ => None
  | Element _ text _ => text
  end.

(** [attrs[key]] when it is a non-empty string. *)
Definition truthyAttr (attrs : list (string * string)) (key : string) : option string :=
  match lookupKey key attrs with
  | Some s => if JsString.truthy s then Some s else None
  | None => None
  end.

End Xml2js.

(** ** A reference parser

    The theorems about the analyzer and the repair hold for any parser; the
    worked inputs run this one.  It follows the strict-mode state machine of
    [sax] and the object construction of [xml2js] for documents made of a
    prolog, comments, elements, attributes, text and the five named
    entities.  Numeric character references, CDATA sections and DOCTYPE
    declarations are outside the subset and rejected as such; messages
    carry no position.  A leading byte order mark is dropped before the
    text is fed, as [xml2js] does. *)
Module Sax.
Import Xml2js.

Record frame : Type := mkFrame {
  tag : string;
  tagAttrs : list (string * string);
  tagText : string;
  tagChildren : list (string * list value)
}.

Inductive mode : Type :=
| TEXT
| TEXT_ENTITY (entity : string)
| OPEN_WAKA
| SGML_DECL (decl : string)
| COMMENT
| COMMENT_ENDING
| COMMENT_ENDED
| PROC_INST
| PROC_INST_ENDING
| OPEN_TAG (name : string)
| OPEN_TAG_SLASH (name : string) (attrs : list (string * string))
| ATTRIB (name : string) (attrs : list (string * string))
| ATTRIB_NAME (name : string) (attrs : list (string * string)) (attr : string)
| ATTRIB_NAME_SAW_WHITE (name : string) (attrs : list (string * string)) (attr : string)
| ATTRIB_VALUE (name : string) (attrs : list (string * string)) (attr : string)
| ATTRIB_VALUE_QUOTED (name : string) (attrs : list (string * string)) (attr : string)
                      (q : ascii) (v : string)
| ATTRIB_VALUE_ENTITY_Q (name : string) (attrs : list (string * string)) (attr : string)
                        (q : ascii) (v : string) (entity : string)
| ATTRIB_VALUE_CLOSED (name : string) (attrs : list (string * string))
| CLOSE_TAG (name : string)
| CLOSE_TAG_SAW_WHITE (name : string).

Inductive progress : Type :=
| Go (m : mode) (stack : list frame)
| Done (doc : document)
| Fail (message : string).

Definition code (c : ascii) : nat := nat_of_ascii c.

Definition isWhitespace (c : ascii) : bool :=
  Ascii.eqb c " " || Ascii.eqb c "010" || Ascii.eqb c "013" || Ascii.eqb c "009".

Definition isQuote (c : ascii) : bool := Ascii.eqb c "034" || Ascii.eqb c "'".

Definition nameStart (c : ascii) : bool :=
  let n := code c in
  (Ascii.eqb c ":" || Ascii.eqb c "_"
   || ((65 <=? n) && (n <=? 90)) || ((97 <=? n) && (n <=? 122)) || (128 <=? n))%nat.

Definition nameBody (c : ascii) : bool :=
  let n := code c in
  (nameStart c || Ascii.eqb c "-" || Ascii.eqb c "." || ((48 <=? n) && (n <=? 57)))%nat.

Definition entityStart (c : ascii) : bool := nameStart c || Ascii.eqb c "#".
Definition entityBody (c : ascii) : bool := nameBody c || Ascii.eqb c "#".

(** [/^\s*$/] on bytes *)
Fixpoint isBlank (s : string) : bool :=
  match s with
  | "" => true
  | String c s' =>
      let n := code c in
      (((9 <=? n) && (n <=? 13)) || (n =? 32))%nat && isBlank s'
  end.

Definition snoc (s : string) (c : ascii) : string := s ++ String c "".

Definition parseEntity (entity : string) : outcome string :=
  let lc := JsString.toLowerCase entity in
  if String.eqb lc "amp" then Ret "&"
  else if String.eqb lc "lt" then Ret "<"
  else if String.eqb lc "gt" then Ret ">"
  else if String.eqb lc "quot" then Ret JsString.dq
  else if String.eqb lc "apos" then Ret "'"
  else if JsString.startsWith lc "#"
       then Throw "unsupported: numeric character reference"
  else Throw "Invalid character entity".

(** The object an element closes to. *)
Definition valueOf (f : frame) : value :=
  match tagAttrs f, tagChildren f with
  | [], [] => Text (tagText f)
  | attrs, kids =>
      Element (match attrs with [] => None | _ => Some attrs end)
              (if isBlank (tagText f) then None else Some (tagText f))
              kids
  end.

Fixpoint assignOrPush (key : string) (v : value) (kids : list (string * list value))
  : list (string * list value) :=
  match kids with
  | [] => [(key, [v])]
  | (k, arr) :: tl =>
      if String.eqb k key then (k, (arr ++ [v])%list) :: tl
      else (k, arr) :: assignOrPush key v tl
  end.

Definition closeTag (name : string) (stack : list frame) : progress :=
  match stack with
  | [] => Fail ("Unmatched closing tag: " ++ name)
  | f :: rest =>
      if String.eqb (tag f) name then
        match rest with
        | [] => Done (name, valueOf f)
        | parent :: rest' =>
            Go TEXT
               (mkFrame (tag parent) (tagAttrs parent) (tagText parent)
                        (assignOrPush name (valueOf f) (tagChildren parent))
                  :: rest')
        end
      else Fail "Unexpected close tag"
  end.

Definition openTag (name : string) (attrs : list (string * string)) (selfClosing : bool)
           (stack : list frame) : progress :=
  let stack' := mkFrame name attrs "" [] :: stack in
  if selfClosing then closeTag name stack' else Go TEXT stack'.

(** A repeated attribute is dropped. *)
Definition attrib (attrs : list (string * string)) (attr v : string)
  : list (string * string) :=
  match lookupKey attr attrs with
  | Some _ => attrs
  | None => (attrs ++ [(attr, v)])%list
  end.

Definition addText (stack : list frame) (t : string) : list frame :=
  match stack with
  | [] => []
  | f :: rest =>
      mkFrame (tag f) (tagAttrs f) (tagText f ++ t) (tagChildren f) :: rest
  end.

Definition step (m : mode) (stack : list frame) (c : ascii) : progress :=
  match m with
  | TEXT =>
      if Ascii.eqb c "<" then Go OPEN_WAKA stack
      else
        match stack with
        | [] => if isWhitespace c then Go TEXT stack
                else Fail "Text data outside of root node."
        | _ => if Ascii.eqb c "&" then Go (TEXT_ENTITY "") stack
               else Go TEXT (addText stack (String c ""))
        end
  | TEXT_ENTITY entity =>
      if Ascii.eqb c ";" then
        match parseEntity entity with
        | Ret t => Go TEXT (addText stack t)
        | Throw e => Fail e
        end
      else if (if JsString.truthy entity then entityBody c else entityStart c)
      then Go (TEXT_ENTITY (snoc entity c)) stack
      else Fail "Invalid character in entity name"
  | OPEN_WAKA =>
      if Ascii.eqb c "!" then Go (SGML_DECL "") stack
      else if isWhitespace c then Go OPEN_WAKA stack
      else if nameStart c then Go (OPEN_TAG (String c "")) stack
      else if Ascii.eqb c "/" then Go (CLOSE_TAG "") stack
      else if Ascii.eqb c "?" then Go PROC_INST stack
      else Fail "Unencoded <"
  | SGML_DECL decl =>
      if String.eqb (snoc decl c) "--" then Go COMMENT stack
      else if String.eqb (snoc decl c) "[CDATA["
           then Fail "unsupported: CDATA section"
      else if String.eqb (JsString.toLowerCase (snoc decl c)) "doctype"
           then Fail "unsupported: DOCTYPE declaration"
      else if Ascii.eqb c ">" then Go TEXT stack
      else if isQuote c then Fail "unsupported: quoted declaration"
      else Go (SGML_DECL (snoc decl c)) stack
  | COMMENT =>
      if Ascii.eqb c "-" then Go COMMENT_ENDING stack else Go COMMENT stack
  | COMMENT_ENDING =>
      if Ascii.eqb c "-" then Go COMMENT_ENDED stack else Go COMMENT stack
  | COMMENT_ENDED =>
      if Ascii.eqb c ">" then Go TEXT stack else Fail "Malformed comment"
  | PROC_INST =>
      if Ascii.eqb c "?" then Go PROC_INST_ENDING stack else Go PROC_INST stack
  | PROC_INST_ENDING =>
      if Ascii.eqb c ">" then Go TEXT stack else Go PROC_INST stack
  | OPEN_TAG name =>
      if nameBody c then Go (OPEN_TAG (snoc name c)) stack
      else if Ascii.eqb c ">" then openTag name [] false stack
      else if Ascii.eqb c "/" then Go (OPEN_TAG_SLASH name []) stack
      else if isWhitespace c then Go (ATTRIB name []) stack
      else Fail "Invalid character in tag name"
  | OPEN_TAG_SLASH name attrs =>
      if Ascii.eqb c ">" then openTag name attrs true stack
      else Fail "Forward-slash in opening tag not followed by >"
  | ATTRIB name attrs =>
      if isWhitespace c then Go (ATTRIB name attrs) stack
      else if Ascii.eqb c ">" then openTag name attrs false stack
      else if Ascii.eqb c "/" then Go (OPEN_TAG_SLASH name attrs) stack
      else if nameStart c then Go (ATTRIB_NAME name attrs (String c "")) stack
      else Fail "Invalid attribute name"
  | ATTRIB_NAME name attrs attr =>
      if Ascii.eqb c "=" then Go (ATTRIB_VALUE name attrs attr) stack
      else if Ascii.eqb c ">" then Fail "Attribute without value"
      else if isWhitespace c then Go (ATTRIB_NAME_SAW_WHITE name attrs attr) stack
      else if nameBody c then Go (ATTRIB_NAME name attrs (snoc attr c)) stack
      else Fail "Invalid attribute name"
  | ATTRIB_NAME_SAW_WHITE name attrs attr =>
      if Ascii.eqb c "=" then Go (ATTRIB_VALUE name attrs attr) stack
      else if isWhitespace c then Go (ATTRIB_NAME_SAW_WHITE name attrs attr) stack
      else Fail "Attribute without value"
  | ATTRIB_VALUE name attrs attr =>
      if isWhitespace c then Go (ATTRIB_VALUE name attrs attr) stack
      else if isQuote c then Go (ATTRIB_VALUE_QUOTED name attrs attr c "") stack
      else Fail "Unquoted attribute value"
  | ATTRIB_VALUE_QUOTED name attrs attr q v =>
      if Ascii.eqb c q then Go (ATTRIB_VALUE_CLOSED name (attrib attrs attr v)) stack
      else if Ascii.eqb c "&" then Go (ATTRIB_VALUE_ENTITY_Q name attrs attr q v "") stack
      else Go (ATTRIB_VALUE_QUOTED name attrs attr q (snoc v c)) stack
  | ATTRIB_VALUE_ENTITY_Q name attrs attr q v entity =>
      if Ascii.eqb c ";" then
        match parseEntity entity with
        | Ret t => Go (ATTRIB_VALUE_QUOTED name attrs attr q (v ++ t)) stack
        | Throw e => Fail e
        end
      else if (if JsString.truthy entity then entityBody c else entityStart c)
      then Go (ATTRIB_VALUE_ENTITY_Q name attrs attr q v (snoc entity c)) stack
      else Fail "Invalid character in entity name"
  | ATTRIB_VALUE_CLOSED name attrs =>
      if isWhitespace c then Go (ATTRIB name attrs) stack
      else if Ascii.eqb c ">" then openTag name attrs false stack
      else if Ascii.eqb c "/" then Go (OPEN_TAG_SLASH name attrs) stack
      else if nameStart c then Fail "No whitespace between attributes"
      else Fail "Invalid attribute name"
  | CLOSE_TAG name =>
      if JsString.truthy name then
        if Ascii.eqb c ">" then closeTag name stack
        else if nameBody c then Go (CLOSE_TAG (snoc name c)) stack
        else if isWhitespace c then Go (CLOSE_TAG_SAW_WHITE name) stack
        else Fail "Invalid tagname in closing tag"
      else if isWhitespace c then Go (CLOSE_TAG name) stack
      else if nameStart c then Go (CLOSE_TAG (String c "")) stack
      else Fail "Invalid tagname in closing tag."
  | CLOSE_TAG_SAW_WHITE name =>
      if isWhitespace c then Go (CLOSE_TAG_SAW_WHITE name) stack
      else if Ascii.eqb c ">" then closeTag name stack
      else Fail "Invalid characters in closing tag"
  end.

(** Feed the input; the promise settles when the root element closes, and
    what follows it is not looked at. *)
Fixpoint run (m : mode) (stack : list frame) (input : string)
  : outcome (option document) :=
  match input with
  | "" =>
      match stack, m with
      | [], TEXT => Ret None
      | _ :: _, _ => Throw "Unclosed root tag"
      | [], _ => Throw "Unexpected end"
      end
  | String c rest =>
      match step m stack c with
      | Go m' stack' => run m' stack' rest
      | Done doc => Ret (Some doc)
      | Fail e => Throw e
      end
  end.

(** [bom.stripBOM]: a leading byte order mark is dropped. *)
Definition stripBOM (str : string) : string :=
  match str with
  | String "239" (String "187" (String "191" rest)) => rest
  | _ => str
  end.

Definition parseStringPromise : parser :=
  fun str => if isBlank str then Ret None else run TEXT [] (stripBOM str).

End Sax.

(** ** A reference builder

    [new xml2js.Builder({ xmldec, renderOpts: { pretty: true, indent: '  ' } })]
    for objects without mixed content: the declaration, then one element
    per line, text-only elements on one line, two spaces per level. *)
Module Builder.
Import Xml2js.

Fixpoint escape (attribute : bool) (s : string) : string :=
  match s with
  | "" => ""
  | String c s' =>
      (if Ascii.eqb c "&" then "&amp;"
       else if Ascii.eqb c "<" then "&lt;"
       else if Ascii.eqb c ">" then if attribute then ">" else "&gt;"
       else if Ascii.eqb c "034" then if attribute then "&quot;" else JsString.dq
       else if Ascii.eqb c "013" then "&#xD;"
       else if Ascii.eqb c "010" then if attribute then "&#xA;" else JsString.nl
       else if Ascii.eqb c "009" then if attribute then "&#x9;" else String c ""
       else String c "") ++ escape attribute s'
  end.

Definition renderAttrs (attrs : option (list (string * string))) : string :=
  match attrs with
  | None => ""
  | Some l =>
      String.concat ""
        (map (fun kv => " " ++ fst kv ++ "=" ++ JsString.dq
                        ++ escape true (snd kv) ++ JsString.dq) l)
  end.

Fixpoint render (indent name : string) (v : value) {struct v} : string :=
  match v with
  | Text "" => indent ++ "<" ++ name ++ "/>"
  | Text s => indent ++ "<" ++ name ++ ">" ++ escape false s ++ "</" ++ name ++ ">"
  | Element attrs text [] =>
      match text with
      | None => indent ++ "<" ++ name ++ renderAttrs attrs ++ "/>"
      | Some t =>
          indent ++ "<" ++ name ++ renderAttrs attrs ++ ">" ++ escape false t
          ++ "</" ++ name ++ ">"
      end
  | Element attrs text kids =>
      indent ++ "<" ++ name ++ renderAttrs attrs ++ ">" ++ JsString.nl
      ++ match text with
         | None => ""
         | Some t => indent ++ "  " ++ escape false t ++ JsString.nl
         end
      ++ (fix each (kids : list (string * list value)) : string :=
            match kids with
            | [] => ""
            | (key, arr) :: tl =>
                (fix every (arr : list value) : string :=
                   match arr with
                   | [] => ""
                   | child :: rest =>
                       render (indent ++ "  ") key child ++ JsString.nl ++ every rest
                   end) arr ++ each tl
            end) kids
      ++ indent ++ "</" ++ name ++ ">"
  end.

Definition xmldec : string :=
  "<?xml version=" ++ JsString.dq ++ "1.0" ++ JsString.dq
  ++ " encoding=" ++ JsString.dq ++ "UTF-8" ++ JsString.dq ++ "?>".

Definition buildObject : builder :=
  fun doc => Ret (xmldec ++ JsString.nl ++ render "" (fst doc) (snd doc)).

End Builder.

(** ** Property reads that can throw *)
Module Js.

(** The message of the TypeError raised by reading the property [key] of
    [undefined], and of [null]. *)
Definition typeError (key : string) : string :=
  "Cannot read properties of undefined (reading '" ++ key ++ "')".

Definition nullError (key : string) : string :=
  "Cannot read properties of null (reading '" ++ key ++ "')".

(** [v[key]] for a child name, [v] possibly [undefined]. *)
Definition get (v : option Xml2js.value) (key : string)
  : outcome (option (list Xml2js.value)) :=
  match v with
  | None => Throw (typeError key)
  | Some x => Ret (Xml2js.children x key)
  end.

(** [v.$] *)
Definition attrs (v : option Xml2js.value) : outcome (option (list (string * string))) :=
  match v with
  | None => Throw (typeError "$")
  | Some x => Ret (Xml2js.attributes x)
  end.

(** [v._] *)
Definition text (v : option Xml2js.value) : outcome (option string) :=
  match v with
  | None => Throw (typeError "_")
  | Some x => Ret (Xml2js.charData x)
  end.

(** [result.manifest], [result] possibly [null]. *)
Definition root (result : option Xml2js.document) (key : string)
  : outcome (option Xml2js.value) :=
  match result with
  | None => Throw (nullError key)
  | Some (name, v) => Ret (if String.eqb name key then Some v else None)
  end.

(** A value inside a template literal. *)
Definition toString (v : option Xml2js.value) : string :=
  match v with
  | None => "undefined"
  | Some (Xml2js.Text s) => s
  | Some (Xml2js.Element _ _ _) => "[object Object]"
  end.

Definition ofNat (n : nat) : string := NilEmpty.string_of_uint (Nat.to_uint n).

(** [[...new Set(l)]]: first occurrences, in order. *)
Fixpoint unique (seen l : list string) : list string :=
  match l with
  | [] => []
  | x :: tl =>
      if existsb (String.eqb x) seen then unique seen tl
      else x :: unique (x :: seen) tl
  end.

End Js.

(** ** analyzeSCORM *)

Record analysis : Type := mkAnalysis {
  hasManifest : bool;
  resumeCapable : bool;
  details : list string;
  metadataVersion : option Xml2js.value;
  metadataTitle : option string;
  metadataLaunchFile : option string
}.

(** What [analyzeSCORM] resolves to: [{ success: false, error }] or the
    analysis, whose [success] is [true]. *)
Inductive analysisResult : Type :=
| AnalysisFailed (error : string)
| Analyzed (a : analysis).

Definition analysisSuccess (r : analysisResult) : bool :=
  match r with
  | Analyzed _ => true
  | AnalysisFailed _ => false
  end.

Definition isManifestEntry (e : AdmZip.entry) : bool :=
  JsString.endsWith (JsString.toLowerCase (AdmZip.entryName e)) "imsmanifest.xml".

Definition isScriptEntry (e : AdmZip.entry) : bool :=
  JsString.endsWith (JsString.toLowerCase (AdmZip.entryName e)) ".js".

(** [if (manifest.metadata && manifest.metadata[0].schemaversion)] *)
Definition versionBlock (manifest : option Xml2js.value)
  : outcome (list string * option Xml2js.value) :=
  md <- Js.get manifest "metadata" ;;
  match md with
  | None => Ret ([], None)
  | Some mds =>
      sv <- Js.get (hd_error mds) "schemaversion" ;;
      match sv with
      | None => Ret ([], None)
      | Some svs =>
          let scormVersion := hd_error svs in
          Ret (["📋 SCORM Version: " ++ Js.toString scormVersion], scormVersion)
      end
  end.

(** [if (manifest.metadata && manifest.metadata[0].lom)] *)
Definition titleBlock (manifest : option Xml2js.value)
  : outcome (list string * option string) :=
  md <- Js.get manifest "metadata" ;;
  match md with
  | None => Ret ([], None)
  | Some mds =>
      loms <- Js.get (hd_error mds) "lom" ;;
      match loms with
      | None => Ret ([], None)
      | Some loms =>
          let lom := hd_error loms in
          general <- Js.get lom "general" ;;
          match general with
          | None => Ret ([], None)
          | Some gs =>
              titles <- Js.get (hd_error gs) "title" ;;
              match titles with
              | None => Ret ([], None)
              | Some ts =>
                  langstrings <- Js.get (hd_error ts) "langstring" ;;
                  match langstrings with
                  | None => Ret ([], None)
                  | Some ls =>
                      title <- Js.text (hd_error ls) ;;
                      match title with
                      | Some t =>
                          if JsString.truthy t
                          then Ret (["📚 Course: " ++ t], Some t)
                          else Ret ([], None)
                      | None => Ret ([], None)
                      end
                  end
              end
          end
      end
  end.

(** The inner [forEach]: one line per item that carries an [identifierref]. *)
Definition itemLines (org : Xml2js.value) : list string :=
  match Xml2js.children org "item" with
  | None => []
  | Some items =>
      flat_map
        (fun item =>
           match Xml2js.attributes item with
           | Some a =>
               match Xml2js.truthyAttr a "identifierref" with
               | Some _ =>
                   ["📄 SCO: " ++
                    match Xml2js.children item "title" with
                    | Some ts => Js.toString (hd_error ts)
                    | None => "Untitled"
                    end]
               | None => []
               end
           | None => []
           end) items
  end.

(** [if (manifest.organizations && manifest.organizations[0].organization)] *)
Definition organizationsBlock (manifest : option Xml2js.value) : outcome (list string) :=
  os <- Js.get manifest "organizations" ;;
  match os with
  | None => Ret []
  | Some os =>
      orgs <- Js.get (hd_error os) "organization" ;;
      match orgs with
      | None => Ret []
      | Some orgs =>
          Ret (("📁 Found " ++ Js.ofNat (length orgs) ++ " organization(s)")
                 :: flat_map itemLines orgs)
      end
  end.

(** [res.$ && res.$['adlcp:scormtype'] === 'sco'] *)
Definition isSco (res : Xml2js.value) : bool :=
  match Xml2js.attributes res with
  | Some a =>
      match Xml2js.lookupKey "adlcp:scormtype" a with
      | Some t => String.eqb t "sco"
      | None => false
      end
  | None => false
  end.

(** [if (manifest.resources && manifest.resources[0].resource)]: the lines
    pushed, whether [resumeCapable] was set, and the launch file noted. *)
Definition resourcesBlock (manifest : option Xml2js.value)
  : outcome (list string * bool * option string) :=
  rs <- Js.get manifest "resources" ;;
  match rs with
  | None => Ret ([], false, None)
  | Some rs =>
      resources <- Js.get (hd_error rs) "resource" ;;
      match resources with
      | None => Ret ([], false, None)
      | Some resources =>
          let scoResources := filter isSco resources in
          let found := (0 <? length scoResources)%nat in
          let lines :=
            if found then
              [("📦 Found " ++ Js.ofNat (length scoResources) ++ " SCO resource(s)");
               "✅ Package contains SCO resources (supports data persistence)"]
            else [] in
          a0 <- Js.attrs (hd_error resources) ;;
          Ret (lines, found,
               match a0 with
               | Some a => Xml2js.truthyAttr a "href"
               | None => None
               end)
      end
  end.

(** The body of the loop over the script files; a failing [getData] is
    swallowed by the inner [try]. *)
Definition scanScript (st : bool * list string) (jsFile : AdmZip.entry)
  : bool * list string :=
  match AdmZip.getData jsFile with
  | Throw _ => st
  | Ret content =>
      let hasAPIReferences := fst st in
      let apiCallsFound := snd st in
      let apiCallsFound :=
        if JsString.includes content "cmi.core.lesson_status"
           || JsString.includes content "cmi.completion_status"
        then (apiCallsFound ++ ["lesson_status"])%list else apiCallsFound in
      let '(hasAPIReferences, apiCallsFound) :=
        if JsString.includes content "cmi.suspend_data"
        then (true, (apiCallsFound ++ ["suspend_data"])%list)
        else (hasAPIReferences, apiCallsFound) in
      let '(hasAPIReferences, apiCallsFound) :=
        if JsString.includes content "cmi.location"
        then (true, (apiCallsFound ++ ["location"])%list)
        else (hasAPIReferences, apiCallsFound) in
      let apiCallsFound :=
        if JsString.includes content "API.LMSInitialize"
           || JsString.includes content "API_1484_11.Initialize"
        then (apiCallsFound ++ ["LMS_Initialize"])%list else apiCallsFound in
      (hasAPIReferences, apiCallsFound)
  end.

(** The [try] block of [analyzeSCORM]; [zipOpen] is what [new AdmZip(zipPath)]
    and [getEntries()] give. *)
Definition analyzeBody (parse : Xml2js.parser) (zipOpen : outcome (list AdmZip.entry))
  : outcome analysisResult :=
  zipEntries <- zipOpen ;;
  match find isManifestEntry zipEntries with
  | None => Ret (AnalysisFailed "No imsmanifest.xml found in the package")
  | Some manifestEntry =>
      manifestContent <- AdmZip.getData manifestEntry ;;
      result <- parse manifestContent ;;
      manifest <- Js.root result "manifest" ;;
      '(versionLines, version) <- versionBlock manifest ;;
      '(titleLines, title) <- titleBlock manifest ;;
      organizationLines <- organizationsBlock manifest ;;
      '(resourceLines, scoFound, launchFile) <- resourcesBlock manifest ;;
      let jsFiles := filter isScriptEntry zipEntries in
      let '(hasAPIReferences, apiCallsFound) :=
        fold_left scanScript (firstn 10 jsFiles) (false, []) in
      let resume := scoFound || hasAPIReferences in
      Ret (Analyzed
             {| hasManifest := true;
                resumeCapable := resume;
                details :=
                  (versionLines ++ titleLines ++ organizationLines ++ resourceLines
                   ++ (if hasAPIReferences
                       then [("✅ Found SCORM API calls: "
                              ++ String.concat ", " (Js.unique [] apiCallsFound))%string]
                       else [])
                   ++ (if resume then []
                       else ["⚠️ No clear resume capability indicators found";
                             "ℹ️ Package may still support resume if implemented at runtime"]))%list;
                metadataVersion := version;
                metadataTitle := title;
                metadataLaunchFile := launchFile |})
  end.

(** [analyzeSCORM]: the [catch] turns whatever the body throws into
    [{ success: false, error: error.message }]. *)
Definition analyzeSCORM (parse : Xml2js.parser) (zipOpen : outcome (list AdmZip.entry))
  : outcome analysisResult :=
  tryCatch (analyzeBody parse zipOpen) (fun message => Ret (AnalysisFailed message)).

(** ** Helpers of the repair path *)

(** The loop [findFile] and [findFirstHtml] share: entries in listing order,
    a directory searched before the entries after it, the first file whose
    name passes [test]. [full] is the path of the directory being listed. *)
Fixpoint search (test : string -> bool) (full : list string) (dir : node)
  {struct dir} : option (list string) :=
  match dir with
  | File _ => None
  | Dir entries =>
      (fix loop (es : list (string * node)) : option (list string) :=
         match es with
         | [] => None
         | (name, child) :: tl =>
             if isDirectory child then
               match search test (full ++ [name])%list child with
               | Some found => Some found
               | None => loop tl
               end
             else if test name then Some (full ++ [name])%list
             else loop tl
         end) entries
  end.

Definition findFile (fs : node) (dir : list string) (filename : string)
  : outcome (option (list string)) :=
  entries <- readdirSync fs dir ;;
  Ret (search (fun name =>
                 String.eqb (JsString.toLowerCase name) (JsString.toLowerCase filename))
              dir (Dir entries)).

Definition findFirstHtml (fs : node) (dir : list string)
  : outcome (option (list string)) :=
  entries <- readdirSync fs dir ;;
  Ret (search JsString.matchesHtml dir (Dir entries)).

Definition LAUNCH_CANDIDATES : list string :=
  ["index_lms.html"; "index_lms.htm";
   "story.html"; "story.htm";
   "index.html"; "index.htm";
   "launch.html"; "launch.htm";
   "default.html"; "default.htm"].

Fixpoint firstCandidate (fs : node) (dir : list string) (candidates : list string)
  : outcome (option (list string)) :=
  match candidates with
  | [] => findFirstHtml fs dir
  | candidate :: rest =>
      found <- findFile fs dir candidate ;;
      match found with
      | Some p => Ret (Some p)
      | None => firstCandidate fs dir rest
      end
  end.

Definition findLaunchFile (fs : node) (dir : list string)
  : outcome (option (list string)) :=
  firstCandidate fs dir LAUNCH_CANDIDATES.

(** [addDirToZip(zip, baseDir, currentDir)], [dir] being the node at
    [currentDir]; the archive is threaded through the loop. *)
Fixpoint addDirToZip (zip : list (string * string)) (baseDir currentDir : list string)
  (dir : node) {struct dir} : list (string * string) :=
  match dir with
  | File _ => zip
  | Dir entries =>
      (fix loop (zip : list (string * string)) (es : list (string * node))
         : list (string * string) :=
         match es with
         | [] => zip
         | (name, child) :: tl =>
             let full := (currentDir ++ [name])%list in
             let zipPath := Path.relativeSlashed baseDir full in
             match child with
             | Dir _ => loop (addDirToZip zip baseDir full child) tl
             | File data => loop (AdmZip.addFile zip zipPath data) tl
             end
         end) zip entries
  end.


(** ** Instrumentation (injectShimIntoDir, injectTrackerIntoDir) *)

Definition shimMarker : string := "SCORM API Shim (inlined)".
Definition trackerMarker : string := "SCORM Event Tracker (inlined)".

(** The block both injectors build around the source they read from
    [public/]: a script element whose first line is the marker comment. *)
Definition inlineBlock (marker src : string) : string :=
  "<script>" ++ JsString.nl ++ "/* === " ++ marker ++ " === */" ++ JsString.nl
  ++ src ++ JsString.nl ++ "</script>" ++ JsString.nl.

Definition shimBlock (shimSrc : string) : string := inlineBlock shimMarker shimSrc.
Definition trackerBlock (trackerSrc : string) : string :=
  inlineBlock trackerMarker trackerSrc.

(** The facts about a marker the counting argument uses; both markers of the
    server have them, by computation. *)
Definition markerOk (marker : string) : bool :=
  JsString.truthy marker
  && negb (JsString.hasChar "010" marker)
  && negb (JsString.hasChar "<" marker)
  && negb (JsString.hasChar "$" marker)
  && (JsString.occurrences ("/* === " ++ marker ++ " === */") marker =? 1)%nat
  && negb (JsString.includes "<script>" marker)
  && negb (JsString.includes "</script>" marker).

(** What the theorems ask of a snippet source: it does not itself contain the
    marker, and [replace] inserts it verbatim. *)
Definition cleanSource (marker src : string) : bool :=
  negb (JsString.includes src marker) && JsString.substFree src.

(** The body of the [try] in [walk], for one HTML file: the guard, then the
    insertion chain. *)
Definition injectDocument (marker block html : string) : string :=
  if JsString.includes html marker then html
  else if JsString.includes html "<head>" then
    JsString.replace html "<head>" ("<head>" ++ JsString.nl ++ block)
  else if JsString.includes html "</head>" then
    JsString.replace html "</head>" (block ++ "</head>")
  else block ++ html.

(** [walk(currentDir)]: both injectors carry the same local function, up to
    the marker and the block.  [visit] is the loop body for one entry. *)
Fixpoint visit (marker block name : string) (n : node) {struct n} : node :=
  match n with
  | Dir sub =>
      Dir (map (fun e => (fst e, visit marker block (fst e) (snd e))) sub)
  | File html =>
      if JsString.matchesHtml name
      then File (injectDocument marker block html)
      else File html
  end.

Definition walk (marker block : string) (entries : list (string * node))
  : list (string * node) :=
  map (fun e => (fst e, visit marker block (fst e) (snd e))) entries.

(** [injectShimIntoDir(sessionDir, dir)] on the tree found at [dir]:
    [readdirSync] throws when [dir] is not a directory. *)
Definition injectShimIntoDir (shimSrc : string) (dir : node) : outcome node :=
  match dir with
  | Dir entries => Ret (Dir (walk shimMarker (shimBlock shimSrc) entries))
  | File _ => Throw "ENOTDIR: not a directory, scandir"
  end.

Definition injectTrackerIntoDir (trackerSrc : string) (dir : node) : outcome node :=
  match dir with
  | Dir entries => Ret (Dir (walk trackerMarker (trackerBlock trackerSrc) entries))
  | File _ => Throw "ENOTDIR: not a directory, scandir"
  end.

Definition injectShimIntoSession (shimSrc : string) (sessionDir : node) : outcome node :=
  injectShimIntoDir shimSrc sessionDir.

(** The content of the file at [p] once a pass has returned. *)
Definition documentAfter (r : outcome node) (p : list string) : option string :=
  match r with
  | Ret t => fileAt t p
  | Throw _ => None
  end.

(** [n] successive runs of a pass over the same tree. *)
Fixpoint runs (n : nat) (pass : node -> outcome node) (t : node) : outcome node :=
  match n with
  | 0 => Ret t
  | S k => t' <- pass t ;; runs k pass t'
  end.

(** ** repairSCORM *)

Definition quoted (s : string) : string := JsString.dq ++ s ++ JsString.dq.

Definition buildMinimalManifest (launchFile : string) : string :=
  "<?xml version=" ++ quoted "1.0" ++ " encoding=" ++ quoted "UTF-8" ++ "?>"
  ++ JsString.nl
  ++ "<manifest identifier=" ++ quoted "course_manifest" ++ " version=" ++ quoted "1"
  ++ JsString.nl
  ++ "  xmlns=" ++ quoted "http://www.imsproject.org/xsd/imscp_rootv1p1p2"
  ++ JsString.nl
  ++ "  xmlns:adlcp=" ++ quoted "http://www.adlnet.org/xsd/adlcp_rootv1p2"
  ++ JsString.nl
  ++ "  xmlns:xsi=" ++ quoted "http://www.w3.org/2001/XMLSchema-instance" ++ ">"
  ++ JsString.nl
  ++ "  <metadata>" ++ JsString.nl
  ++ "    <schema>ADL SCORM</schema>" ++ JsString.nl
  ++ "    <schemaversion>1.2</schemaversion>" ++ JsString.nl
  ++ "  </metadata>" ++ JsString.nl
  ++ "  <organizations default=" ++ quoted "org_1" ++ ">" ++ JsString.nl
  ++ "    <organization identifier=" ++ quoted "org_1" ++ ">" ++ JsString.nl
  ++ "      <title>Course</title>" ++ JsString.nl
  ++ "      <item identifier=" ++ quoted "item_1" ++ " identifierref="
  ++ quoted "resource_1" ++ ">" ++ JsString.nl
  ++ "        <title>Course</title>" ++ JsString.nl
  ++ "      </item>" ++ JsString.nl
  ++ "    </organization>" ++ JsString.nl
  ++ "  </organizations>" ++ JsString.nl
  ++ "  <resources>" ++ JsString.nl
  ++ "    <resource identifier=" ++ quoted "resource_1" ++ " type=" ++ quoted "webcontent"
  ++ " adlcp:scormtype=" ++ quoted "sco" ++ " href=" ++ quoted launchFile ++ ">"
  ++ JsString.nl
  ++ "      <file href=" ++ quoted launchFile ++ "/>" ++ JsString.nl
  ++ "    </resource>" ++ JsString.nl
  ++ "  </resources>" ++ JsString.nl
  ++ "</manifest>".

(** What [repairSCORM] returns: [{ success: true, repairs, launchFile }]. *)
Record repairReport : Type := mkRepairReport {
  success : bool;
  repairs : list string;
  launchFile : option string
}.

(** [launchFile || 'index.html'] for the path [findLaunchFile] returned. *)
Definition orIndex (launchFile : option (list string)) : string :=
  match launchFile with
  | Some p => Path.render p
  | None => "index.html"
  end.

(** Fix 1: the tree, the manifest path, its text and the log so far. *)
Definition findOrCreateManifest (fs : node) (tmpDir : list string)
  : outcome (node * list string * string * list string) :=
  found <- findFile fs tmpDir "imsmanifest.xml" ;;
  match found with
  | None =>
      let manifestPath := (tmpDir ++ ["imsmanifest.xml"])%list in
      launchFile <- findLaunchFile fs tmpDir ;;
      let manifestXml := buildMinimalManifest (orIndex launchFile) in
      fs' <- writeFileSync fs (manifestPath, false) manifestXml ;;
      Ret (fs', manifestPath, manifestXml, ["🆕 Created missing imsmanifest.xml"])
  | Some manifestPath =>
      manifestXml <- readFileSync fs (manifestPath, false) ;;
      Ret (fs, manifestPath, manifestXml, [])
  end.

(** Fix 2: parse, or rebuild from scratch when the parser rejects. *)
Definition parseOrRebuild (parse : Xml2js.parser) (fs : node) (tmpDir : list string)
           (manifestXml : string) (repairs : list string)
  : outcome (option Xml2js.document * list string) :=
  tryCatch
    (manifestObj <- parse manifestXml ;; Ret (manifestObj, repairs))
    (fun _ =>
       launchFile <- findLaunchFile fs tmpDir ;;
       manifestObj <- parse (buildMinimalManifest (orIndex launchFile)) ;;
       Ret (manifestObj, (repairs ++ ["🔧 Rebuilt corrupt imsmanifest.xml"])%list)).

(** Fix 3.  With no [manifest] the read of [manifest.$] throws; on a
    manifest that parsed to a string the assignment of [$] is lost and the
    read of [manifest.$[nsKey]] throws. *)
Definition ensureNamespace (manifest : option Xml2js.value) (repairs : list string)
  : outcome (Xml2js.value * list string) :=
  match manifest with
  | None => Throw (Js.typeError "$")
  | Some (Xml2js.Text _) => Throw (Js.typeError "xmlns:adlcp")
  | Some (Xml2js.Element attrs text kids) =>
      let a := match attrs with Some a => a | None => [] end in
      match Xml2js.truthyAttr a "xmlns:adlcp" with
      | Some _ => Ret (Xml2js.Element (Some a) text kids, repairs)
      | None =>
          Ret (Xml2js.Element
                 (Some (Xml2js.setKey "xmlns:adlcp"
                          "http://www.adlnet.org/xsd/adlcp_rootv1p2" a))
                 text kids,
               (repairs ++ ["🔧 Added missing adlcp namespace"])%list)
      end
  end.

(** Fix 4 *)
Definition ensureMetadata (manifest : Xml2js.value) (repairs : list string)
  : Xml2js.value * list string :=
  match manifest with
  | Xml2js.Text _ => (manifest, repairs)
  | Xml2js.Element attrs text kids =>
      match Xml2js.lookupKey "metadata" kids with
      | Some _ => (manifest, repairs)
      | None =>
          (Xml2js.Element attrs text
             (Xml2js.setKey "metadata"
                [Xml2js.Element None None
                   [("schema", [Xml2js.Text "ADL SCORM"]);
                    ("schemaversion", [Xml2js.Text "1.2"])]]
                kids),
           (repairs ++ ["🔧 Added missing metadata/schema block"])%list)
      end
  end.

(** The manifest once [primary.$] has been mutated to [a]: [primary] is
    [manifest.resources[0].resource[0]] itself, not a copy. *)
Definition setPrimaryAttrs (manifest : Xml2js.value) (a : list (string * string))
  : Xml2js.value :=
  match manifest with
  | Xml2js.Element mattrs mtext kids =>
      match Xml2js.lookupKey "resources" kids with
      | Some (Xml2js.Element rattrs rtext rkids :: blocks) =>
          match Xml2js.lookupKey "resource" rkids with
          | Some (Xml2js.Element _ ptext pkids :: others) =>
              Xml2js.Element mattrs mtext
                (Xml2js.setKey "resources"
                   (Xml2js.Element rattrs rtext
                      (Xml2js.setKey "resource"
                         (Xml2js.Element (Some a) ptext pkids :: others) rkids)
                      :: blocks)
                   kids)
          | _ => manifest
          end
      | _ => manifest
      end
  | Xml2js.Text _ => manifest
  end.

(** [manifest.resources = [{ resource: [{ $: { ... } }] }]] *)
Definition setResources (manifest : Xml2js.value) (href : string) : Xml2js.value :=
  match manifest with
  | Xml2js.Element mattrs mtext kids =>
      Xml2js.Element mattrs mtext
        (Xml2js.setKey "resources"
           [Xml2js.Element None None
              [("resource",
                [Xml2js.Element
                   (Some [("identifier", "resource_1");
                          ("type", "webcontent");
                          ("adlcp:scormtype", "sco");
                          ("href", href)])
                   None []])]]
           kids)
  | Xml2js.Text _ => manifest
  end.

(** [if (!primary.$['adlcp:scormtype'])] *)
Definition ensureScormType (a : list (string * string)) (repairs : list string)
  : list (string * string) * list string :=
  match Xml2js.truthyAttr a "adlcp:scormtype" with
  | Some _ => (a, repairs)
  | None =>
      (Xml2js.setKey "adlcp:scormtype" "sco" a,
       (repairs
        ++ [("🔧 Set adlcp:scormtype=" ++ quoted "sco"
             ++ " on primary resource")%string])%list)
  end.

(** Fix 5: the manifest, the log and [launchFile]. *)
Definition fixResources (fs : node) (tmpDir manifestPath : list string)
           (manifest : Xml2js.value) (repairs : list string)
  : outcome (Xml2js.value * list string * option string) :=
  blocks <- Js.get (Some manifest) "resources" ;;
  resources <- match blocks with
               | Some blocks => Js.get (hd_error blocks) "resource"
               | None => Ret None
               end ;;
  match resources with
  | Some resources =>
      let primary := hd_error resources in
      primaryAttrs <- Js.attrs primary ;;
      match primaryAttrs with
      | Some a =>
          let '(a, repairs) := ensureScormType a repairs in
          match Xml2js.truthyAttr a "href" with
          | Some declaredHref =>
              let fullLaunchPath := Path.join (Path.dirname manifestPath) declaredHref in
              if existsSync fs fullLaunchPath
              then Ret (setPrimaryAttrs manifest a, repairs, Some declaredHref)
              else
                found <- findLaunchFile fs tmpDir ;;
                match found with
                | Some found =>
                    let rel := Path.relativeSlashed (Path.dirname manifestPath) found in
                    Ret (setPrimaryAttrs manifest (Xml2js.setKey "href" rel a),
                         (repairs ++ [("🔧 Fixed broken launch file → " ++ rel)%string])%list,
                         Some rel)
                | None => Ret (setPrimaryAttrs manifest a, repairs, None)
                end
          | None => Ret (setPrimaryAttrs manifest a, repairs, None)
          end
      | None => Ret (manifest, repairs, None)
      end
  | None =>
      found <- findLaunchFile fs tmpDir ;;
      let href :=
        match found with
        | Some found => Path.relativeSlashed (Path.dirname manifestPath) found
        | None => "index.html"
        end in
      Ret (setResources manifest href,
           (repairs
            ++ [("🆕 Created missing resources block (launch: " ++ href ++ ")")%string])%list,
           Some href)
  end.

Definition shimTag : string :=
  "<script src=" ++ quoted "/scorm-api-shim.js" ++ "></script>" ++ JsString.nl.

Definition injectShimTag (html : string) : string :=
  if JsString.includes html "<head>" then
    JsString.replace html "<head>" ("<head>" ++ JsString.nl ++ shimTag)
  else if JsString.includes html "</head>" then
    JsString.replace html "</head>" (shimTag ++ "</head>")
  else shimTag ++ html.

(** Fix 6 *)
Definition injectIntoLaunch (fs : node) (manifestPath : list string)
           (launchFile : option string) (repairs : list string)
  : outcome (node * list string) :=
  match launchFile with
  | None => Ret (fs, repairs)
  | Some launchFile =>
      if JsString.truthy launchFile then
        let launchFullPath := Path.join (Path.dirname manifestPath) launchFile in
        if existsSync fs launchFullPath && Path.matchesHtml launchFullPath then
          html <- readFileSync fs launchFullPath ;;
          if JsString.includes html "scorm-api-shim.js" then Ret (fs, repairs)
          else
            fs' <- writeFileSync fs launchFullPath (injectShimTag html) ;;
            Ret (fs', (repairs ++ ["💉 Injected SCORM API shim into launch HTML"])%list)
        else Ret (fs, repairs)
      else Ret (fs, repairs)
  end.

(** The serialization of the manifest over its file, and the re-zip. *)
Definition serializeAndRepack (build : Xml2js.builder) (fs : node)
           (tmpDir manifestPath : list string) (manifest : Xml2js.value)
  : outcome (list (string * string)) :=
  repairedXml <- build ("manifest", manifest) ;;
  fs <- writeFileSync fs (manifestPath, false) repairedXml ;;
  entries <- readdirSync fs tmpDir ;;
  Ret (addDirToZip [] tmpDir tmpDir (Dir entries)).

(** [repairSCORM(zipPath, outputZipPath)].  [extract] is the file system once
    [zip.extractAllTo(tmpDir, true)] has returned, or what opening or
    extracting the archive threw.  The result pairs the value returned with
    the archive [writeZip] leaves at [outputZipPath]; the function has no
    [catch], so whatever is thrown leaves it, after the [finally] has
    removed [tmpDir]. *)
Definition repairSCORM (parse : Xml2js.parser) (build : Xml2js.builder)
           (tmpDir : list string) (extract : outcome node)
  : outcome (repairReport * list (string * string)) :=
  fs <- extract ;;
  '(fs, manifestPath, manifestXml, repairs) <- findOrCreateManifest fs tmpDir ;;
  '(manifestObj, repairs) <- parseOrRebuild parse fs tmpDir manifestXml repairs ;;
  manifest <- Js.root manifestObj "manifest" ;;
  '(manifest, repairs) <- ensureNamespace manifest repairs ;;
  let '(manifest, repairs) := ensureMetadata manifest repairs in
  '(manifest, repairs, launchFile) <-
    fixResources fs tmpDir manifestPath manifest repairs ;;
  '(fs, repairs) <- injectIntoLaunch fs manifestPath launchFile repairs ;;
  outZip <- serializeAndRepack build fs tmpDir manifestPath manifest ;;
  Ret ({| success := true; repairs := repairs; launchFile := launchFile |}, outZip).

(** ** createUpdatedZip

    [shimSrc] and [trackerSrc] are what reading the two files under
    [public/] gives; [extract] is the file system once the archive has been
    extracted to the fresh [tmpDir].  The result pairs the file name
    returned with the archive written under [updated/]. *)
Definition createUpdatedZip (shimSrc trackerSrc : outcome string)
           (tmpDir : list string) (extract : outcome node) (origName : string)
  : outcome (string * list (string * string)) :=
  fs <- extract ;;
  shim <- shimSrc ;;
  dir <- match lookup fs tmpDir with
         | Some dir => Ret dir
         | None => Throw "ENOENT: no such file or directory, scandir"
         end ;;
  dir <- injectShimIntoDir shim dir ;;
  tracker <- trackerSrc ;;
  dir <- injectTrackerIntoDir tracker dir ;;
  Ret (origName ++ "_updated.zip", addDirToZip [] tmpDir tmpDir dir).

(** ** The folder endpoints

    What the loops call outside the server's own analysis and repair is
    gathered in an environment: reading an archive, the size [statSync]
    reports, the temporary directory and the extraction a repair works on,
    the two sources under [public/], the [mkdirSync] of the output directory
    that opens an iteration of the repair loop, the session identifier drawn
    for an archive, and the materialization of a player session. *)
Module Batch.

Record environment : Type := mkEnvironment {
  openZip : string -> outcome (list AdmZip.entry);
  statSize : string -> outcome nat;
  publicShim : outcome string;
  publicTracker : outcome string;
  freshTmpDir : string -> list string;
  extractAllTo : string -> outcome node;
  ensureRepairedDir : string -> outcome unit;
  randomSessionId : string -> string;
  materializeSession : string -> list (string * string) -> outcome unit
}.

(** The folder named in the request, as [existsSync], [statSync] and
    [readdirSync] see it. *)
Inductive folder : Type :=
| Missing
| NotDirectory
| Listing (files : list string).

(** [path.basename(name, ext)] for a bare file name. *)
Definition basename (name ext : string) : string :=
  if String.eqb name ext then ""
  else if JsString.endsWith name ext
       then String.substring 0 (String.length name - String.length ext) name
       else name.

Definition isZipToProcess (f : string) : bool :=
  JsString.endsWith (JsString.toLowerCase f) ".zip"
  && negb (JsString.endsWith (JsString.toLowerCase f) "_repaired.zip").

(** [path.join(folderPath, zipFile)] for a folder path in normal form and a
    bare file name. *)
Definition joinPath (folderPath file : string) : string := folderPath ++ "/" ++ file.

(** *** /analyze-folder *)

(** An element of [results]: the tagged analysis, or the entry the [catch]
    pushes. *)
Inductive analyzeEntry : Type :=
| AnalyzeEntry (filename path : string) (size : nat) (analysis : analysisResult)
               (updatedFile : option string)
| AnalyzeError (filename path error : string).

Definition analyzeEntrySuccess (e : analyzeEntry) : bool :=
  match e with
  | AnalyzeEntry _ _ _ analysis _ => analysisSuccess analysis
  | AnalyzeError _ _ _ => false
  end.

Definition analyzeEntryFilename (e : analyzeEntry) : string :=
  match e with
  | AnalyzeEntry filename _ _ _ _ => filename
  | AnalyzeError filename _ _ => filename
  end.

Definition analyzeEntryResumeCapable (e : analyzeEntry) : bool :=
  match e with
  | AnalyzeEntry _ _ _ (Analyzed a) _ => resumeCapable a
  | _ => false
  end.

Record summary : Type := mkSummary {
  totalFiles : nat;
  successfullyAnalyzed : nat;
  resumeCapableCount : nat;
  failed : nat;
  summaryFolderPath : string
}.

(** The loop state: [results] and the three counters. *)
Record analyzeState : Type := mkAnalyzeState {
  analyzeResults : list analyzeEntry;
  successCount : nat;
  resumeCount : nat;
  failedCount : nat
}.

(** The [try] block up to the entry it is about to push.  Nothing in it
    touches the loop state before the last point that can throw. *)
Definition analyzeAttempt (parse : Xml2js.parser) (env : environment)
           (folderPath zipFile : string) : outcome analyzeEntry :=
  let zipPath := joinPath folderPath zipFile in
  analysis <- analyzeSCORM parse (openZip env zipPath) ;;
  let updatedFile :=
    match createUpdatedZip (publicShim env) (publicTracker env)
            (freshTmpDir env zipPath) (extractAllTo env zipPath)
            (basename zipFile ".zip") with
    | Ret (name, _) => Some name
    | Throw _ => None
    end in
  size <- statSize env zipPath ;;
  Ret (AnalyzeEntry zipFile zipPath size analysis updatedFile).

(** One iteration of the loop. *)
Definition analyzeStep (parse : Xml2js.parser) (env : environment)
           (folderPath : string) (st : analyzeState) (zipFile : string)
  : analyzeState :=
  match analyzeAttempt parse env folderPath zipFile with
  | Ret e =>
      let ok := analyzeEntrySuccess e in
      {| analyzeResults := (analyzeResults st ++ [e])%list;
         successCount := if ok then S (successCount st) else successCount st;
         resumeCount :=
           if ok && analyzeEntryResumeCapable e
           then S (resumeCount st) else resumeCount st;
         failedCount := if ok then failedCount st else S (failedCount st) |}
  | Throw message =>
      {| analyzeResults :=
           (analyzeResults st
            ++ [AnalyzeError zipFile (joinPath folderPath zipFile) message])%list;
         successCount := successCount st;
         resumeCount := resumeCount st;
         failedCount := S (failedCount st) |}
  end.

Definition analyzeLoop (parse : Xml2js.parser) (env : environment)
           (folderPath : string) (zipFiles : list string) : analyzeState :=
  fold_left (analyzeStep parse env folderPath) zipFiles
            {| analyzeResults := []; successCount := 0; resumeCount := 0;
               failedCount := 0 |}.

(** What a folder endpoint answers: a 400 with its message, or the batch
    result, which carries a summary only where the handler builds one. *)
Inductive response (E : Type) : Type :=
| BadRequest (error : string)
| BatchResult (folderPath : string) (batchSummary : option summary) (results : list E).
Arguments BadRequest {E} error.
Arguments BatchResult {E} folderPath batchSummary results.

Definition analyzeFolder (parse : Xml2js.parser) (env : environment)
           (folderPath : string) (dir : folder) : response analyzeEntry :=
  if negb (JsString.truthy folderPath) then BadRequest "No folder path provided"
  else
    match dir with
    | Missing => BadRequest "Folder path does not exist"
    | NotDirectory => BadRequest "Path is not a directory"
    | Listing files =>
        let zipFiles := filter isZipToProcess files in
        match zipFiles with
        | [] => BadRequest "No ZIP files found in the folder"
        | _ =>
            let st := analyzeLoop parse env folderPath zipFiles in
            BatchResult folderPath
              (Some {| totalFiles := length zipFiles;
                       successfullyAnalyzed := successCount st;
                       resumeCapableCount := resumeCount st;
                       failed := failedCount st;
                       summaryFolderPath := folderPath |})
              (analyzeResults st)
        end
    end.

(** *** /repair-folder *)

Inductive repairEntry : Type :=
| RepairEntry (filename : string) (result : repairReport)
              (sessionId playerUrl repairedFile : option string)
| RepairError (filename error : string).

Definition repairEntrySuccess (e : repairEntry) : bool :=
  match e with
  | RepairEntry _ result _ _ _ => success result
  | RepairError _ _ => false
  end.

Definition repairEntryFilename (e : repairEntry) : string :=
  match e with
  | RepairEntry filename _ _ _ _ => filename
  | RepairError filename _ => filename
  end.

Definition repairEntrySessionId (e : repairEntry) : option string :=
  match e with
  | RepairEntry _ _ sessionId _ _ => sessionId
  | RepairError _ _ => None
  end.

(** [result.launchFile || 'index.html'] *)
Definition launchOrIndex (l : option string) : string :=
  match l with
  | Some f => if JsString.truthy f then f else "index.html"
  | None => "index.html"
  end.

(** The [try] block of the repair loop. *)
Definition repairAttempt (parse : Xml2js.parser) (build : Xml2js.builder)
           (env : environment) (folderPath zipFile : string) : outcome repairEntry :=
  let zipPath := joinPath folderPath zipFile in
  let sessionId := randomSessionId env zipFile in
  let origName := basename zipFile ".zip" in
  let repairedFile := origName ++ "_repaired.zip" in
  '(result, repairedZip) <-
    repairSCORM parse build (freshTmpDir env zipPath) (extractAllTo env zipPath) ;;
  _ <- (if success result then materializeSession env sessionId repairedZip
        else Ret tt) ;;
  Ret (RepairEntry zipFile result
         (if success result then Some sessionId else None)
         (if success result
          then Some ("/play/" ++ sessionId ++ "/" ++ launchOrIndex (launchFile result))
          else None)
         (if success result then Some repairedFile else None)).

(** One iteration of the loop.  [mkdirSync(repairedDir, { recursive: true })]
    stands before the [try] block: what it throws leaves the loop. *)
Definition repairStep (parse : Xml2js.parser) (build : Xml2js.builder)
           (env : environment) (folderPath : string) (results : list repairEntry)
           (zipFile : string) : outcome (list repairEntry) :=
  _ <- ensureRepairedDir env zipFile ;;
  Ret (match repairAttempt parse build env folderPath zipFile with
       | Ret e => results ++ [e]
       | Throw message => results ++ [RepairError zipFile message]
       end)%list.

Fixpoint repairFrom (parse : Xml2js.parser) (build : Xml2js.builder)
         (env : environment) (folderPath : string) (zipFiles : list string)
         (results : list repairEntry) : outcome (list repairEntry) :=
  match zipFiles with
  | [] => Ret results
  | zipFile :: rest =>
      results' <- repairStep parse build env folderPath results zipFile ;;
      repairFrom parse build env folderPath rest results'
  end.

Definition repairLoop (parse : Xml2js.parser) (build : Xml2js.builder)
           (env : environment) (folderPath : string) (zipFiles : list string)
  : outcome (list repairEntry) :=
  repairFrom parse build env folderPath zipFiles [].

Definition repairFolder (parse : Xml2js.parser) (build : Xml2js.builder)
           (env : environment) (folderPath : string) (dir : folder)
  : outcome (response repairEntry) :=
  if negb (JsString.truthy folderPath) then Ret (BadRequest "No folder path provided")
  else
    match dir with
    | Missing => Ret (BadRequest "Folder does not exist")
    | NotDirectory => Ret (BadRequest "Path is not a directory")
    | Listing files =>
        let zipFiles := filter isZipToProcess files in
        match zipFiles with
        | [] => Ret (BadRequest "No ZIP files found")
        | _ =>
            results <- repairLoop parse build env folderPath zipFiles ;;
            Ret (BatchResult folderPath None results)
        end
    end.

(** [displayBatchRepairResults] of the page script: the summary of a repair
    batch is derived there, from [results]. *)
Definition displayBatchRepairResults (folderPath : string) (results : list repairEntry)
  : summary :=
  let repaired := length (filter repairEntrySuccess results) in
  let failed := length (filter (fun r => negb (repairEntrySuccess r)) results) in
  let playable :=
    length (filter (fun r => match repairEntrySessionId r with
                             | Some s => JsString.truthy s
                             | None => false
                             end) results) in
  {| totalFiles := length results;
     successfullyAnalyzed := repaired;
     resumeCapableCount := playable;
     failed := failed;
     summaryFolderPath := folderPath |}.

(** What each loop makes of one archive, on its own. *)
Definition analyzeOutcome (parse : Xml2js.parser) (env : environment)
           (folderPath zipFile : string) : analyzeEntry :=
  match analyzeAttempt parse env folderPath zipFile with
  | Ret e => e
  | Throw message => AnalyzeError zipFile (joinPath folderPath zipFile) message
  end.

Definition repairOutcome (parse : Xml2js.parser) (build : Xml2js.builder)
           (env : environment) (folderPath zipFile : string) : repairEntry :=
  match repairAttempt parse build env folderPath zipFile with
  | Ret e => e
  | Throw message => RepairError zipFile message
  end.

(** The counters of the analyze loop are counts over [results]. *)
Definition counted (st : analyzeState) : Prop :=
  successCount st = length (filter analyzeEntrySuccess (analyzeResults st))
  /\ failedCount st
     = length (filter (fun e => negb (analyzeEntrySuccess e)) (analyzeResults st))
  /\ resumeCount st
     = length (filter (fun e => analyzeEntrySuccess e && analyzeEntryResumeCapable e)
                      (analyzeResults st)).

End Batch.

(** ** Reading a tree as a set of files

    These are the notions the repacking theorem is stated with; they are not
    server code. *)

(** The files below a directory in listing order, each with its path. *)
Fixpoint listing (full : list string) (n : node) {struct n}
  : list (list string * string) :=
  match n with
  | File _ => []
  | Dir entries =>
      flat_map (fun e =>
                  match snd e with
                  | Dir _ => listing (full ++ [fst e])%list (snd e)
                  | File data => [((full ++ [fst e])%list, data)]
                  end) entries
  end.

(** A name a directory entry can have after extraction: not empty, not [.]
    or [..], and without a slash or a backslash. *)
Definition goodName (name : string) : bool :=
  JsString.truthy name
  && negb (String.eqb name ".") && negb (String.eqb name "..")
  && negb (JsString.hasChar "/" name)
  && negb (JsString.hasChar "\" name).

Fixpoint uniqueNames (names : list string) : bool :=
  match names with
  | [] => true
  | n :: tl => negb (existsb (String.eqb n) tl) && uniqueNames tl
  end.

(** A tree as a file system holds it: good names, no two entries of a
    directory under the same name. *)
Fixpoint wellFormed (n : node) {struct n} : bool :=
  match n with
  | File _ => true
  | Dir entries =>
      uniqueNames (map fst entries)
      && forallb (fun e => goodName (fst e) && wellFormed (snd e)) entries
  end.

(** Adding a sequence of files to an archive, one [addFile] each. *)
Definition addAll (zip files : list (string * string)) : list (string * string) :=
  fold_left (fun z f => AdmZip.addFile z (fst f) (snd f)) files zip.

(** The archive entry [addDirToZip] makes of a listed file. *)
Definition zipped (base : list string) (f : list string * string) : string * string :=
  (Path.relativeSlashed base (fst f), snd f).

Definition goodPath (p : list string) : Prop :=
  Forall (fun seg => goodName seg = true) p.

(** What one directory entry contributes to the listing. *)
Definition listed (cur : list string) (e : string * node) : list (list string * string) :=
  match snd e with
  | Dir _ => listing (cur ++ [fst e])%list (snd e)
  | File data => [((cur ++ [fst e])%list, data)]
  end.

(** ** Reading a manifest

    The notions the classification theorem is stated with. *)

(** The resources of the first [resources] block. *)
Definition manifestResources (manifest : Xml2js.value) : list Xml2js.value :=
  match Xml2js.children manifest "resources" with
  | Some (block :: _) =>
      match Xml2js.children block "resource" with
      | Some resources => resources
      | None => []
      end
  | _ => []
  end.

(** [manifest.resources[0].resource[0]] *)
Definition primaryResource (manifest : Xml2js.value) : option Xml2js.value :=
  match manifestResources manifest with
  | primary :: _ => Some primary
  | [] => None
  end.

(** The [href] the primary resource declares. *)
Definition primaryHref (manifest : Xml2js.value) : option string :=
  match primaryResource manifest with
  | Some primary =>
      match Xml2js.attributes primary with
      | Some a => Xml2js.lookupKey "href" a
      | None => None
      end
  | None => None
  end.


(** Some file of the package is called [name], up to the case of ASCII
    letters. *)
Definition hasFileNamed (package : list (string * node)) (name : string) : Prop :=
  exists q data,
    fileAt (Dir package) q = Some data /\ JsString.toLowerCase (last q "") = name.

(** A segment a rendered relative path is made of. *)
Definition plainSegment (s : string) : Prop :=
  s <> "" /\ JsString.hasChar "/" s = false /\ JsString.hasChar "\" s = false.

(** A readable script holding one of the two persistence substrings. *)
Definition persists (e : AdmZip.entry) : bool :=
  match AdmZip.getData e with
  | Ret content =>
      JsString.includes content "cmi.suspend_data"
      || JsString.includes content "cmi.location"
  | Throw _ => false
  end.

(** A readable script holding a pattern the scan reports under the name
    [call]. *)
Definition mentions (call : string) (e : AdmZip.entry) : bool :=
  match AdmZip.getData e with
  | Ret content =>
      (String.eqb call "lesson_status"
       && (JsString.includes content "cmi.core.lesson_status"
           || JsString.includes content "cmi.completion_status"))
      || (String.eqb call "suspend_data"
          && JsString.includes content "cmi.suspend_data")
      || (String.eqb call "location" && JsString.includes content "cmi.location")
      || (String.eqb call "LMS_Initialize"
          && (JsString.includes content "API.LMSInitialize"
              || JsString.includes content "API_1484_11.Initialize"))
  | Throw _ => false
  end.

(** A line of [details] that reports API calls found in the scripts. *)
Definition apiLine (l : string) : bool :=
  JsString.startsWith l "✅ Found SCORM API calls: ".

(** ** Worked inputs

    A temporary directory as [repairSCORM] names one, and the host file
    system holding an extracted package there. *)
Module Sample.

Definition tmpDir : list string := ["tmp"; "scorm_repair_0a1b2c3d4e5f"].

Definition host (package : list (string * node)) : node :=
  Dir [("tmp", Dir [("scorm_repair_0a1b2c3d4e5f", Dir package)])].

(** The repair run with the reference parser and builder. *)
Definition repair (package : list (string * node))
  : outcome (repairReport * list (string * string)) :=
  repairSCORM Sax.parseStringPromise Builder.buildObject tmpDir (Ret (host package)).

Definition file (name content : string) : AdmZip.entry :=
  AdmZip.mkEntry name (Ret content).

(** The primary href a reader of the archive finds in its manifest. *)
Definition manifestHref (zip : list (string * string)) : option string :=
  match Xml2js.lookupKey "imsmanifest.xml" zip with
  | Some xml =>
      match Sax.parseStringPromise xml with
      | Ret (Some (_, manifest)) => primaryHref manifest
      | _ => None
      end
  | None => None
  end.

(** A folder of two archives: [good.zip] holds a package, [broken.zip] is
    not a zip file. *)
Definition goodPackage : list (string * node) :=
  [("imsmanifest.xml",
    File "<manifest><resources><resource adlcp:scormtype='sco' href='index.html'/></resources></manifest>");
   ("index.html", File "<html><head></head></html>")].

Definition environment : Batch.environment :=
  {| Batch.openZip :=
       fun zipPath =>
         if String.eqb zipPath "/courses/good.zip"
         then Ret [AdmZip.mkEntry "imsmanifest.xml"
                     (Ret "<manifest><resources><resource adlcp:scormtype='sco' href='index.html'/></resources></manifest>");
                   AdmZip.mkEntry "index.html" (Ret "<html><head></head></html>")]
         else Throw "Invalid or unsupported zip format. No END header found";
     Batch.statSize := fun _ => Ret 512;
     Batch.publicShim := Ret "window.API = window.API || {};";
     Batch.publicTracker := Ret "window.addEventListener('load', report);";
     Batch.freshTmpDir := fun _ => tmpDir;
     Batch.extractAllTo :=
       fun zipPath =>
         if String.eqb zipPath "/courses/good.zip"
         then Ret (host goodPackage)
         else Throw "Invalid or unsupported zip format. No END header found";
     Batch.ensureRepairedDir := fun _ => Ret tt;
     Batch.randomSessionId := fun zipFile => "5e55" ++ zipFile;
     Batch.materializeSession := fun _ _ => Ret tt |}.

(** The same folder on a host where [repaired] cannot be made: a regular
    file of that name is in the way of [mkdirSync]. *)
Definition blockedEnvironment : Batch.environment :=
  {| Batch.openZip := Batch.openZip environment;
     Batch.statSize := Batch.statSize environment;
     Batch.publicShim := Batch.publicShim environment;
     Batch.publicTracker := Batch.publicTracker environment;
     Batch.freshTmpDir := Batch.freshTmpDir environment;
     Batch.extractAllTo := Batch.extractAllTo environment;
     Batch.ensureRepairedDir :=
       fun _ => Throw "EEXIST: file already exists, mkdir '/srv/scorm/repaired'";
     Batch.randomSessionId := Batch.randomSessionId environment;
     Batch.materializeSession := Batch.materializeSession environment |}.

(** The analysis run with the reference parser. *)
Definition analyze (entries : list AdmZip.entry) : outcome analysisResult :=
  analyzeSCORM Sax.parseStringPromise (Ret entries).

End Sample.

(** ** Report lines

    A line that is neither of the two lines the analyzer pushes when it
    found no resume indicator. *)
Definition ordinaryLine (l : string) : Prop :=
  JsString.startsWith l "⚠" = false /\ JsString.startsWith l "ℹ" = false.

(** ** Text files

    A file holds bytes; a JavaScript string is written here as the bytes of
    its UTF-8 encoding.  Reading a file with ['utf8'] and writing the text
    back leaves the bytes of a well-formed file as they are; in a file that
    is not well-formed UTF-8 the decoder replaces the offending bytes, so
    what is said about the content of a rewritten document is said for
    well-formed ones. *)
Module Utf8.

Definition between (lo hi : nat) (c : ascii) : bool :=
  ((lo <=? nat_of_ascii c) && (nat_of_ascii c <=? hi))%nat.

Definition continuation (c : ascii) : bool := between 128 191 c.

(** The first two bytes of a three-byte sequence: no overlong form, no
    surrogate. *)
Definition leadsThree (a b : ascii) : bool :=
  (between 224 224 a && between 160 191 b)
  || (between 225 236 a && continuation b)
  || (between 237 237 a && between 128 159 b)
  || (between 238 239 a && continuation b).

(** The first two bytes of a four-byte sequence: no overlong form, nothing
    above U+10FFFF. *)
Definition leadsFour (a b : ascii) : bool :=
  (between 240 240 a && between 144 191 b)
  || (between 241 243 a && continuation b)
  || (between 244 244 a && between 128 143 b).

(** Well-formed UTF-8. *)
Fixpoint valid (s : string) : bool :=
  match s with
  | "" => true
  | String a rest =>
      if between 0 127 a then valid rest
      else
        match rest with
        | "" => false
        | String b rest2 =>
            if between 194 223 a then continuation b && valid rest2
            else
              match rest2 with
              | "" => false
              | String c rest3 =>
                  if leadsThree a b then continuation c && valid rest3
                  else
                    match rest3 with
                    | "" => false
                    | String d rest4 =>
                        leadsFour a b && continuation c && continuation d
                        && valid rest4
                    end
              end
        end
  end.

End Utf8.

(** ** More of [path]

    [basename] on a path given as a string. *)
Module Posix.

(** [path.basename(p)]: trailing slashes are dropped, what follows the last
    remaining slash is returned. *)
Definition basename (p : string) : string :=
  last (filter JsString.truthy (JsString.splitOn "/" p)) "".

(** [path.basename(p, ext)]: the base name without [ext] when it ends in
    [ext] and is more than [ext]; [''] when [p] is [ext] itself. *)
Definition basenameExt (p ext : string) : string :=
  if JsString.truthy ext && (String.length ext <=? String.length p)%nat then
    if String.eqb ext p then ""
    else
      let base := basename p in
      if JsString.endsWith base ext && negb (String.eqb base ext)
      then String.substring 0 (String.length base - String.length ext) base
      else base
  else basename p.

End Posix.

(** ** The single-file endpoints

    The handlers of [/upload], [/repair] and [/repair-download] work on the
    file multer left under [uploads/].  What a handler threads through its
    steps is whether that file is still there. *)
Module Endpoint.

(** A step of a handler: started with the upload present or not, it
    completes or throws, and leaves the upload present or not. *)
Definition action (A : Type) : Type := bool -> outcome A * bool.

Definition pure {A : Type} (a : A) : action A := fun present => (Ret a, present).

Definition lift {A : Type} (m : outcome A) : action A := fun present => (m, present).

Definition andThen {A B : Type} (m : action A) (k : A -> action B) : action B :=
  fun present =>
    match m present with
    | (Ret a, present') => k a present'
    | (Throw e, present') => (Throw e, present')
    end.

(** [try { m } catch (error) { h error.message }] *)
Definition catch {A : Type} (m : action A) (h : string -> action A) : action A :=
  fun present =>
    match m present with
    | (Ret a, present') => (Ret a, present')
    | (Throw e, present') => h e present'
    end.

Notation "x <~ m ;; k" := (andThen m (fun x => k))
  (at level 61, m at next level, right associativity).

(** [fs.unlinkSync(req.file.path)] *)
Definition unlinkSync : action unit :=
  fun present =>
    if present then (Ret tt, false)
    else (Throw "ENOENT: no such file or directory, unlink", false).

(** [fs.existsSync(req.file.path)] *)
Definition existsSync : action bool := fun present => (Ret present, present).

(** What a handler sends: [res.status(code).json({ error })] ([error] may be
    [undefined]), [res.json(body)], or [res.download(path, name)]. *)
Inductive reply (A : Type) : Type :=
| Status (code : nat) (error : option string)
| Json (body : A)
| Download (path name : string).
Arguments Status {A} code error.
Arguments Json {A} body.
Arguments Download {A} path name.

(** The [catch] block the three upload handlers share. *)
Definition failWith {A : Type} (message : string) : action (reply A) :=
  present <~ existsSync ;;
  _ <~ (if present then unlinkSync else pure tt) ;;
  pure (Status 500 (Some message)).

(** [path.basename(req.file.originalname, '.zip') || 'scorm'] *)
Definition origNameOf (originalname : string) : string :=
  let base := Posix.basenameExt originalname ".zip" in
  if JsString.truthy base then base else "scorm".

(** [/upload].  [originalname] is [None] when the request carries no file;
    the other arguments are those of [analyzeSCORM] and [createUpdatedZip]
    for the uploaded archive. *)
Definition upload (parse : Xml2js.parser) (originalname : option string)
           (zipOpen : outcome (list AdmZip.entry))
           (shimSrc trackerSrc : outcome string) (tmpDir : list string)
           (extract : outcome node)
  : action (reply (analysisResult * option string)) :=
  match originalname with
  | None => pure (Status 400 (Some "No file uploaded"))
  | Some originalname =>
      catch
        (analysis <~ lift (analyzeSCORM parse zipOpen) ;;
         let updatedFile :=
           match createUpdatedZip shimSrc trackerSrc tmpDir extract
                   (origNameOf originalname) with
           | Ret (name, _) => Some name
           | Throw _ => None
           end in
         _ <~ unlinkSync ;;
         pure (Json (analysis, updatedFile)))
        failWith
  end.

(** The body of a successful [/repair] or [/repair-batch-file] answer. *)
Record played : Type := mkPlayed {
  sessionId : string;
  playedLaunchFile : string;
  playedRepairs : list string;
  repairedFile : string;
  playerUrl : string
}.

Definition playedOf (sessionId origName : string) (result : repairReport) : played :=
  {| sessionId := sessionId;
     playedLaunchFile := Batch.launchOrIndex (launchFile result);
     playedRepairs := repairs result;
     repairedFile := origName ++ "_repaired.zip";
     playerUrl := "/play/" ++ sessionId ++ "/" ++ Batch.launchOrIndex (launchFile result) |}.

(** [/repair].  [mkdirRepaired] is the [mkdirSync] before the [try];
    [materialize] makes the player session from the repaired archive:
    [mkdirSync], [extractAllTo] and [injectShimIntoSession]. *)
Definition repair (parse : Xml2js.parser) (build : Xml2js.builder)
           (originalname : option string) (sessionId : string)
           (mkdirRepaired : outcome unit) (tmpDir : list string)
           (extract : outcome node)
           (materialize : list (string * string) -> outcome unit)
  : action (reply played) :=
  match originalname with
  | None => pure (Status 400 (Some "No file uploaded"))
  | Some originalname =>
      _ <~ lift mkdirRepaired ;;
      let origName := origNameOf originalname in
      catch
        (repaired <~ lift (repairSCORM parse build tmpDir extract) ;;
         let '(result, repairedZip) := repaired in
         _ <~ unlinkSync ;;
         if negb (success result) then pure (Status 500 None)
         else
           _ <~ lift (materialize repairedZip) ;;
           pure (Json (playedOf sessionId origName result)))
        failWith
  end.

(** [/repair-download]; [repairedDir] is the string [path.join(__dirname,
    'repaired')]. *)
Definition repairDownload (parse : Xml2js.parser) (build : Xml2js.builder)
           (originalname : option string) (repairedDir : string)
           (mkdirRepaired : outcome unit) (tmpDir : list string)
           (extract : outcome node)
  : action (reply unit) :=
  match originalname with
  | None => pure (Status 400 (Some "No file uploaded"))
  | Some originalname =>
      _ <~ lift mkdirRepaired ;;
      let origName := origNameOf originalname in
      catch
        (repaired <~ lift (repairSCORM parse build tmpDir extract) ;;
         let '(result, _) := repaired in
         _ <~ unlinkSync ;;
         if negb (success result) then pure (Status 500 None)
         else pure (Download (repairedDir ++ "/" ++ origName ++ "_repaired.zip")
                             (origName ++ "_repaired.zip")))
        failWith
  end.


(** [/download-updated/:filename].  [root] is [__dirname], [fs] the host
    file system. *)
Definition downloadUpdated (root : list string) (fs : node) (param : string)
  : reply unit :=
  let filename := Posix.basename param in
  let filePath := Path.join (root ++ ["updated"])%list filename in
  if Fs.existsSync fs filePath
  then Download (Path.render (fst filePath)) filename
  else Status 404 (Some "File not found").

End Endpoint.

(** ** Reading the synthesized manifest

    Notions the theorems about [buildMinimalManifest] are stated with. *)

(** The state the reference parser is in after a piece of input. *)
Fixpoint feed (m : Sax.mode) (stack : list Sax.frame) (input : string)
  : Sax.progress :=
  match input with
  | "" => Sax.Go m stack
  | String c rest =>
      match Sax.step m stack c with
      | Sax.Go m' stack' => feed m' stack' rest
      | other => other
      end
  end.

(** A text that can stand between double quotes as an attribute value as it
    is: no double quote and no ampersand. *)
Definition attributeSafe (s : string) : bool :=
  negb (JsString.hasChar "034" s) && negb (JsString.hasChar "&" s).

(** The document [buildMinimalManifest] describes. *)
Definition minimalManifest (launchFile : string) : Xml2js.value :=
  Xml2js.Element
    (Some [("identifier", "course_manifest"); ("version", "1");
           ("xmlns", "http://www.imsproject.org/xsd/imscp_rootv1p1p2");
           ("xmlns:adlcp", "http://www.adlnet.org/xsd/adlcp_rootv1p2");
           ("xmlns:xsi", "http://www.w3.org/2001/XMLSchema-instance")])
    None
    [("metadata",
      [Xml2js.Element None None
         [("schema", [Xml2js.Text "ADL SCORM"]);
          ("schemaversion", [Xml2js.Text "1.2"])]]);
     ("organizations",
      [Xml2js.Element (Some [("default", "org_1")]) None
         [("organization",
           [Xml2js.Element (Some [("identifier", "org_1")]) None
              [("title", [Xml2js.Text "Course"]);
               ("item",
                [Xml2js.Element
                   (Some [("identifier", "item_1"); ("identifierref", "resource_1")])
                   None
                   [("title", [Xml2js.Text "Course"])]])]])]]);
     ("resources",
      [Xml2js.Element None None
         [("resource",
           [Xml2js.Element
              (Some [("identifier", "resource_1"); ("type", "webcontent");
                     ("adlcp:scormtype", "sco"); ("href", launchFile)])
              None
              [("file",
                [Xml2js.Element (Some [("href", launchFile)]) None []])]])]])].

(** The three pieces of the template of [buildMinimalManifest], around the
    two places where the launch file goes. *)
Definition templateHead : string :=
  "<?xml version=" ++ quoted "1.0" ++ " encoding=" ++ quoted "UTF-8" ++ "?>"
  ++ JsString.nl
  ++ "<manifest identifier=" ++ quoted "course_manifest" ++ " version=" ++ quoted "1"
  ++ JsString.nl
  ++ "  xmlns=" ++ quoted "http://www.imsproject.org/xsd/imscp_rootv1p1p2"
  ++ JsString.nl
  ++ "  xmlns:adlcp=" ++ quoted "http://www.adlnet.org/xsd/adlcp_rootv1p2"
  ++ JsString.nl
  ++ "  xmlns:xsi=" ++ quoted "http://www.w3.org/2001/XMLSchema-instance" ++ ">"
  ++ JsString.nl
  ++ "  <metadata>" ++ JsString.nl
  ++ "    <schema>ADL SCORM</schema>" ++ JsString.nl
  ++ "    <schemaversion>1.2</schemaversion>" ++ JsString.nl
  ++ "  </metadata>" ++ JsString.nl
  ++ "  <organizations default=" ++ quoted "org_1" ++ ">" ++ JsString.nl
  ++ "    <organization identifier=" ++ quoted "org_1" ++ ">" ++ JsString.nl
  ++ "      <title>Course</title>" ++ JsString.nl
  ++ "      <item identifier=" ++ quoted "item_1" ++ " identifierref="
  ++ quoted "resource_1" ++ ">" ++ JsString.nl
  ++ "        <title>Course</title>" ++ JsString.nl
  ++ "      </item>" ++ JsString.nl
  ++ "    </organization>" ++ JsString.nl
  ++ "  </organizations>" ++ JsString.nl
  ++ "  <resources>" ++ JsString.nl
  ++ "    <resource identifier=" ++ quoted "resource_1" ++ " type=" ++ quoted "webcontent"
  ++ " adlcp:scormtype=" ++ quoted "sco" ++ " href=" ++ JsString.dq.

Definition templateMiddle : string :=
  JsString.dq ++ ">" ++ JsString.nl ++ "      <file href=" ++ JsString.dq.

Definition templateTail : string :=
  JsString.dq ++ "/>" ++ JsString.nl
  ++ "    </resource>" ++ JsString.nl
  ++ "  </resources>" ++ JsString.nl
  ++ "</manifest>".

(** * Theorems *)

(** ** Strings *)

Lemma append_assoc (a b c : string) : (a ++ b) ++ c = a ++ b ++ c.
Proof. induction a as [|x a IH]; simpl; [reflexivity | now rewrite IH]. Qed.

Lemma append_empty_r (a : string) : a ++ "" = a.
Proof. induction a as [|x a IH]; simpl; [reflexivity | now rewrite IH]. Qed.

Lemma startsWith_empty (pat : string) :
  pat <> "" -> JsString.startsWith "" pat = false.
Proof. destruct pat; [congruence | reflexivity]. Qed.

(** A pattern free of [c] cannot match across an occurrence of [c]. *)
Lemma startsWith_sep (c : ascii) (pat : string) :
  JsString.hasChar c pat = false ->
  forall x y, JsString.startsWith (x ++ String c y) pat = JsString.startsWith x pat.
Proof.
  induction pat as [|m pat IH]; intros Hc x y.
  - now destruct x.
  - simpl in Hc. apply orb_false_elim in Hc as [Hm Hc].
    destruct x as [|d x]; simpl.
    + rewrite Ascii.eqb_sym, Hm. reflexivity.
    + now rewrite IH.
Qed.

Lemma occurrences_sep (c : ascii) (pat : string) :
  JsString.hasChar c pat = false -> pat <> "" ->
  forall x y,
    JsString.occurrences (x ++ String c y) pat
    = JsString.occurrences x pat + JsString.occurrences y pat.
Proof.
  intros Hc Hne x y.
  induction x as [|d x IH].
  - change ("" ++ String c y) with (String c y).
    cbn [JsString.occurrences].
    pose proof (startsWith_sep c pat Hc "" y) as E. simpl in E.
    rewrite E, (startsWith_empty pat Hne). reflexivity.
  - change (String d x ++ String c y) with (String d (x ++ String c y)).
    cbn [JsString.occurrences].
    rewrite IH.
    pose proof (startsWith_sep c pat Hc (String d x) y) as E. simpl in E.
    rewrite E. lia.
Qed.

Lemma startsWith_app (x y pat : string) :
  JsString.startsWith x pat = true -> JsString.startsWith (x ++ y) pat = true.
Proof.
  revert x; induction pat as [|m pat IH]; intros x H.
  - now destruct x.
  - destruct x as [|d x]; simpl in *; [discriminate|].
    apply andb_true_iff in H as [-> H]. simpl. now apply IH.
Qed.

Lemma includes_occurrences (s pat : string) :
  JsString.includes s pat = false <-> JsString.occurrences s pat = 0.
Proof.
  induction s as [|d s IH]; cbn [JsString.includes JsString.occurrences].
  - destruct (JsString.startsWith "" pat); simpl; split; (congruence || lia).
  - destruct (JsString.startsWith (String d s) pat); simpl.
    + split; (congruence || lia).
    + exact IH.
Qed.

Lemma includes_app_l (x y pat : string) :
  JsString.includes (x ++ y) pat = false -> JsString.includes x pat = false.
Proof.
  induction x as [|d x IH]; cbn [JsString.includes append].
  - intros H. destruct pat; [|reflexivity].
    destruct y; simpl in H; discriminate.
  - intros H. apply orb_false_elim in H as [H1 H2].
    rewrite (IH H2), orb_false_r.
    destruct (JsString.startsWith (String d x) pat) eqn:E; [|reflexivity].
    apply (startsWith_app _ y) in E. simpl in E. congruence.
Qed.

Lemma includes_app_r (x y pat : string) :
  JsString.includes (x ++ y) pat = false -> JsString.includes y pat = false.
Proof.
  induction x as [|d x IH]; cbn [JsString.includes append].
  - trivial.
  - intros H. apply orb_false_elim in H as [_ H2]. auto.
Qed.

Lemma dropPrefix_spec (pat s post : string) :
  JsString.dropPrefix s pat = Some post -> s = pat ++ post.
Proof.
  revert s; induction pat as [|m pat IH]; intros s H; simpl in H.
  - destruct s; inversion H; reflexivity.
  - destruct s as [|d s]; [discriminate|].
    destruct (Ascii.eqb m d) eqn:E; [|discriminate].
    apply Ascii.eqb_eq in E as ->. simpl. f_equal. auto.
Qed.

Lemma indexSplit_spec (pat s pre post : string) :
  JsString.indexSplit s pat = Some (pre, post) -> s = pre ++ pat ++ post.
Proof.
  revert pre; induction s as [|d s IH]; intros pre H; cbn [JsString.indexSplit] in H.
  - destruct (JsString.dropPrefix "" pat) eqn:E; [|discriminate].
    inversion H; subst. change ("" ++ pat ++ post) with (pat ++ post). now apply dropPrefix_spec.
  - destruct (JsString.dropPrefix (String d s) pat) eqn:E.
    + inversion H; subst. change ("" ++ pat ++ post) with (pat ++ post). now apply dropPrefix_spec.
    + destruct (JsString.indexSplit s pat) as [[pre' post']|] eqn:E'; [|discriminate].
      inversion H; subst. simpl. f_equal. auto.
Qed.

Lemma dropPrefix_startsWith (pat s : string) :
  JsString.startsWith s pat = true -> exists post, JsString.dropPrefix s pat = Some post.
Proof.
  revert s; induction pat as [|m pat IH]; intros s H.
  - exists s. now destruct s.
  - destruct s as [|d s]; simpl in *; [discriminate|].
    apply andb_true_iff in H as [-> H]. auto.
Qed.

Lemma indexSplit_includes (pat s : string) :
  JsString.includes s pat = true ->
  exists pre post, JsString.indexSplit s pat = Some (pre, post).
Proof.
  induction s as [|d s IH]; cbn [JsString.includes JsString.indexSplit]; intros H.
  - rewrite orb_false_r in H. apply dropPrefix_startsWith in H as [post ->]. eauto.
  - destruct (JsString.startsWith (String d s) pat) eqn:E.
    + apply dropPrefix_startsWith in E as [post ->]. eauto.
    + simpl in H. destruct (JsString.dropPrefix (String d s) pat); [eauto|].
      destruct (IH H) as (pre & post & ->). eauto.
Qed.

Lemma getSubstitution_free (m b a repl : string) :
  JsString.substFree repl = true -> JsString.getSubstitution m b a repl = repl.
Proof.
  induction repl as [|c rest IH]; [reflexivity|].
  cbn [JsString.substFree JsString.getSubstitution]. intros H.
  apply andb_true_iff in H as [H1 H2]. specialize (IH H2).
  destruct (Ascii.eqb c "$") eqn:Ec.
  - destruct rest as [|d rest']; [reflexivity|].
    unfold JsString.specialAfterDollar in H1.
    apply negb_true_iff in H1.
    apply orb_false_elim in H1 as [H1 Hq].
    apply orb_false_elim in H1 as [H1 Hb].
    apply orb_false_elim in H1 as [Hd Ha].
    rewrite Hd, Ha, Hb, Hq. now rewrite IH.
  - now rewrite IH.
Qed.

Lemma substFree_lit (x y : string) :
  JsString.hasChar "$" x = false -> JsString.substFree (x ++ y) = JsString.substFree y.
Proof.
  induction x as [|c x IH]; [reflexivity|].
  cbn [JsString.hasChar append JsString.substFree]. intros H.
  apply orb_false_elim in H as [H1 H2].
  rewrite Ascii.eqb_sym, H1. simpl. auto.
Qed.

Lemma substFree_sep (x : string) (c : ascii) (y : string) :
  JsString.specialAfterDollar c = false ->
  JsString.substFree (x ++ String c y)
  = JsString.substFree x && JsString.substFree (String c y).
Proof.
  intros Hc. induction x as [|a x IH]; [reflexivity|].
  change (String a x ++ String c y) with (String a (x ++ String c y)).
  cbn [JsString.substFree]. rewrite IH.
  destruct (Ascii.eqb a "$"); [|reflexivity].
  destruct x as [|d x]; simpl; [now rewrite Hc | now rewrite andb_assoc].
Qed.

(** ** One document, one snippet *)

Section Snippet.

Variable marker : string.
Hypothesis marker_ok : markerOk marker = true.
Variable src : string.
Hypothesis src_clean : cleanSource marker src = true.

Let block := inlineBlock marker src.

Lemma marker_facts :
  marker <> "" /\
  JsString.hasChar "010" marker = false /\
  JsString.hasChar "<" marker = false /\
  JsString.hasChar "$" marker = false /\
  JsString.occurrences ("/* === " ++ marker ++ " === */") marker = 1 /\
  JsString.includes "<script>" marker = false /\
  JsString.includes "</script>" marker = false.
Proof.
  unfold markerOk in marker_ok.
  repeat (apply andb_true_iff in marker_ok as [marker_ok ?]).
  repeat match goal with
         | H : negb _ = true |- _ => apply negb_true_iff in H
         end.
  repeat split; try assumption.
  - intros ->. discriminate.
  - now apply Nat.eqb_eq.
Qed.

Lemma src_facts :
  JsString.includes src marker = false /\ JsString.substFree src = true.
Proof.
  unfold cleanSource in src_clean.
  apply andb_true_iff in src_clean as [H1 H2].
  apply negb_true_iff in H1. now split.
Qed.

Lemma occurrences_lines (a b : string) :
  JsString.occurrences (a ++ JsString.nl ++ b) marker
  = JsString.occurrences a marker + JsString.occurrences b marker.
Proof.
  destruct marker_facts as (Hne & Hnl & _).
  exact (occurrences_sep "010" marker Hnl Hne a b).
Qed.

Lemma occurrences_none (s : string) :
  JsString.includes s marker = false -> JsString.occurrences s marker = 0.
Proof. apply includes_occurrences. Qed.

Lemma block_shape (y : string) :
  block ++ y
  = "<script>" ++ JsString.nl ++ ("/* === " ++ marker ++ " === */") ++ JsString.nl
    ++ src ++ JsString.nl ++ "</script>" ++ JsString.nl ++ y.
Proof.
  unfold block, inlineBlock.
  repeat rewrite append_assoc. reflexivity.
Qed.

Lemma occurrences_block (x y : string) :
  JsString.occurrences (x ++ block ++ y) marker
  = JsString.occurrences x marker + 1 + JsString.occurrences y marker.
Proof.
  destruct marker_facts as (Hne & Hnl & Hlt & _ & Honce & Hopen & Hclose).
  destruct src_facts as [Hsrc _].
  rewrite block_shape.
  rewrite <- (append_assoc x "<script>").
  rewrite !occurrences_lines.
  change (x ++ "<script>") with (x ++ String "<" "script>").
  rewrite (occurrences_sep "<" marker Hlt Hne).
  rewrite Honce, (occurrences_none src Hsrc).
  rewrite (occurrences_none "</script>" Hclose).
  rewrite (occurrences_none "script>" (includes_app_r "<" "script>" marker Hopen)).
  lia.
Qed.

Lemma block_substFree (pre post : string) :
  JsString.hasChar "$" pre = false ->
  JsString.substFree post = true ->
  JsString.substFree (pre ++ block ++ post) = true.
Proof.
  destruct marker_facts as (_ & _ & _ & Hd & _).
  destruct src_facts as [_ Hfree].
  intros Hpre Hpost.
  rewrite substFree_lit by assumption.
  rewrite block_shape.
  rewrite (substFree_lit "<script>") by reflexivity.
  rewrite (substFree_lit JsString.nl) by reflexivity.
  rewrite append_assoc, (append_assoc marker).
  rewrite (substFree_lit "/* === ") by reflexivity.
  rewrite (substFree_lit marker) by assumption.
  rewrite (substFree_lit " === */") by reflexivity.
  rewrite (substFree_lit JsString.nl) by reflexivity.
  change (src ++ JsString.nl ++ "</script>" ++ JsString.nl ++ post)
    with (src ++ String "010" ("</script>" ++ JsString.nl ++ post)).
  rewrite substFree_sep by reflexivity.
  rewrite Hfree. cbn [andb].
  change (String "010" ("</script>" ++ JsString.nl ++ post))
    with ((JsString.nl ++ "</script>" ++ JsString.nl) ++ post).
  now rewrite substFree_lit by reflexivity.
Qed.

(** A document without the marker gets exactly one. *)
Lemma injectDocument_fresh (html : string) :
  JsString.includes html marker = false ->
  JsString.occurrences (injectDocument marker block html) marker = 1.
Proof.
  intros Hno. unfold injectDocument. rewrite Hno.
  destruct (JsString.includes html "<head>") eqn:Hhead.
  - destruct (indexSplit_includes _ _ Hhead) as (pre & post & Hsplit).
    unfold JsString.replace. rewrite Hsplit.
    apply indexSplit_spec in Hsplit. subst html.
    rewrite getSubstitution_free.
    2:{ replace ("<head>" ++ JsString.nl ++ block)
          with (("<head>" ++ JsString.nl) ++ block ++ "")
          by now rewrite append_empty_r.
        apply block_substFree; reflexivity. }
    rewrite <- (append_assoc pre "<head>") in Hno.
    pose proof (includes_app_l _ _ _ Hno) as Hl.
    pose proof (includes_app_r _ _ _ Hno) as Hr.
    replace (pre ++ ("<head>" ++ JsString.nl ++ block) ++ post)
      with (((pre ++ "<head>") ++ JsString.nl ++ "") ++ block ++ post).
    2:{ rewrite !append_assoc. reflexivity. }
    rewrite occurrences_block, occurrences_lines.
    rewrite (occurrences_none _ Hl), (occurrences_none _ Hr).
    destruct marker_facts as (Hne & _).
    cbn [JsString.occurrences].
    now rewrite (startsWith_empty marker Hne).
  - destruct (JsString.includes html "</head>") eqn:Hend.
    + destruct (indexSplit_includes _ _ Hend) as (pre & post & Hsplit).
      unfold JsString.replace. rewrite Hsplit.
      apply indexSplit_spec in Hsplit. subst html.
      rewrite getSubstitution_free.
      2:{ change (block ++ "</head>") with ("" ++ block ++ "</head>").
          apply block_substFree; reflexivity. }
      pose proof (includes_app_l _ _ _ Hno) as Hl.
      pose proof (includes_app_r _ _ _ Hno) as Hr.
      rewrite (append_assoc block).
      rewrite occurrences_block.
      rewrite (occurrences_none _ Hl), (occurrences_none _ Hr).
      reflexivity.
    + change (block ++ html) with ("" ++ block ++ html).
      rewrite occurrences_block, (occurrences_none _ Hno).
      destruct marker_facts as (Hne & _).
      cbn [JsString.occurrences].
      now rewrite (startsWith_empty marker Hne).
Qed.

Lemma injectDocument_marked (html : string) :
  JsString.includes (injectDocument marker block html) marker = true.
Proof.
  destruct (JsString.includes html marker) eqn:Hin.
  - unfold injectDocument. now rewrite Hin.
  - pose proof (injectDocument_fresh html Hin) as H1.
    destruct (JsString.includes (injectDocument marker block html) marker) eqn:E;
      [reflexivity|].
    apply includes_occurrences in E. lia.
Qed.

(** A document that already holds the marker is skipped. *)
Lemma injectDocument_skip (html : string) :
  JsString.includes html marker = true -> injectDocument marker block html = html.
Proof. intros H. unfold injectDocument. now rewrite H. Qed.

Lemma injectDocument_idempotent (html : string) :
  injectDocument marker block (injectDocument marker block html)
  = injectDocument marker block html.
Proof. apply injectDocument_skip, injectDocument_marked. Qed.

End Snippet.

(** ** Directory trees *)

Section NodeInduction.

Variable P : node -> Prop.
Hypothesis P_File : forall content, P (File content).
Hypothesis P_Dir : forall entries, Forall (fun e => P (snd e)) entries -> P (Dir entries).

Lemma node_induction : forall n, P n.
Proof.
  fix IH 1. intros [content|entries].
  - apply P_File.
  - apply P_Dir. induction entries as [|e es IHes]; constructor.
    + apply IH.
    + exact IHes.
Qed.

End NodeInduction.

Lemma entry_map (f : string -> node -> node) (seg : string) (es : list (string * node)) :
  entry seg (map (fun e => (fst e, f (fst e) (snd e))) es)
  = option_map (f seg) (entry seg es).
Proof.
  induction es as [|[n child] es IH]; [reflexivity|].
  simpl. destruct (String.eqb n seg) eqn:E; [|exact IH].
  apply String.eqb_eq in E. now subst.
Qed.

Lemma last_default {A : Type} (l : list A) (x a b : A) :
  last (x :: l) a = last (x :: l) b.
Proof.
  revert x; induction l as [|y l IH]; intros x; [reflexivity|].
  change (last (y :: l) a = last (y :: l) b). apply IH.
Qed.

Lemma lookup_visit (marker block : string) (p : list string) :
  forall name n,
    lookup (visit marker block name n) p
    = option_map (visit marker block (last p name)) (lookup n p).
Proof.
  induction p as [|seg rest IH]; intros name n; [reflexivity|].
  destruct n as [c|es].
  - simpl. now destruct (JsString.matchesHtml name).
  - cbn [visit lookup]. rewrite entry_map.
    destruct (entry seg es) as [child|]; [|reflexivity].
    cbn [option_map]. rewrite IH.
    destruct rest as [|seg' rest]; [reflexivity|].
    change (last (seg :: seg' :: rest) name) with (last (seg' :: rest) name).
    now rewrite (last_default rest seg' seg name).
Qed.

Lemma fileAt_walk (marker block : string) (es : list (string * node))
      (p : list string) (html : string) :
  fileAt (Dir es) p = Some html ->
  fileAt (Dir (walk marker block es)) p
  = Some (if JsString.matchesHtml (last p "")
          then injectDocument marker block html else html).
Proof.
  unfold fileAt. intros H.
  change (Dir (walk marker block es)) with (visit marker block "" (Dir es)).
  rewrite lookup_visit.
  destruct (lookup (Dir es) p) as [[c|sub]|]; try discriminate.
  inversion H; subst. cbn [option_map visit].
  now destruct (JsString.matchesHtml (last p "")).
Qed.

Section TreePass.

Variable marker : string.
Hypothesis marker_ok : markerOk marker = true.
Variable src : string.
Hypothesis src_clean : cleanSource marker src = true.

Let block := inlineBlock marker src.

Let pass (dir : node) : outcome node :=
  match dir with
  | Dir entries => Ret (Dir (walk marker block entries))
  | File _ => Throw "ENOTDIR: not a directory, scandir"
  end.

Lemma visit_idempotent (n : node) :
  forall name,
    visit marker block name (visit marker block name n) = visit marker block name n.
Proof.
  induction n as [c|es IH] using node_induction; intros name.
  - cbn [visit]. destruct (JsString.matchesHtml name) eqn:E; cbn [visit]; rewrite E.
    + f_equal. now apply injectDocument_idempotent.
    + reflexivity.
  - cbn [visit]. f_equal. rewrite map_map.
    apply map_ext_Forall. revert IH. apply Forall_impl.
    intros [n child] H. simpl. now rewrite H.
Qed.

Lemma walk_idempotent (es : list (string * node)) :
  walk marker block (walk marker block es) = walk marker block es.
Proof.
  pose proof (visit_idempotent (Dir es) "") as H. cbn [visit] in H.
  now inversion H.
Qed.

Lemma runs_pass (n : nat) (es : list (string * node)) :
  1 <= n -> runs n pass (Dir es) = pass (Dir es).
Proof.
  intros Hn. destruct n as [|n]; [lia|]. clear Hn.
  revert es. induction n as [|n IH]; intros es.
  - reflexivity.
  - change (runs (S (S n)) pass (Dir es))
      with (runs (S n) pass (Dir (walk marker block es))).
    rewrite IH. unfold pass. now rewrite walk_idempotent.
Qed.

Lemma runs_document (n : nat) (es : list (string * node)) (p : list string)
      (html : string) :
  1 <= n ->
  fileAt (Dir es) p = Some html ->
  JsString.matchesHtml (last p "") = true ->
  exists out,
    documentAfter (runs n pass (Dir es)) p = Some out /\
    (JsString.includes html marker = false -> JsString.occurrences out marker = 1) /\
    (JsString.includes html marker = true -> out = html).
Proof.
  intros Hn Hfile Hhtml.
  rewrite runs_pass by assumption.
  exists (injectDocument marker block html). split; [|split].
  - cbn [pass documentAfter]. rewrite (fileAt_walk _ _ _ _ _ Hfile), Hhtml. reflexivity.
  - now apply injectDocument_fresh.
  - now apply injectDocument_skip.
Qed.

End TreePass.

(** ** C4: re-running the injectors *)

(** C4, as stated, fails: a document that already holds the shim marker
    twice is skipped by the guard on every run, so after two runs it still
    holds two occurrences, not one. *)
Lemma C4_marker_twice_counterexample :
  runs 2 (injectShimIntoDir "var API = {};")
       (Dir [("notes.html",
              File "<p>SCORM API Shim (inlined)</p><p>SCORM API Shim (inlined)</p>")])
  = Ret (Dir [("notes.html",
               File "<p>SCORM API Shim (inlined)</p><p>SCORM API Shim (inlined)</p>")])
  /\ JsString.occurrences
       "<p>SCORM API Shim (inlined)</p><p>SCORM API Shim (inlined)</p>" shimMarker
     = 2.
Proof. split; vm_compute; reflexivity. Qed.

(** C4 (amended): for either snippet, whose source neither contains the
    marker nor a [$]-pattern of [replace], running the injector [n >= 1]
    times over a directory gives the tree one run gives; every HTML document
    that did not hold the marker ends with exactly one occurrence of it, and
    a document that already held the marker is skipped, left as it was. *)
Theorem C4_injection_rerun :
  forall (shimSrc trackerSrc : string) (es : list (string * node)) (n : nat),
    cleanSource shimMarker shimSrc = true ->
    cleanSource trackerMarker trackerSrc = true ->
    1 <= n ->
    runs n (injectShimIntoDir shimSrc) (Dir es) = injectShimIntoDir shimSrc (Dir es)
    /\ runs n (injectTrackerIntoDir trackerSrc) (Dir es)
       = injectTrackerIntoDir trackerSrc (Dir es)
    /\ forall (p : list string) (html : string),
         fileAt (Dir es) p = Some html ->
         JsString.matchesHtml (last p "") = true ->
         (exists out,
            documentAfter (runs n (injectShimIntoDir shimSrc) (Dir es)) p = Some out
            /\ (JsString.includes html shimMarker = false ->
                JsString.occurrences out shimMarker = 1)
            /\ (JsString.includes html shimMarker = true -> out = html))
         /\ (exists out,
               documentAfter (runs n (injectTrackerIntoDir trackerSrc) (Dir es)) p
               = Some out
               /\ (JsString.includes html trackerMarker = false ->
                   JsString.occurrences out trackerMarker = 1)
               /\ (JsString.includes html trackerMarker = true -> out = html)).
Proof.
  intros shimSrc trackerSrc es n Hshim Htracker Hn.
  assert (Hm1 : markerOk shimMarker = true) by reflexivity.
  assert (Hm2 : markerOk trackerMarker = true) by reflexivity.
  split; [|split].
  - exact (runs_pass shimMarker Hm1 shimSrc Hshim n es Hn).
  - exact (runs_pass trackerMarker Hm2 trackerSrc Htracker n es Hn).
  - intros p html Hfile Hhtml. split.
    + exact (runs_document shimMarker Hm1 shimSrc Hshim n es p html Hn Hfile Hhtml).
    + exact (runs_document trackerMarker Hm2 trackerSrc Htracker n es p html
               Hn Hfile Hhtml).
Qed.

Lemma C4_injection_rerun_witness :
  cleanSource shimMarker "var API = { store: `${k}` };" = true
  /\ cleanSource trackerMarker "track('load');" = true
  /\ 1 <= 3
  /\ runs 3 (injectShimIntoDir "var API = { store: `${k}` };")
          (Dir [("index.html", File "<html><head><title>t</title></head></html>");
                ("lib", Dir [("page.HTM", File "<p>plain</p>");
                             ("app.js", File "var x;")])])
     = injectShimIntoDir "var API = { store: `${k}` };"
          (Dir [("index.html", File "<html><head><title>t</title></head></html>");
                ("lib", Dir [("page.HTM", File "<p>plain</p>");
                             ("app.js", File "var x;")])]).
Proof.
  split; [reflexivity|]. split; [reflexivity|]. split; [lia|].
  apply (C4_injection_rerun "var API = { store: `${k}` };" "track('load');"
           [("index.html", File "<html><head><title>t</title></head></html>");
            ("lib", Dir [("page.HTM", File "<p>plain</p>");
                         ("app.js", File "var x;")])] 3);
    [reflexivity | reflexivity | lia].
Defined.

(** ** Repacking a tree (addDirToZip) *)

Lemma addDirToZip_cons (zip : list (string * string)) (base cur : list string)
      (name : string) (child : node) (tl : list (string * node)) :
  addDirToZip zip base cur (Dir ((name, child) :: tl))
  = addDirToZip
      (match child with
       | Dir _ => addDirToZip zip base (cur ++ [name])%list child
       | File data =>
           AdmZip.addFile zip (Path.relativeSlashed base (cur ++ [name])%list) data
       end) base cur (Dir tl).
Proof. destruct child; reflexivity. Qed.

Lemma addAll_app (zip a b : list (string * string)) :
  addAll zip (a ++ b)%list = addAll (addAll zip a) b.
Proof. apply fold_left_app. Qed.

(** The archive built is the files of the tree, added in listing order. *)
Lemma addDirToZip_listing (base : list string) (n : node) :
  forall zip cur,
    addDirToZip zip base cur n = addAll zip (map (zipped base) (listing cur n)).
Proof.
  induction n as [c|es IH] using node_induction; intros zip cur; [reflexivity|].
  revert zip. induction es as [|[name child] tl IHtl]; intros zip; [reflexivity|].
  inversion IH as [|? ? Hchild Htl]; subst.
  rewrite addDirToZip_cons, (IHtl Htl).
  cbn [listing flat_map fst snd]. rewrite map_app, addAll_app.
  f_equal. destruct child as [data|sub].
  - reflexivity.
  - apply Hchild.
Qed.

Lemma addFile_fresh (zip : list (string * string)) (name data : string) :
  ~ In name (map fst zip) -> AdmZip.addFile zip name data = (zip ++ [(name, data)])%list.
Proof.
  induction zip as [|[n d] zip IH]; intros Hfresh; [reflexivity|].
  simpl in *. destruct (String.eqb n name) eqn:E.
  - apply String.eqb_eq in E. tauto.
  - rewrite IH by tauto. reflexivity.
Qed.

Lemma addAll_fresh (files zip : list (string * string)) :
  NoDup (map fst (zip ++ files)%list) -> addAll zip files = (zip ++ files)%list.
Proof.
  revert zip. induction files as [|[n d] files IH]; intros zip Hnd.
  - now rewrite app_nil_r.
  - cbn [addAll fold_left fst snd].
    change (fold_left _ files ?z) with (addAll z files).
    rewrite addFile_fresh.
    + rewrite IH; rewrite <- app_assoc; [reflexivity | exact Hnd].
    + rewrite map_app in Hnd. apply NoDup_remove_2 in Hnd.
      intros Hin. apply Hnd. apply in_or_app. now left.
Qed.

(** *** Paths *)

Lemma relative_app (base p : list string) : Path.relative base (base ++ p)%list = p.
Proof.
  induction base as [|b base IH]; simpl.
  - now destruct p.
  - now rewrite String.eqb_refl.
Qed.

Lemma slashes_id (s : string) :
  JsString.hasChar "\" s = false -> JsString.slashes s = s.
Proof.
  induction s as [|c s IH]; [reflexivity|].
  cbn [JsString.hasChar JsString.slashes]. intros H.
  apply orb_false_elim in H as [H1 H2].
  rewrite Ascii.eqb_sym, H1, IH by assumption. reflexivity.
Qed.

Lemma hasChar_app (c : ascii) (a b : string) :
  JsString.hasChar c (a ++ b) = JsString.hasChar c a || JsString.hasChar c b.
Proof.
  induction a as [|d a IH]; [reflexivity|].
  simpl. now rewrite IH, orb_assoc.
Qed.

Lemma goodName_facts (name : string) :
  goodName name = true ->
  name <> "" /\ JsString.hasChar "/" name = false /\ JsString.hasChar "\" name = false.
Proof.
  unfold goodName. intros H.
  apply andb_true_iff in H as [H H3]. apply andb_true_iff in H as [H H2].
  apply andb_true_iff in H as [H _]. apply andb_true_iff in H as [H1 _].
  apply negb_true_iff in H2, H3. repeat split; try assumption.
  intros ->. discriminate.
Qed.

Lemma goodName_plain (name : string) :
  goodName name = true ->
  String.eqb name "" = false /\ String.eqb name "." = false
  /\ String.eqb name ".." = false.
Proof.
  unfold goodName. intros H.
  apply andb_true_iff in H as [H _]. apply andb_true_iff in H as [H _].
  apply andb_true_iff in H as [H H3]. apply andb_true_iff in H as [H1 H2].
  apply negb_true_iff in H2, H3. repeat split; try assumption.
  now destruct name.
Qed.

Lemma concat_no_backslash (p : list string) :
  goodPath p -> JsString.hasChar "\" (String.concat "/" p) = false.
Proof.
  induction 1 as [|seg p Hseg Hp IH]; [reflexivity|].
  apply goodName_facts in Hseg as (_ & _ & Hb).
  destruct p as [|seg' p]; [exact Hb|].
  change (String.concat "/" (seg :: seg' :: p))
    with (seg ++ "/" ++ String.concat "/" (seg' :: p)).
  rewrite !hasChar_app, Hb, IH. reflexivity.
Qed.

Lemma splitOn_sep (sep : ascii) (x y : string) :
  JsString.hasChar sep x = false ->
  JsString.splitOn sep (x ++ String sep y) = x :: JsString.splitOn sep y.
Proof.
  induction x as [|c x IH]; cbn [JsString.hasChar append JsString.splitOn]; intros H.
  - now rewrite Ascii.eqb_refl.
  - apply orb_false_elim in H as [H1 H2].
    rewrite Ascii.eqb_sym, H1, IH by assumption. reflexivity.
Qed.

Lemma splitOn_plain (sep : ascii) (x : string) :
  JsString.hasChar sep x = false -> JsString.splitOn sep x = [x].
Proof.
  induction x as [|c x IH]; cbn [JsString.hasChar JsString.splitOn]; intros H.
  - reflexivity.
  - apply orb_false_elim in H as [H1 H2].
    rewrite Ascii.eqb_sym, H1, IH by assumption. reflexivity.
Qed.

(** Splitting a rendered path gives its segments back. *)
Lemma splitOn_concat (p : list string) :
  goodPath p -> p <> [] -> JsString.splitOn "/" (String.concat "/" p) = p.
Proof.
  induction 1 as [|seg p Hseg Hp IH]; intros Hne; [congruence|].
  apply goodName_facts in Hseg as (_ & Hs & _).
  destruct p as [|seg' p].
  - now apply splitOn_plain.
  - change (String.concat "/" (seg :: seg' :: p))
      with (seg ++ String "/" (String.concat "/" (seg' :: p))).
    rewrite splitOn_sep by assumption.
    rewrite IH by congruence. reflexivity.
Qed.

Lemma concat_inj (p q : list string) :
  goodPath p -> goodPath q -> p <> [] -> q <> [] ->
  String.concat "/" p = String.concat "/" q -> p = q.
Proof.
  intros Hp Hq Hpn Hqn E.
  rewrite <- (splitOn_concat p Hp Hpn), <- (splitOn_concat q Hq Hqn).
  now rewrite E.
Qed.

Lemma relativeSlashed_app (base p : list string) :
  goodPath p -> Path.relativeSlashed base (base ++ p)%list = String.concat "/" p.
Proof.
  intros Hp. unfold Path.relativeSlashed.
  rewrite relative_app. apply slashes_id. now apply concat_no_backslash.
Qed.

(** *** The listing of a well-formed tree *)

Lemma uniqueNames_NoDup (names : list string) :
  uniqueNames names = true -> NoDup names.
Proof.
  induction names as [|n tl IH]; intros H; constructor; simpl in H;
    apply andb_true_iff in H as [H1 H2].
  - intros Hin. apply negb_true_iff in H1.
    assert (existsb (String.eqb n) tl = true); [|congruence].
    apply existsb_exists. exists n. split; [assumption | apply String.eqb_refl].
  - auto.
Qed.

Lemma wellFormed_Dir (es : list (string * node)) :
  wellFormed (Dir es) = true ->
  NoDup (map fst es)
  /\ Forall (fun e => goodName (fst e) = true /\ wellFormed (snd e) = true) es.
Proof.
  cbn [wellFormed]. intros H. apply andb_true_iff in H as [H1 H2]. split.
  - now apply uniqueNames_NoDup.
  - apply Forall_forall. intros e He.
    rewrite forallb_forall in H2. specialize (H2 e He).
    now apply andb_true_iff in H2.
Qed.

Lemma entry_In (name : string) (es : list (string * node)) (child : node) :
  entry name es = Some child -> In (name, child) es.
Proof.
  induction es as [|[n c] es IH]; simpl; [discriminate|].
  destruct (String.eqb n name) eqn:E.
  - apply String.eqb_eq in E. intros H; inversion H; subst. now left.
  - auto.
Qed.

Lemma In_entry (name : string) (es : list (string * node)) (child : node) :
  NoDup (map fst es) -> In (name, child) es -> entry name es = Some child.
Proof.
  induction es as [|[n c] es IH]; simpl; intros Hnd Hin; [contradiction|].
  inversion Hnd as [|? ? Hn Hnd']; subst.
  destruct Hin as [Heq|Hin].
  - inversion Heq; subst. now rewrite String.eqb_refl.
  - destruct (String.eqb n name) eqn:E; [|auto].
    apply String.eqb_eq in E. subst. exfalso. apply Hn.
    apply in_map_iff. now exists (name, child).
Qed.

Lemma listing_Dir (cur : list string) (es : list (string * node)) :
  listing cur (Dir es) = flat_map (listed cur) es.
Proof. reflexivity. Qed.

Lemma fileAt_cons (es : list (string * node)) (seg : string) (rest : list string) :
  fileAt (Dir es) (seg :: rest)
  = match entry seg es with
    | Some child => fileAt child rest
    | None => None
    end.
Proof. unfold fileAt. simpl. now destruct (entry seg es). Qed.

Lemma fileAt_File (c : string) (p : list string) (data : string) :
  fileAt (File c) p = Some data -> p = [] /\ c = data.
Proof.
  destruct p; unfold fileAt; simpl; intros H; inversion H; auto.
Qed.

(** In a well-formed tree the listing holds exactly the files of the tree. *)
Lemma listing_spec (n : node) :
  wellFormed n = true ->
  forall cur q data,
    In (q, data) (listing cur n)
    <-> exists p, q = (cur ++ p)%list /\ p <> [] /\ fileAt n p = Some data.
Proof.
  induction n as [c|es IH] using node_induction; intros Hwf cur q data.
  - split; [contradiction|].
    intros (p & _ & Hp & Hfile). apply fileAt_File in Hfile as [-> _]. congruence.
  - apply wellFormed_Dir in Hwf as [Hnd Hgood].
    rewrite listing_Dir, in_flat_map. split.
    + intros ([name child] & He & Hin).
      rewrite Forall_forall in IH, Hgood.
      destruct (Hgood _ He) as [_ Hwfc]. specialize (IH _ He Hwfc).
      unfold listed in Hin. cbn [fst snd] in *.
      destruct child as [d|sub].
      * destruct Hin as [Heq|[]]. inversion Heq; subst.
        exists [name]. repeat split; [congruence|].
        rewrite fileAt_cons, (In_entry _ _ _ Hnd He). reflexivity.
      * apply IH in Hin as (p & -> & Hp & Hfile).
        exists (name :: p). repeat split.
        -- now rewrite <- app_assoc.
        -- congruence.
        -- now rewrite fileAt_cons, (In_entry _ _ _ Hnd He).
    + intros (p & -> & Hp & Hfile).
      destruct p as [|seg rest]; [congruence|].
      rewrite fileAt_cons in Hfile.
      destruct (entry seg es) as [child|] eqn:E; [|discriminate].
      apply entry_In in E.
      exists (seg, child). split; [assumption|].
      rewrite Forall_forall in IH, Hgood.
      destruct (Hgood _ E) as [_ Hwfc]. specialize (IH _ E Hwfc).
      unfold listed. cbn [fst snd] in *.
      destruct child as [d|sub].
      * apply fileAt_File in Hfile as [-> ->]. now left.
      * apply IH. exists rest. repeat split.
        -- now rewrite <- app_assoc.
        -- intros ->. discriminate.
        -- assumption.
Qed.

Lemma fileAt_goodPath (p : list string) :
  forall n data, wellFormed n = true -> fileAt n p = Some data -> goodPath p.
Proof.
  induction p as [|seg rest IH]; intros n data Hwf Hfile; [constructor|].
  destruct n as [c|es]; [apply fileAt_File in Hfile as [? _]; discriminate|].
  apply wellFormed_Dir in Hwf as [_ Hgood].
  rewrite fileAt_cons in Hfile.
  destruct (entry seg es) as [child|] eqn:E; [|discriminate].
  apply entry_In in E. rewrite Forall_forall in Hgood.
  destruct (Hgood _ E) as [Hname Hwfc]. constructor; [exact Hname|].
  exact (IH child data Hwfc Hfile).
Qed.

Lemma listing_prefix (n : node) :
  forall cur q data, In (q, data) (listing cur n) -> exists p, q = (cur ++ p)%list.
Proof.
  induction n as [c|es IH] using node_induction; intros cur q data; [contradiction|].
  rewrite listing_Dir, in_flat_map. intros ([name child] & He & Hin).
  rewrite Forall_forall in IH. specialize (IH _ He).
  unfold listed in Hin. cbn [fst snd] in *. destruct child as [d|sub].
  - destruct Hin as [Heq|[]]. inversion Heq. now exists [name].
  - apply IH in Hin as [p ->]. exists (name :: p). now rewrite <- app_assoc.
Qed.

Lemma listed_head (cur : list string) (e : string * node) (q : list string) (data : string) :
  In (q, data) (listed cur e) -> exists rest, q = (cur ++ fst e :: rest)%list.
Proof.
  unfold listed. destruct e as [name [d|sub]]; cbn [fst snd].
  - intros [Heq|[]]. inversion Heq. now exists [].
  - intros Hin. apply listing_prefix in Hin as [p ->].
    exists p. now rewrite <- app_assoc.
Qed.

Lemma NoDup_append {A : Type} (l l' : list A) :
  NoDup l -> NoDup l' -> (forall a, In a l -> ~ In a l') -> NoDup (l ++ l').
Proof.
  induction l as [|x l IH]; intros Hl Hl' Hdis; [assumption|].
  inversion Hl; subst. simpl. constructor.
  - intros Hin. apply in_app_or in Hin as [Hin|Hin]; [contradiction|].
    apply (Hdis x); [now left | assumption].
  - apply IH; try assumption. intros a Ha. apply Hdis. now right.
Qed.

(** No path is listed twice. *)
Lemma listing_NoDup (n : node) :
  wellFormed n = true -> forall cur, NoDup (map fst (listing cur n)).
Proof.
  induction n as [c|es IH] using node_induction; intros Hwf cur; [constructor|].
  apply wellFormed_Dir in Hwf as [Hnd Hgood].
  rewrite listing_Dir.
  induction es as [|[name child] tl IHtl]; [constructor|].
  inversion IH as [|? ? Hchild Htl]; subst.
  inversion Hgood as [|? ? [_ Hwfc] Hgood']; subst.
  inversion Hnd as [|? ? Hfresh Hnd']; subst.
  cbn [flat_map]. rewrite map_app. apply NoDup_append.
  - unfold listed. cbn [fst snd] in *. destruct child as [d|sub].
    + repeat constructor. intros [].
    + now apply Hchild.
  - now apply IHtl.
  - intros q Hq Hq'.
    apply in_map_iff in Hq as ([q1 d1] & <- & Hq).
    apply in_map_iff in Hq' as ([q2 d2] & Heq & Hq').
    cbn [fst] in *. subst q2.
    apply listed_head in Hq as [rest ->].
    apply in_flat_map in Hq' as (e' & He' & Hq').
    apply listed_head in Hq' as [rest' Heq].
    apply app_inv_head in Heq. inversion Heq; subst.
    apply Hfresh. cbn [fst]. apply in_map. exact He'.
Qed.

Lemma NoDup_map_in {A B : Type} (f : A -> B) (l : list A) :
  NoDup l ->
  (forall x y, In x l -> In y l -> f x = f y -> x = y) ->
  NoDup (map f l).
Proof.
  induction 1 as [|x l Hx Hl IH]; intros Hinj; [constructor|].
  simpl. constructor.
  - intros Hin. apply in_map_iff in Hin as (y & Heq & Hy).
    assert (y = x) by (apply Hinj; [now right | now left | assumption]).
    now subst.
  - apply IH. intros a b Ha Hb. apply Hinj; now right.
Qed.

(** The entry made of a file of a well-formed tree carries its relative path. *)
Lemma zipped_listed (base : list string) (es : list (string * node))
      (q : list string) (data : string) :
  wellFormed (Dir es) = true ->
  In (q, data) (listing base (Dir es)) ->
  exists p, q = (base ++ p)%list /\ p <> [] /\ goodPath p
            /\ fileAt (Dir es) p = Some data
            /\ zipped base (q, data) = (String.concat "/" p, data).
Proof.
  intros Hwf Hin.
  apply (listing_spec _ Hwf) in Hin as (p & -> & Hp & Hfile).
  pose proof (fileAt_goodPath p _ _ Hwf Hfile) as Hgood.
  exists p. repeat split; try assumption.
  unfold zipped. cbn [fst snd]. now rewrite relativeSlashed_app.
Qed.

Lemma repack_listing (base : list string) (es : list (string * node)) :
  wellFormed (Dir es) = true ->
  addDirToZip [] base base (Dir es) = map (zipped base) (listing base (Dir es))
  /\ NoDup (map fst (map (zipped base) (listing base (Dir es)))).
Proof.
  intros Hwf.
  assert (Hnd : NoDup (map fst (map (zipped base) (listing base (Dir es))))).
  { rewrite map_map.
    apply NoDup_map_in.
    - exact (NoDup_map_inv _ _ (listing_NoDup _ Hwf base)).
    - intros [q1 d1] [q2 d2] H1 H2 Heq.
      pose proof (listing_NoDup _ Hwf base) as Hpaths.
      destruct (zipped_listed _ _ _ _ Hwf H1) as (p1 & -> & Hp1 & Hg1 & Hf1 & E1).
      destruct (zipped_listed _ _ _ _ Hwf H2) as (p2 & -> & Hp2 & Hg2 & Hf2 & E2).
      rewrite E1, E2 in Heq. cbn [fst] in Heq.
      apply concat_inj in Heq; try assumption. subst p2.
      f_equal. congruence. }
  split; [|exact Hnd].
  rewrite addDirToZip_listing. now apply (addAll_fresh _ []).
Qed.

(** The archive of a well-formed tree: its files, each once, under its
    relative path. *)
Lemma repack_spec (tmpDir : list string) (es : list (string * node)) :
  wellFormed (Dir es) = true ->
  (forall p data,
      fileAt (Dir es) p = Some data ->
      In (String.concat "/" p, data) (addDirToZip [] tmpDir tmpDir (Dir es)))
  /\ (forall name data,
         In (name, data) (addDirToZip [] tmpDir tmpDir (Dir es)) ->
         exists p, name = String.concat "/" p /\ fileAt (Dir es) p = Some data)
  /\ NoDup (map fst (addDirToZip [] tmpDir tmpDir (Dir es))).
Proof.
  revert tmpDir. intros base Hwf.
  destruct (repack_listing base es Hwf) as [-> Hnd].
  split; [|split].
  - intros p data Hfile.
    assert (Hp : p <> []) by (intros ->; discriminate).
    assert (Hin : In ((base ++ p)%list, data) (listing base (Dir es))).
    { apply (listing_spec _ Hwf). now exists p. }
    apply in_map_iff. exists ((base ++ p)%list, data). split; [|assumption].
    unfold zipped. cbn [fst snd].
    now rewrite relativeSlashed_app by exact (fileAt_goodPath _ _ _ Hwf Hfile).
  - intros name data Hin.
    apply in_map_iff in Hin as ([q d] & Heq & Hin).
    destruct (zipped_listed _ _ _ _ Hwf Hin) as (p & _ & _ & _ & Hfile & E).
    rewrite E in Heq. inversion Heq; subst. now exists p.
  - exact Hnd.
Qed.

(** ** C9: repacking an extracted tree *)

(** C9: for a tree as extraction leaves it (entry names are proper file
    names, unique in their directory), the archive [addDirToZip] builds from
    it holds one entry per file of the tree, under the file's relative path
    and with its content; it holds nothing else, and no name twice. *)
Theorem C9_repack_same_paths :
  forall (tmpDir : list string) (es : list (string * node)),
    wellFormed (Dir es) = true ->
    (forall p data,
        fileAt (Dir es) p = Some data ->
        In (String.concat "/" p, data) (addDirToZip [] tmpDir tmpDir (Dir es)))
    /\ (forall name data,
           In (name, data) (addDirToZip [] tmpDir tmpDir (Dir es)) ->
           exists p, name = String.concat "/" p /\ fileAt (Dir es) p = Some data)
    /\ NoDup (map fst (addDirToZip [] tmpDir tmpDir (Dir es))).
Proof. intros tmpDir es. apply repack_spec. Qed.

Lemma C9_repack_same_paths_witness :
  wellFormed (Dir [("imsmanifest.xml", File "<manifest/>");
                   ("content", Dir [("index.html", File "<html></html>");
                                    ("js", Dir [("app.js", File "var x;")]);
                                    ("empty", Dir [])]);
                   ("index.html", File "<html><head></head></html>")]) = true
  /\ NoDup (map fst
              (addDirToZip [] ["tmp"; "scorm_repair_0a1b2c"] ["tmp"; "scorm_repair_0a1b2c"]
                 (Dir [("imsmanifest.xml", File "<manifest/>");
                       ("content", Dir [("index.html", File "<html></html>");
                                        ("js", Dir [("app.js", File "var x;")]);
                                        ("empty", Dir [])]);
                       ("index.html", File "<html><head></head></html>")]))).
Proof.
  split; [reflexivity|].
  apply (C9_repack_same_paths ["tmp"; "scorm_repair_0a1b2c"]
           [("imsmanifest.xml", File "<manifest/>");
            ("content", Dir [("index.html", File "<html></html>");
                             ("js", Dir [("app.js", File "var x;")]);
                             ("empty", Dir [])]);
            ("index.html", File "<html><head></head></html>")]).
  reflexivity.
Defined.

Example repack_example :
  addDirToZip [] ["tmp"; "w"] ["tmp"; "w"]
    (Dir [("imsmanifest.xml", File "<manifest/>");
          ("content", Dir [("index.html", File "<html></html>");
                           ("js", Dir [("app.js", File "var x;")]);
                           ("empty", Dir [])]);
          ("index.html", File "<html><head></head></html>")])
  = [("imsmanifest.xml", "<manifest/>");
     ("content/index.html", "<html></html>");
     ("content/js/app.js", "var x;");
     ("index.html", "<html><head></head></html>")].
Proof. reflexivity. Qed.

(** ** The analyzer *)

(** Case analysis on the first computation of a sequence. *)
Ltac step_bind H :=
  match type of H with
  | context [bind ?m _] =>
      let E := fresh "E" in
      destruct m eqn:E; cbn [bind tryCatch] in H; try discriminate
  end.

Lemma scan_has (l : list AdmZip.entry) :
  forall has calls,
    fst (fold_left scanScript l (has, calls)) = has || existsb persists l.
Proof.
  induction l as [|e l IH]; intros has calls.
  - cbn. now rewrite orb_false_r.
  - cbn [fold_left existsb]. unfold scanScript at 2, persists at 1.
    destruct (AdmZip.getData e) as [content|msg]; cbn [fst snd].
    + destruct (JsString.includes content "cmi.suspend_data");
        destruct (JsString.includes content "cmi.location");
        cbn [orb]; rewrite IH; cbn [orb];
          repeat rewrite orb_true_r; reflexivity.
    + rewrite IH. reflexivity.
Qed.

Lemma filter_nonempty {A : Type} (f : A -> bool) (l : list A) :
  (0 <? length (filter f l))%nat = existsb f l.
Proof.
  induction l as [|x l IH]; [reflexivity|].
  simpl. destruct (f x); [reflexivity | exact IH].
Qed.

Lemma resourcesBlock_found (m : Xml2js.value) (lines : list string) (found : bool)
      (launch : option string) :
  resourcesBlock (Some m) = Ret (lines, found, launch) ->
  found = existsb isSco (manifestResources m).
Proof.
  unfold resourcesBlock, manifestResources. cbn [Js.get bind].
  destruct (Xml2js.children m "resources") as [[|block rs]|]; cbn [hd_error Js.get bind].
  - discriminate.
  - destruct (Xml2js.children block "resource") as [resources|].
    + intros H. step_bind H. inversion H; subst. apply filter_nonempty.
    + intros H. now inversion H.
  - intros H. now inversion H.
Qed.

(** What a completed analysis went through, and its classification. *)
Lemma analyzeBody_classification (parse : Xml2js.parser)
      (zipOpen : outcome (list AdmZip.entry)) (a : analysis) :
  analyzeBody parse zipOpen = Ret (Analyzed a) ->
  exists zipEntries manifestEntry manifestContent manifest,
    zipOpen = Ret zipEntries
    /\ find isManifestEntry zipEntries = Some manifestEntry
    /\ AdmZip.getData manifestEntry = Ret manifestContent
    /\ parse manifestContent = Ret (Some ("manifest", manifest))
    /\ resumeCapable a
       = existsb isSco (manifestResources manifest)
         || existsb persists (firstn 10 (filter isScriptEntry zipEntries)).
Proof.
  unfold analyzeBody. intros H.
  destruct zipOpen as [zipEntries|]; cbn [bind] in H; [|discriminate].
  destruct (find isManifestEntry zipEntries) as [manifestEntry|] eqn:Efind;
    [|discriminate].
  step_bind H. rename a0 into manifestContent.
  step_bind H. rename a0 into result.
  step_bind H. rename a0 into root.
  destruct result as [[name manifest]|]; [|discriminate].
  cbn [Js.root] in E1.
  destruct (String.eqb name "manifest") eqn:Ename.
  2:{ inversion E1; subst root. discriminate. }
  apply String.eqb_eq in Ename. subst name. inversion E1; subst root. clear E1.
  step_bind H. destruct a0 as [versionLines version].
  step_bind H. destruct a0 as [titleLines title].
  step_bind H. rename a0 into organizationLines.
  step_bind H. destruct a0 as [[resourceLines scoFound] launchFile].
  destruct (fold_left scanScript (firstn 10 (filter isScriptEntry zipEntries)) (false, []))
    as [has calls] eqn:Escan.
  inversion H; subst a; clear H. cbn [resumeCapable].
  exists zipEntries, manifestEntry, manifestContent, manifest.
  repeat split; try assumption.
  rewrite (resourcesBlock_found _ _ _ _ E4). f_equal.
  pose proof (scan_has (firstn 10 (filter isScriptEntry zipEntries)) false []) as Hs.
  rewrite Escan in Hs. exact Hs.
Qed.

Lemma analyzeSCORM_Analyzed (parse : Xml2js.parser)
      (zipOpen : outcome (list AdmZip.entry)) (a : analysis) :
  analyzeSCORM parse zipOpen = Ret (Analyzed a) ->
  analyzeBody parse zipOpen = Ret (Analyzed a).
Proof.
  unfold analyzeSCORM. destruct (analyzeBody parse zipOpen); cbn [tryCatch].
  - trivial.
  - discriminate.
Qed.

(** [analyzeSCORM] always resolves. *)
Lemma analyzeSCORM_never_throws (parse : Xml2js.parser)
      (zipOpen : outcome (list AdmZip.entry)) :
  exists r, analyzeSCORM parse zipOpen = Ret r.
Proof.
  unfold analyzeSCORM. destruct (analyzeBody parse zipOpen); cbn [tryCatch]; eauto.
Qed.

(** No entry name with the manifest suffix: the missing-manifest result. *)
Lemma analyzeSCORM_no_manifest_entry (parse : Xml2js.parser)
      (zipEntries : list AdmZip.entry) :
  (forall e, In e zipEntries -> isManifestEntry e = false) ->
  analyzeSCORM parse (Ret zipEntries)
  = Ret (AnalysisFailed "No imsmanifest.xml found in the package").
Proof.
  intros Hnone. unfold analyzeSCORM, analyzeBody. cbn [bind].
  destruct (find isManifestEntry zipEntries) as [e|] eqn:E; [|reflexivity].
  apply find_some in E as [Hin He]. rewrite (Hnone e Hin) in He. discriminate.
Qed.

(** A manifest entry the parser rejects: a failure carrying its message. *)
Lemma analyzeSCORM_malformed (parse : Xml2js.parser)
      (zipEntries : list AdmZip.entry) (manifestEntry : AdmZip.entry)
      (manifestContent message : string) :
  find isManifestEntry zipEntries = Some manifestEntry ->
  AdmZip.getData manifestEntry = Ret manifestContent ->
  parse manifestContent = Throw message ->
  analyzeSCORM parse (Ret zipEntries) = Ret (AnalysisFailed message).
Proof.
  intros Hfind Hdata Hparse. unfold analyzeSCORM, analyzeBody. cbn [bind].
  rewrite Hfind, Hdata. cbn [bind]. rewrite Hparse. reflexivity.
Qed.

(** ** The file system under the repair *)

Lemma lookup_app (p q : list string) :
  forall n,
    lookup n (p ++ q)%list
    = match lookup n p with
      | Some m => lookup m q
      | None => None
      end.
Proof.
  induction p as [|seg p IH]; intros n; [reflexivity|].
  destruct n as [c|es]; [reflexivity|].
  cbn [app lookup]. destruct (entry seg es); [apply IH | reflexivity].
Qed.

Lemma fileAt_app (p q : list string) (n m : node) :
  lookup n p = Some m -> fileAt n (p ++ q)%list = fileAt m q.
Proof. intros H. unfold fileAt. now rewrite lookup_app, H. Qed.

Lemma wellFormed_lookup (p : list string) :
  forall n m, wellFormed n = true -> lookup n p = Some m -> wellFormed m = true.
Proof.
  induction p as [|seg p IH]; intros n m Hwf H.
  - now inversion H; subst.
  - destruct n as [c|es]; [discriminate|].
    cbn [lookup] in H. destruct (entry seg es) as [child|] eqn:E; [|discriminate].
    apply wellFormed_Dir in Hwf as [_ Hall].
    rewrite Forall_forall in Hall. apply entry_In in E.
    destruct (Hall _ E) as [_ Hc]. exact (IH _ _ Hc H).
Qed.

Lemma lookup_goodPath (p : list string) :
  forall n m, wellFormed n = true -> lookup n p = Some m -> goodPath p.
Proof.
  induction p as [|seg p IH]; intros n m Hwf H; [constructor|].
  destruct n as [c|es]; [discriminate|].
  cbn [lookup] in H. destruct (entry seg es) as [child|] eqn:E; [|discriminate].
  apply wellFormed_Dir in Hwf as [_ Hall].
  rewrite Forall_forall in Hall. apply entry_In in E.
  destruct (Hall _ E) as [Hname Hc]. constructor; [exact Hname|].
  exact (IH _ _ Hc H).
Qed.

(** *** The search loop *)

Lemma search_cons (test : string -> bool) (full : list string) (name : string)
      (child : node) (tl : list (string * node)) :
  search test full (Dir ((name, child) :: tl))
  = if isDirectory child then
      match search test (full ++ [name])%list child with
      | Some found => Some found
      | None => search test full (Dir tl)
      end
    else if test name then Some (full ++ [name])%list
    else search test full (Dir tl).
Proof. reflexivity. Qed.

Lemma fileAt_tail (name : string) (child : node) (tl : list (string * node))
      (q : list string) (data : string) :
  NoDup (map fst ((name, child) :: tl)) ->
  fileAt (Dir tl) q = Some data ->
  fileAt (Dir ((name, child) :: tl)) q = Some data.
Proof.
  intros Hnd H. destruct q as [|seg rest]; [discriminate|].
  rewrite fileAt_cons in *. cbn [entry].
  destruct (entry seg tl) as [c|] eqn:E; [|discriminate].
  destruct (String.eqb name seg) eqn:En; [|exact H].
  apply String.eqb_eq in En. subst seg.
  inversion Hnd as [|? ? Hfresh _]; subst. exfalso. apply Hfresh.
  apply entry_In in E. apply in_map_iff. now exists (name, c).
Qed.

(** What [search] returns is the path of a file of the tree whose name
    passes the test. *)
Lemma search_sound (test : string -> bool) (n : node) :
  wellFormed n = true ->
  forall full found,
    search test full n = Some found ->
    exists q data,
      found = (full ++ q)%list /\ q <> [] /\ fileAt n q = Some data
      /\ test (last q "") = true.
Proof.
  induction n as [c|es IH] using node_induction; intros Hwf full found;
    [discriminate|].
  apply wellFormed_Dir in Hwf as [Hnd Hgood].
  induction es as [|[name child] tl IHtl]; [discriminate|].
  inversion IH as [|? ? Hchild Htl]; subst.
  inversion Hgood as [|? ? [_ Hwfc] Hgood']; subst.
  pose proof Hnd as Hnd0.
  inversion Hnd as [|? ? _ Hnd']; subst.
  rewrite search_cons. cbn [fst snd] in *.
  assert (Htail : search test full (Dir tl) = Some found ->
                  exists q data,
                    found = (full ++ q)%list /\ q <> []
                    /\ fileAt (Dir ((name, child) :: tl)) q = Some data
                    /\ test (last q "") = true).
  { intros H. destruct (IHtl Htl Hnd' Hgood' H) as (q & data & -> & Hq & Hfile & Ht).
    exists q, data. repeat split; try assumption. now apply fileAt_tail. }
  destruct child as [data|sub]; cbn [isDirectory].
  - destruct (test name) eqn:Et; [|exact Htail].
    intros H; inversion H; subst. exists [name], data. repeat split.
    + congruence.
    + rewrite fileAt_cons. cbn [entry]. now rewrite String.eqb_refl.
    + exact Et.
  - destruct (search test (full ++ [name])%list (Dir sub)) as [f|] eqn:Es;
      [|exact Htail].
    intros H; inversion H; subst.
    destruct (Hchild Hwfc _ _ Es) as (q & data & -> & Hq & Hfile & Ht).
    exists (name :: q), data. repeat split.
    + now rewrite <- app_assoc.
    + congruence.
    + rewrite fileAt_cons. cbn [entry]. now rewrite String.eqb_refl.
    + destruct q; [congruence|]. exact Ht.
Qed.

Lemma last_append {A : Type} (l l' : list A) (d : A) :
  l' <> [] -> last (l ++ l') d = last l' d.
Proof.
  intros Hne. induction l as [|x l IH]; [reflexivity|].
  cbn [app]. destruct (l ++ l')%list eqn:E.
  - apply app_eq_nil in E as [_ ->]. congruence.
  - rewrite <- E, <- IH. rewrite E. reflexivity.
Qed.

Lemma readdirSync_Ret (fs : node) (dir : list string) (es : list (string * node)) :
  readdirSync fs dir = Ret es <-> lookup fs dir = Some (Dir es).
Proof.
  unfold readdirSync. destruct (lookup fs dir) as [[c|es']|]; split; intros H;
    inversion H; subst; reflexivity.
Qed.

(** A found path is below the directory searched and leads to a file. *)
Lemma found_in_fs (test : string -> bool) (fs : node) (dir : list string)
      (es : list (string * node)) (found : list string) :
  lookup fs dir = Some (Dir es) ->
  wellFormed (Dir es) = true ->
  search test dir (Dir es) = Some found ->
  exists q data,
    found = (dir ++ q)%list /\ q <> [] /\ fileAt (Dir es) q = Some data
    /\ fileAt fs found = Some data /\ test (last found "") = true.
Proof.
  intros Hdir Hwfd Hs.
  destruct (search_sound test _ Hwfd _ _ Hs) as (q & data & -> & Hq & Hfile & Ht).
  exists q, data. repeat split; try assumption.
  - now rewrite (fileAt_app _ _ _ _ Hdir).
  - destruct q as [|s q]; [congruence|].
    rewrite last_append by discriminate. exact Ht.
Qed.

Lemma candidate_is_html (candidate name : string) :
  In candidate LAUNCH_CANDIDATES ->
  String.eqb (JsString.toLowerCase name) (JsString.toLowerCase candidate) = true ->
  JsString.matchesHtml name = true.
Proof.
  intros Hin Heq. apply String.eqb_eq in Heq.
  unfold JsString.matchesHtml. rewrite Heq.
  repeat (destruct Hin as [<-|Hin]; [reflexivity|]). contradiction.
Qed.

Lemma firstCandidate_sound (fs : node) (dir : list string) (es : list (string * node))
      (candidates : list string) (found : list string) :
  lookup fs dir = Some (Dir es) ->
  wellFormed (Dir es) = true ->
  (forall c, In c candidates -> In c LAUNCH_CANDIDATES) ->
  firstCandidate fs dir candidates = Ret (Some found) ->
  exists q data,
    found = (dir ++ q)%list /\ q <> [] /\ fileAt (Dir es) q = Some data
    /\ fileAt fs found = Some data /\ JsString.matchesHtml (last found "") = true.
Proof.
  intros Hdir Hwf. apply readdirSync_Ret in Hdir as Hread.
  induction candidates as [|candidate rest IH]; intros Hsub H.
  - cbn [firstCandidate] in H. unfold findFirstHtml in H.
    rewrite Hread in H. cbn [bind] in H. inversion H as [Hs].
    exact (found_in_fs _ _ _ _ _ Hdir Hwf Hs).
  - cbn [firstCandidate] in H. unfold findFile in H.
    rewrite Hread in H. cbn [bind] in H.
    match type of H with
    | context [search ?t dir (Dir es)] => destruct (search t dir (Dir es)) as [p|] eqn:Es
    end.
    + inversion H; subst p.
      destruct (found_in_fs _ _ _ _ _ Hdir Hwf Es)
        as (q & data & Hq1 & Hq2 & Hq3 & Hq4 & Ht).
      exists q, data. repeat split; try assumption.
      apply (candidate_is_html candidate); [|exact Ht].
      apply Hsub. now left.
    + apply IH; [|exact H]. intros c Hc. apply Hsub. now right.
Qed.

Lemma findLaunchFile_sound (fs : node) (dir : list string) (es : list (string * node))
      (found : list string) :
  lookup fs dir = Some (Dir es) ->
  wellFormed (Dir es) = true ->
  findLaunchFile fs dir = Ret (Some found) ->
  exists q data,
    found = (dir ++ q)%list /\ q <> [] /\ fileAt (Dir es) q = Some data
    /\ fileAt fs found = Some data /\ JsString.matchesHtml (last found "") = true.
Proof.
  intros Hdir Hwf H.
  exact (firstCandidate_sound _ _ _ _ _ Hdir Hwf (fun c Hc => Hc) H).
Qed.

Lemma findFile_sound (fs : node) (dir : list string) (es : list (string * node))
      (filename : string) (found : list string) :
  lookup fs dir = Some (Dir es) ->
  wellFormed (Dir es) = true ->
  findFile fs dir filename = Ret (Some found) ->
  exists q data,
    found = (dir ++ q)%list /\ q <> [] /\ fileAt (Dir es) q = Some data
    /\ fileAt fs found = Some data.
Proof.
  intros Hdir Hwf H. unfold findFile in H.
  apply readdirSync_Ret in Hdir as Hread. rewrite Hread in H.
  cbn [bind] in H. inversion H as [Hs].
  destruct (found_in_fs _ _ _ _ _ Hdir Hwf Hs) as (q & data & ? & ? & ? & ? & _).
  exists q, data. now repeat split.
Qed.

(** *** Writing a file *)

Lemma entry_setEntry (seg name : string) (x : node) (es : list (string * node)) :
  entry seg (setEntry name x es)
  = if String.eqb seg name then Some x else entry seg es.
Proof.
  induction es as [|[n old] tl IH]; cbn [setEntry entry].
  - rewrite String.eqb_sym. now destruct (String.eqb seg name).
  - destruct (String.eqb n name) eqn:En; cbn [entry].
    + apply String.eqb_eq in En. subst n.
      rewrite (String.eqb_sym name seg). now destruct (String.eqb seg name).
    + destruct (String.eqb n seg) eqn:Es.
      * apply String.eqb_eq in Es. subst n. now rewrite En.
      * exact IH.
Qed.

Lemma writeAt_last (es : list (string * node)) (name content : string) :
  writeAt (Dir es) [name] content
  = match entry name es with
    | Some (Dir _) => None
    | _ => Some (Dir (setEntry name (File content) es))
    end.
Proof. reflexivity. Qed.

Lemma writeAt_deeper (es : list (string * node)) (seg s2 : string)
      (rest : list string) (content : string) :
  writeAt (Dir es) (seg :: s2 :: rest) content
  = match entry seg es with
    | Some child =>
        match writeAt child (s2 :: rest) content with
        | Some child' => Some (Dir (setEntry seg child' es))
        | None => None
        end
    | None => None
    end.
Proof. reflexivity. Qed.

(** Overwriting an existing file succeeds. *)
Lemma writeAt_file (p : list string) (content : string) :
  forall n old,
    p <> [] -> fileAt n p = Some old -> exists n', writeAt n p content = Some n'.
Proof.
  induction p as [|seg rest IH]; intros n old Hp H; [congruence|].
  destruct n as [c|es]; [apply fileAt_File in H as [? _]; discriminate|].
  rewrite fileAt_cons in H.
  destruct (entry seg es) as [child|] eqn:E; [|discriminate].
  destruct rest as [|s2 rest].
  - rewrite writeAt_last, E. destruct child; [eauto | discriminate].
  - rewrite writeAt_deeper, E.
    destruct (IH child old) as [child' ->]; [discriminate | exact H | eauto].
Qed.

(** Reading after a write: the file written holds the new content and every
    other file what it held. *)
Lemma fileAt_writeAt (p : list string) (content : string) :
  forall n n',
    writeAt n p content = Some n' ->
    forall q,
      (q = p -> fileAt n' q = Some content)
      /\ (q <> p -> fileAt n' q = fileAt n q).
Proof.
  induction p as [|seg rest IH]; intros n n' H q; [discriminate|].
  destruct n as [c|es]; [discriminate|].
  destruct rest as [|s2 rest].
  - rewrite writeAt_last in H.
    assert (Hn : n' = Dir (setEntry seg (File content) es)
                 /\ forall sub, entry seg es <> Some (Dir sub)).
    { destruct (entry seg es) as [[c|sub]|]; inversion H; split; congruence. }
    destruct Hn as [-> Hnodir]. clear H. split.
    + intros ->. rewrite fileAt_cons, entry_setEntry, String.eqb_refl. reflexivity.
    + intros Hq. destruct q as [|s qr]; [reflexivity|].
      rewrite !fileAt_cons, entry_setEntry.
      destruct (String.eqb s seg) eqn:Es; [|reflexivity].
      apply String.eqb_eq in Es. subst s.
      destruct qr as [|s' qr]; [congruence|].
      destruct (entry seg es) as [[c|sub]|]; try reflexivity.
      exfalso. now apply (Hnodir sub).
  - rewrite writeAt_deeper in H.
    destruct (entry seg es) as [child|] eqn:E; [|discriminate].
    destruct (writeAt child (s2 :: rest) content) as [child'|] eqn:Ew; [|discriminate].
    inversion H; subst n'. clear H.
    specialize (IH _ _ Ew). split.
    + intros ->. rewrite fileAt_cons, entry_setEntry, String.eqb_refl.
      now apply IH.
    + intros Hq. destruct q as [|s qr]; [reflexivity|].
      rewrite !fileAt_cons, entry_setEntry.
      destruct (String.eqb s seg) eqn:Es; [|reflexivity].
      apply String.eqb_eq in Es. subst s. rewrite E.
      apply IH. congruence.
Qed.

(** A directory stays a directory. *)
Lemma lookup_Dir_writeAt (p : list string) (content : string) :
  forall n n',
    writeAt n p content = Some n' ->
    forall q es, lookup n q = Some (Dir es) -> exists es', lookup n' q = Some (Dir es').
Proof.
  induction p as [|seg rest IH]; intros n n' H q es0 Hq; [discriminate|].
  destruct n as [c|es]; [discriminate|].
  destruct rest as [|s2 rest].
  - rewrite writeAt_last in H.
    assert (Hn : n' = Dir (setEntry seg (File content) es)
                 /\ forall sub, entry seg es <> Some (Dir sub)).
    { destruct (entry seg es) as [[c|sub]|]; inversion H; split; congruence. }
    destruct Hn as [-> Hnodir]. clear H.
    destruct q as [|s qr]; [eexists; reflexivity|].
    cbn [lookup] in *. rewrite entry_setEntry.
    destruct (String.eqb s seg) eqn:Es; [|eauto].
    apply String.eqb_eq in Es. subst s.
    destruct (entry seg es) as [[c|sub]|]; try discriminate.
    + destruct qr; discriminate.
    + exfalso. now apply (Hnodir sub).
  - rewrite writeAt_deeper in H.
    destruct (entry seg es) as [child|] eqn:E; [|discriminate].
    destruct (writeAt child (s2 :: rest) content) as [child'|] eqn:Ew; [|discriminate].
    inversion H; subst n'. clear H.
    destruct q as [|s qr]; [eexists; reflexivity|].
    cbn [lookup] in *. rewrite entry_setEntry.
    destruct (String.eqb s seg) eqn:Es; [|eauto].
    apply String.eqb_eq in Es. subst s. rewrite E in Hq.
    exact (IH _ _ Ew _ _ Hq).
Qed.

Lemma setEntry_names (name : string) (x : node) (es : list (string * node)) :
  In name (map fst es) -> map fst (setEntry name x es) = map fst es.
Proof.
  induction es as [|[n old] tl IH]; cbn [setEntry map fst]; intros Hin; [contradiction|].
  destruct (String.eqb n name) eqn:En; [reflexivity|].
  cbn [map fst]. f_equal. apply IH.
  destruct Hin as [->|Hin]; [|assumption].
  now rewrite String.eqb_refl in En.
Qed.

Lemma setEntry_forallb (P : string * node -> bool) (name : string) (x : node)
      (es : list (string * node)) :
  forallb P es = true -> P (name, x) = true -> forallb P (setEntry name x es) = true.
Proof.
  intros Hes Hx. induction es as [|[n old] tl IH]; cbn [setEntry forallb].
  - now rewrite Hx.
  - cbn [forallb] in Hes. apply andb_true_iff in Hes as [H1 H2].
    destruct (String.eqb n name) eqn:En; cbn [forallb].
    + apply String.eqb_eq in En. subst n. now rewrite Hx, H2.
    + now rewrite H1, IH.
Qed.

Lemma entry_name_In (name : string) (es : list (string * node)) (child : node) :
  entry name es = Some child -> In name (map fst es).
Proof.
  intros H. apply entry_In in H. apply in_map_iff. now exists (name, child).
Qed.

(** Overwriting an existing file keeps the tree well formed. *)
Lemma wellFormed_writeAt (p : list string) (content : string) :
  forall n n' old,
    wellFormed n = true ->
    fileAt n p = Some old ->
    writeAt n p content = Some n' ->
    wellFormed n' = true.
Proof.
  induction p as [|seg rest IH]; intros n n' old Hwf Hfile H; [discriminate|].
  destruct n as [c|es]; [discriminate|].
  rewrite fileAt_cons in Hfile.
  destruct (entry seg es) as [child|] eqn:E; [|discriminate].
  pose proof (entry_name_In _ _ _ E) as Hname.
  pose proof Hwf as Hwf0.
  cbn [wellFormed] in Hwf. apply andb_true_iff in Hwf as [Hu Hall].
  assert (Hgood : goodName seg = true /\ wellFormed child = true).
  { apply wellFormed_Dir in Hwf0 as [_ Hf]. rewrite Forall_forall in Hf.
    exact (Hf _ (entry_In _ _ _ E)). }
  destruct Hgood as [Hseg Hwfc].
  destruct rest as [|s2 rest].
  - rewrite writeAt_last, E in H. destruct child as [c|sub]; [|discriminate].
    inversion H; subst n'. cbn [wellFormed].
    rewrite setEntry_names by assumption. rewrite Hu. cbn [andb].
    apply setEntry_forallb; [assumption|]. cbn [fst snd wellFormed].
    now rewrite Hseg.
  - rewrite writeAt_deeper, E in H.
    destruct (writeAt child (s2 :: rest) content) as [child'|] eqn:Ew; [|discriminate].
    inversion H; subst n'. cbn [wellFormed].
    rewrite setEntry_names by assumption. rewrite Hu. cbn [andb].
    apply setEntry_forallb; [assumption|]. cbn [fst snd].
    rewrite Hseg. cbn [andb]. exact (IH _ _ _ Hwfc Hfile Ew).
Qed.

(** *** Relative paths and back *)

Lemma relative_split (dir : list string) :
  forall found,
    exists c d f,
      dir = (c ++ d)%list /\ found = (c ++ f)%list
      /\ Path.relative dir found = (map (fun _ => "..") d ++ f)%list.
Proof.
  induction dir as [|x dir IH]; intros found.
  - exists [], [], found. repeat split.
  - destruct found as [|t found].
    + exists [], (x :: dir), []. repeat split.
    + cbn [Path.relative]. destruct (String.eqb x t) eqn:E.
      * apply String.eqb_eq in E. subst t.
        destruct (IH found) as (c & d & f & -> & -> & ->).
        exists (x :: c), d, f. repeat split.
      * exists [], (x :: dir), (t :: found). repeat split.
Qed.

Lemma skipn_length_app {A : Type} (a b : list A) : skipn (length a) (a ++ b) = b.
Proof. induction a as [|x a IH]; [reflexivity | exact IH]. Qed.

Lemma normalizeOnto_ups (d : list string) :
  forall stack rest,
    Path.normalizeOnto stack (map (fun _ => "..") d ++ rest)%list
    = Path.normalizeOnto (skipn (length d) stack) rest.
Proof.
  induction d as [|x d IH]; intros stack rest; [reflexivity|].
  cbn [map app length].
  change (Path.normalizeOnto stack (".." :: map (fun _ => "..") d ++ rest)%list)
    with (Path.normalizeOnto (tl stack) (map (fun _ => "..") d ++ rest)%list).
  rewrite IH. now destruct stack; [destruct (length d)|].
Qed.

Lemma normalizeOnto_good (f : list string) :
  goodPath f ->
  forall stack, Path.normalizeOnto stack f = (rev stack ++ f)%list.
Proof.
  induction 1 as [|seg f Hseg Hf IH]; intros stack.
  - cbn. now rewrite app_nil_r.
  - apply goodName_plain in Hseg as (H1 & H2 & H3).
    cbn [Path.normalizeOnto]. rewrite H1, H2, H3. cbn [orb].
    rewrite IH. cbn [rev]. now rewrite <- app_assoc.
Qed.

Lemma goodPath_plain (p : list string) : goodPath p -> Forall plainSegment p.
Proof.
  apply Forall_impl. intros s H. apply goodName_facts in H. exact H.
Qed.

Lemma ups_plain (d : list string) : Forall plainSegment (map (fun _ => "..") d).
Proof.
  induction d; constructor; [|assumption].
  repeat split. discriminate.
Qed.

Lemma concat_plain_no_backslash (p : list string) :
  Forall plainSegment p -> JsString.hasChar "\" (String.concat "/" p) = false.
Proof.
  induction 1 as [|seg p (_ & _ & Hb) Hp IH]; [reflexivity|].
  destruct p as [|seg' p]; [exact Hb|].
  change (String.concat "/" (seg :: seg' :: p))
    with (seg ++ "/" ++ String.concat "/" (seg' :: p)).
  rewrite !hasChar_app, Hb, IH. reflexivity.
Qed.

Lemma splitOn_concat_plain (p : list string) :
  Forall plainSegment p -> p <> [] -> JsString.splitOn "/" (String.concat "/" p) = p.
Proof.
  induction 1 as [|seg p (_ & Hs & _) Hp IH]; intros Hne; [congruence|].
  destruct p as [|seg' p].
  - now apply splitOn_plain.
  - change (String.concat "/" (seg :: seg' :: p))
      with (seg ++ String "/" (String.concat "/" (seg' :: p))).
    rewrite splitOn_sep by assumption.
    rewrite IH by congruence. reflexivity.
Qed.

Lemma endsWith_append (a t suf : string) :
  t <> "" -> String.length suf <= 1 ->
  JsString.endsWith (a ++ t) suf = JsString.endsWith t suf.
Proof.
  intros Ht Hsuf. induction a as [|c a IH]; [reflexivity|].
  cbn [append JsString.endsWith]. rewrite IH.
  assert (E : String.eqb (String c (a ++ t)) suf = false).
  { apply String.eqb_neq. intros Heq. subst suf. cbn [String.length] in Hsuf.
    destruct (a ++ t) eqn:Eat; [|cbn in Hsuf; lia].
    destruct a; [|discriminate]. cbn in Eat. congruence. }
  now rewrite E.
Qed.

Lemma endsWith_hasChar (c : ascii) (t : string) :
  JsString.endsWith t (String c "") = true -> JsString.hasChar c t = true.
Proof.
  induction t as [|d t IH]; cbn [JsString.endsWith JsString.hasChar]; intros H.
  - discriminate.
  - apply orb_true_iff in H as [H|H].
    + apply String.eqb_eq in H. inversion H; subst. now rewrite Ascii.eqb_refl.
    + rewrite (IH H). apply orb_true_r.
Qed.

Lemma concat_ends (p : list string) :
  Forall plainSegment p -> JsString.endsWith (String.concat "/" p) "/" = false.
Proof.
  induction 1 as [|seg p (Hne & Hs & _) Hp IH]; [reflexivity|].
  destruct p as [|seg' p].
  - cbn [String.concat].
    destruct (JsString.endsWith seg "/") eqn:E; [|reflexivity].
    apply endsWith_hasChar in E. congruence.
  - change (String.concat "/" (seg :: seg' :: p))
      with (seg ++ "/" ++ String.concat "/" (seg' :: p)).
    rewrite <- append_assoc.
    rewrite endsWith_append; [exact IH | | cbn; lia].
    inversion Hp as [|? ? (Hne' & _) _]; subst.
    destruct p as [|s3 p]; cbn [String.concat]; [assumption|].
    destruct seg'; [congruence | discriminate].
Qed.

(** Joining the manifest directory with the relative path of a file of the
    tree leads back to that file. *)
Lemma join_relative (dir found : list string) :
  goodPath found ->
  Path.join dir (Path.relativeSlashed dir found) = (found, false).
Proof.
  intros Hgood.
  destruct (relative_split dir found) as (c & d & f & Hdir & Hfound & Hrel).
  assert (Hf : goodPath f).
  { subst found. unfold goodPath in *. apply Forall_app in Hgood. tauto. }
  assert (Hplain : Forall plainSegment (Path.relative dir found)).
  { rewrite Hrel. apply Forall_app. split; [apply ups_plain | now apply goodPath_plain]. }
  unfold Path.join, Path.relativeSlashed.
  rewrite (slashes_id _ (concat_plain_no_backslash _ Hplain)).
  rewrite (concat_ends _ Hplain). f_equal.
  destruct (Path.relative dir found) as [|r0 rs] eqn:Er.
  - symmetry in Hrel. apply app_eq_nil in Hrel as [Hd ->].
    apply map_eq_nil in Hd. subst d.
    rewrite app_nil_r in Hdir, Hfound. subst dir found.
    cbn. now rewrite rev_involutive.
  - rewrite splitOn_concat_plain by (assumption || discriminate).
    rewrite Hrel, normalizeOnto_ups, Hdir, rev_app_distr.
    rewrite <- (length_rev d), skipn_length_app.
    rewrite normalizeOnto_good by assumption.
    now rewrite rev_involutive, Hfound.
Qed.

Lemma relative_common (base d f : list string) :
  Path.relative (base ++ d)%list (base ++ f)%list = Path.relative d f.
Proof.
  induction base as [|b base IH]; [reflexivity|].
  cbn [app Path.relative]. now rewrite String.eqb_refl.
Qed.

(** Joining the manifest directory with the relative path of a file of the
    package leads back to that file. *)
Lemma join_relative_under (base d f : list string) :
  goodPath f ->
  Path.join (base ++ d)%list (Path.relativeSlashed (base ++ d)%list (base ++ f)%list)
  = ((base ++ f)%list, false).
Proof.
  intros Hgood.
  destruct (relative_split d f) as (c & d' & f' & Hd & Hf & Hrel).
  assert (Hf' : goodPath f').
  { subst f. unfold goodPath in *. apply Forall_app in Hgood. tauto. }
  assert (Hplain : Forall plainSegment (Path.relative d f)).
  { rewrite Hrel. apply Forall_app. split; [apply ups_plain | now apply goodPath_plain]. }
  unfold Path.join, Path.relativeSlashed. rewrite relative_common.
  rewrite (slashes_id _ (concat_plain_no_backslash _ Hplain)).
  rewrite (concat_ends _ Hplain). f_equal.
  destruct (Path.relative d f) as [|r0 rs] eqn:Er.
  - symmetry in Hrel. apply app_eq_nil in Hrel as [Hd' ->].
    apply map_eq_nil in Hd'. subst d'.
    rewrite app_nil_r in Hd, Hf. subst d f.
    cbn. now rewrite rev_involutive.
  - rewrite splitOn_concat_plain by (assumption || discriminate).
    rewrite Hrel, normalizeOnto_ups, Hd, app_assoc, rev_app_distr.
    rewrite <- (length_rev d'), skipn_length_app.
    rewrite normalizeOnto_good by assumption.
    now rewrite rev_involutive, Hf, app_assoc.
Qed.

(** *** Writing below a directory *)

Lemma writeAt_Dir (p : list string) (content : string) (es : list (string * node))
      (n' : node) :
  writeAt (Dir es) p content = Some n' -> exists es', n' = Dir es'.
Proof.
  destruct p as [|seg [|s2 rest]]; [discriminate| |].
  - rewrite writeAt_last. destruct (entry seg es) as [[c|sub]|]; intros H;
      inversion H; eauto.
  - rewrite writeAt_deeper. destruct (entry seg es) as [child|]; [|discriminate].
    destruct (writeAt child (s2 :: rest) content); intros H; inversion H; eauto.
Qed.

(** A write below [base] is a write in the tree found at [base]. *)
Lemma writeAt_under (base : list string) (q : list string) (content : string) :
  q <> [] ->
  forall fs sub sub',
    lookup fs base = Some sub ->
    writeAt sub q content = Some sub' ->
    exists fs',
      writeAt fs (base ++ q)%list content = Some fs'
      /\ lookup fs' base = Some sub'.
Proof.
  intros Hq. induction base as [|s base IH]; intros fs sub sub' Hbase Hw.
  - inversion Hbase; subst sub. exists sub'. now split.
  - destruct fs as [c|es0]; [discriminate|].
    cbn [lookup] in Hbase.
    destruct (entry s es0) as [child|] eqn:E; [|discriminate].
    destruct (IH _ _ _ Hbase Hw) as (child' & Hwc & Hlc).
    exists (Dir (setEntry s child' es0)). split.
    + cbn [app]. destruct (base ++ q)%list as [|s2 rest] eqn:Ebq.
      * apply app_eq_nil in Ebq as [_ ->]. congruence.
      * rewrite writeAt_deeper, E, Hwc. reflexivity.
    + cbn [lookup]. rewrite entry_setEntry, String.eqb_refl. exact Hlc.
Qed.

(** *** Completeness of the search *)

Lemma search_complete (test : string -> bool) (n : node) :
  forall q data full,
    fileAt n q = Some data -> q <> [] -> test (last q "") = true ->
    search test full n <> None.
Proof.
  induction n as [c|es IH] using node_induction; intros q data full Hfile Hq Ht.
  - apply fileAt_File in Hfile as [-> _]. congruence.
  - destruct q as [|seg rest]; [congruence|]. clear Hq.
    rewrite fileAt_cons in Hfile.
    induction es as [|[name child] tl IHtl]; [discriminate|].
    inversion IH as [|? ? Hchild Htl]; subst.
    rewrite search_cons. cbn [entry fst snd] in *.
    destruct (String.eqb name seg) eqn:En.
    + apply String.eqb_eq in En. subst name.
      destruct child as [c|sub]; cbn [isDirectory].
      * apply fileAt_File in Hfile as [-> ->]. cbn [last] in Ht.
        rewrite Ht. discriminate.
      * destruct rest as [|s2 rest]; [discriminate|].
        specialize (Hchild (s2 :: rest) data (full ++ [seg])%list Hfile).
        destruct (search test (full ++ [seg])%list (Dir sub)); [discriminate|].
        exfalso. apply Hchild; [discriminate | exact Ht | reflexivity].
    + specialize (IHtl Htl Hfile).
      destruct child as [c|sub]; cbn [isDirectory].
      * destruct (test name); [discriminate | exact IHtl].
      * destruct (search test (full ++ [name])%list (Dir sub));
          [discriminate | exact IHtl].
Qed.

Lemma candidate_lowercase (c : string) :
  In c LAUNCH_CANDIDATES -> JsString.toLowerCase c = c.
Proof.
  intros Hin. repeat (destruct Hin as [<-|Hin]; [reflexivity|]). contradiction.
Qed.


(** ** The repair, stage by stage *)

Lemma lookupKey_setKey_same {A : Type} (key : string) (a : A) (l : list (string * A)) :
  Xml2js.lookupKey key (Xml2js.setKey key a l) = Some a.
Proof.
  induction l as [|[k old] tl IH]; cbn [Xml2js.setKey Xml2js.lookupKey].
  - now rewrite String.eqb_refl.
  - destruct (String.eqb k key) eqn:E; cbn [Xml2js.lookupKey]; now rewrite E.
Qed.

Lemma lookupKey_setKey_other {A : Type} (key other : string) (a : A)
      (l : list (string * A)) :
  other <> key ->
  Xml2js.lookupKey other (Xml2js.setKey key a l) = Xml2js.lookupKey other l.
Proof.
  intros Hne. induction l as [|[k old] tl IH]; cbn [Xml2js.setKey Xml2js.lookupKey].
  - destruct (String.eqb key other) eqn:E; [|reflexivity].
    apply String.eqb_eq in E. congruence.
  - destruct (String.eqb k key) eqn:E; cbn [Xml2js.lookupKey].
    + apply String.eqb_eq in E. subst k.
      destruct (String.eqb key other) eqn:E'; [|reflexivity].
      apply String.eqb_eq in E'. congruence.
    + now rewrite IH.
Qed.

Lemma primaryResource_inv (manifest primary : Xml2js.value) :
  primaryResource manifest = Some primary ->
  exists block blocks others,
    Xml2js.children manifest "resources" = Some (block :: blocks)
    /\ Xml2js.children block "resource" = Some (primary :: others).
Proof.
  unfold primaryResource, manifestResources. intros H.
  destruct (Xml2js.children manifest "resources") as [[|block blocks]|];
    try discriminate.
  destruct (Xml2js.children block "resource") as [[|p others]|] eqn:E;
    try discriminate.
  inversion H; subst. eauto.
Qed.

(** Fixes 3 and 4 leave the resources as they are. *)
Lemma ensureNamespace_resources (manifest m1 : Xml2js.value) (r r1 : list string) :
  ensureNamespace (Some manifest) r = Ret (m1, r1) ->
  manifestResources m1 = manifestResources manifest
  /\ exists extra, r1 = (r ++ extra)%list
                   /\ forall e, In e extra -> e = "🔧 Added missing adlcp namespace".
Proof.
  unfold ensureNamespace. destruct manifest as [s|attrs text kids]; [discriminate|].
  destruct (Xml2js.truthyAttr _ "xmlns:adlcp"); intros H; inversion H; subst;
    (split; [reflexivity|]).
  - exists []. rewrite app_nil_r. split; [reflexivity | contradiction].
  - eexists. split; [reflexivity|]. intros e [<-|[]]. reflexivity.
Qed.

Lemma ensureMetadata_resources (m1 m2 : Xml2js.value) (r1 r2 : list string) :
  ensureMetadata m1 r1 = (m2, r2) ->
  manifestResources m2 = manifestResources m1
  /\ exists extra, r2 = (r1 ++ extra)%list
                   /\ forall e, In e extra -> e = "🔧 Added missing metadata/schema block".
Proof.
  unfold ensureMetadata. destruct m1 as [s|attrs text kids].
  - intros H; inversion H; subst. split; [reflexivity|].
    exists []. rewrite app_nil_r. split; [reflexivity | contradiction].
  - destruct (Xml2js.lookupKey "metadata" kids); intros H; inversion H; subst.
    + split; [reflexivity|].
      exists []. rewrite app_nil_r. split; [reflexivity | contradiction].
    + split.
      * unfold manifestResources. cbn [Xml2js.children].
        now rewrite lookupKey_setKey_other by discriminate.
      * eexists. split; [reflexivity|]. intros e [<-|[]]. reflexivity.
Qed.

(** With a manifest in place that parses, the repair comes down to fixes 5
    and 6 and the repacking. *)
Lemma repairSCORM_existing (parse : Xml2js.parser) (build : Xml2js.builder)
      (tmpDir : list string) (fs : node) (manifestPath : list string)
      (manifestXml : string) (manifest m1 m2 : Xml2js.value) (r1 r2 : list string) :
  findFile fs tmpDir "imsmanifest.xml" = Ret (Some manifestPath) ->
  readFileSync fs (manifestPath, false) = Ret manifestXml ->
  parse manifestXml = Ret (Some ("manifest", manifest)) ->
  ensureNamespace (Some manifest) [] = Ret (m1, r1) ->
  ensureMetadata m1 r1 = (m2, r2) ->
  repairSCORM parse build tmpDir (Ret fs)
  = ('(manifest, repairs, launchFile) <- fixResources fs tmpDir manifestPath m2 r2 ;;
     '(fs, repairs) <- injectIntoLaunch fs manifestPath launchFile repairs ;;
     outZip <- serializeAndRepack build fs tmpDir manifestPath manifest ;;
     Ret ({| success := true; repairs := repairs; launchFile := launchFile |}, outZip)).
Proof.
  intros Hfind Hread Hparse Hns Hmd.
  unfold repairSCORM, findOrCreateManifest, parseOrRebuild.
  cbn [bind]. rewrite Hfind. cbn [bind]. rewrite Hread. cbn [bind].
  rewrite Hparse. cbn [bind tryCatch Js.root].
  rewrite String.eqb_refl. cbn [bind]. rewrite Hns. cbn [bind]. rewrite Hmd.
  reflexivity.
Qed.

Lemma fixResources_no_attributes (fs : node) (tmpDir manifestPath : list string)
      (manifest primary : Xml2js.value) (repairs : list string) :
  primaryResource manifest = Some primary ->
  Xml2js.attributes primary = None ->
  fixResources fs tmpDir manifestPath manifest repairs = Ret (manifest, repairs, None).
Proof.
  intros Hprimary Hattrs.
  apply primaryResource_inv in Hprimary as (block & blocks & others & Hb & Hr).
  unfold fixResources. cbn [Js.get bind]. rewrite Hb. cbn [hd_error Js.get bind].
  rewrite Hr. cbn [hd_error Js.attrs bind]. now rewrite Hattrs.
Qed.

(** The last stage: the manifest file holds the serialized manifest, every
    other file of the package goes into the archive as it is. *)
Lemma serializeAndRepack_spec (build : Xml2js.builder) (fs : node)
      (tmpDir q : list string) (es : list (string * node)) (manifest : Xml2js.value)
      (old repairedXml : string) :
  lookup fs tmpDir = Some (Dir es) ->
  wellFormed (Dir es) = true ->
  q <> [] ->
  fileAt (Dir es) q = Some old ->
  build ("manifest", manifest) = Ret repairedXml ->
  exists zip,
    serializeAndRepack build fs tmpDir (tmpDir ++ q)%list manifest = Ret zip
    /\ In (Path.relativeSlashed tmpDir (tmpDir ++ q)%list, repairedXml) zip
    /\ (forall q' data,
           q' <> q -> fileAt (Dir es) q' = Some data ->
           In (String.concat "/" q', data) zip)
    /\ NoDup (map fst zip).
Proof.
  intros Hdir Hwf Hq Hold Hbuild.
  destruct (writeAt_file _ repairedXml _ _ Hq Hold) as [sub' Hw].
  destruct (writeAt_Dir _ _ _ _ Hw) as [es' ->].
  destruct (writeAt_under tmpDir q repairedXml Hq _ _ _ Hdir Hw) as (fs' & Hw' & Hdir').
  pose proof (wellFormed_writeAt _ _ _ _ _ Hwf Hold Hw) as Hwf'.
  destruct (repack_spec tmpDir es' Hwf') as (Hin & _ & Hnd).
  exists (addDirToZip [] tmpDir tmpDir (Dir es')).
  split; [|split; [|split]].
  - unfold serializeAndRepack. rewrite Hbuild. cbn [bind].
    unfold writeFileSync. cbn [fst snd]. rewrite Hw'. cbn [bind].
    apply readdirSync_Ret in Hdir'. now rewrite Hdir'.
  - rewrite relativeSlashed_app by exact (fileAt_goodPath _ _ _ Hwf Hold).
    apply Hin. now apply (fileAt_writeAt _ _ _ _ Hw).
  - intros q' data Hq' Hfile. apply Hin.
    destruct (fileAt_writeAt _ _ _ _ Hw q') as [_ Hother].
    now rewrite Hother.
  - exact Hnd.
Qed.

(** Fix 6 on a launch file of the package: it returns, and leaves a
    well-formed package with the same files. *)
Lemma injectIntoLaunch_package (fs : node) (tmpDir manifestPath qf : list string)
      (es : list (string * node)) (rel html : string) (repairs : list string) :
  lookup fs tmpDir = Some (Dir es) ->
  wellFormed (Dir es) = true ->
  Path.join (Path.dirname manifestPath) rel = ((tmpDir ++ qf)%list, false) ->
  fileAt (Dir es) qf = Some html ->
  qf <> [] ->
  exists fs' repairs' es',
    injectIntoLaunch fs manifestPath (Some rel) repairs = Ret (fs', repairs')
    /\ lookup fs' tmpDir = Some (Dir es')
    /\ wellFormed (Dir es') = true
    /\ (forall p old, fileAt (Dir es) p = Some old ->
                      exists old', fileAt (Dir es') p = Some old')
    /\ (exists extra, repairs' = (repairs ++ extra)%list).
Proof.
  intros Hdir Hwf Hjoin Hfile Hne.
  assert (Hsame : exists fs' repairs' es',
             Ret (fs, repairs) = Ret (fs', repairs')
             /\ lookup fs' tmpDir = Some (Dir es')
             /\ wellFormed (Dir es') = true
             /\ (forall p old, fileAt (Dir es) p = Some old ->
                               exists old', fileAt (Dir es') p = Some old')
             /\ (exists extra, repairs' = (repairs ++ extra)%list)).
  { exists fs, repairs, es. repeat split; eauto. exists []. now rewrite app_nil_r. }
  unfold injectIntoLaunch.
  destruct (JsString.truthy rel); [|exact Hsame].
  rewrite Hjoin.
  destruct (existsSync fs _ && Path.matchesHtml _); [|exact Hsame].
  assert (Hread : readFileSync fs ((tmpDir ++ qf)%list, false) = Ret html).
  { unfold readFileSync. cbn [fst snd]. rewrite lookup_app, Hdir.
    unfold fileAt in Hfile.
    destruct (lookup (Dir es) qf) as [[c|sub]|]; try discriminate.
    now inversion Hfile. }
  rewrite Hread. cbn [bind].
  destruct (JsString.includes html "scorm-api-shim.js"); [exact Hsame|].
  clear Hsame.
  destruct (writeAt_file _ (injectShimTag html) _ _ Hne Hfile) as [sub' Hw].
  destruct (writeAt_Dir _ _ _ _ Hw) as [es' ->].
  destruct (writeAt_under tmpDir qf (injectShimTag html) Hne _ _ _ Hdir Hw)
    as (fs' & Hw' & Hdir').
  exists fs', (repairs ++ ["💉 Injected SCORM API shim into launch HTML"])%list, es'.
  split; [|split; [|split; [|split]]].
  - unfold writeFileSync. cbn [fst snd]. rewrite Hw'. reflexivity.
  - exact Hdir'.
  - exact (wellFormed_writeAt _ _ _ _ _ Hwf Hfile Hw).
  - intros p old Hp.
    destruct (list_eq_dec string_dec p qf) as [->|Hpq].
    + eexists. now apply (fileAt_writeAt _ _ _ _ Hw).
    + exists old. destruct (fileAt_writeAt _ _ _ _ Hw p) as [_ Ho]. now rewrite Ho.
  - eauto.
Qed.

(** ** C10: a primary resource without attributes *)

(** C10: when the manifest found parses and the first resource of its
    resources block has no attribute object, the repair returns
    [success: true] with [launchFile] null; the log holds at most the
    namespace and metadata entries of fixes 3 and 4, the primary resource is
    left as it was (no SCO type set, no href looked at), and every file of
    the tree other than the manifest is repacked unchanged, so no shim went
    into any HTML file. *)
Theorem C10_primary_without_attributes :
  forall (parse : Xml2js.parser) (build : Xml2js.builder) (tmpDir : list string)
         (fs : node) (manifestPath : list string) (manifestXml : string)
         (manifest primary m1 m2 : Xml2js.value) (r1 r2 : list string)
         (repairedXml : string) (package : list (string * node)),
    lookup fs tmpDir = Some (Dir package) ->
    wellFormed (Dir package) = true ->
    findFile fs tmpDir "imsmanifest.xml" = Ret (Some manifestPath) ->
    readFileSync fs (manifestPath, false) = Ret manifestXml ->
    parse manifestXml = Ret (Some ("manifest", manifest)) ->
    primaryResource manifest = Some primary ->
    Xml2js.attributes primary = None ->
    ensureNamespace (Some manifest) [] = Ret (m1, r1) ->
    ensureMetadata m1 r1 = (m2, r2) ->
    build ("manifest", m2) = Ret repairedXml ->
    exists zip,
      repairSCORM parse build tmpDir (Ret fs)
      = Ret ({| success := true; repairs := r2; launchFile := None |}, zip)
      /\ (forall r, In r r2 ->
                    r = "🔧 Added missing adlcp namespace"
                    \/ r = "🔧 Added missing metadata/schema block")
      /\ primaryResource m2 = Some primary
      /\ In (Path.relativeSlashed tmpDir manifestPath, repairedXml) zip
      /\ (forall q data,
             (tmpDir ++ q)%list <> manifestPath ->
             fileAt (Dir package) q = Some data ->
             In (String.concat "/" q, data) zip).
Proof.
  intros parse build tmpDir fs manifestPath manifestXml manifest primary m1 m2 r1 r2
         repairedXml package Hdir Hwf Hfind Hread Hparse Hprimary Hattrs Hns Hmd Hbuild.
  destruct (findFile_sound _ _ _ _ _ Hdir Hwf Hfind)
    as (q & data & -> & Hq & Hfile & _).
  destruct (ensureNamespace_resources _ _ _ _ Hns) as (Hres1 & x1 & Hr1 & Hx1).
  destruct (ensureMetadata_resources _ _ _ _ Hmd) as (Hres2 & x2 & Hr2 & Hx2).
  assert (Hprimary2 : primaryResource m2 = Some primary).
  { unfold primaryResource in *. now rewrite Hres2, Hres1. }
  destruct (serializeAndRepack_spec build fs tmpDir q package m2 data repairedXml
              Hdir Hwf Hq Hfile Hbuild) as (zip & Hzip & Hin & Hothers & _).
  exists zip. split; [|split; [|split; [|split]]].
  - rewrite (repairSCORM_existing _ _ _ _ _ _ _ _ _ _ _ Hfind Hread Hparse Hns Hmd).
    rewrite (fixResources_no_attributes _ _ _ _ _ _ Hprimary2 Hattrs).
    cbn [bind injectIntoLaunch]. rewrite Hzip. reflexivity.
  - intros r Hr. subst r2 r1. cbn [app] in Hr.
    apply in_app_or in Hr as [Hr|Hr]; [left; auto | right; auto].
  - exact Hprimary2.
  - exact Hin.
  - intros q' d Hne Hf. apply Hothers; [|exact Hf]. congruence.
Qed.

(** ** C3: a declared launch file that does not exist *)

Lemma ensureScormType_href (a a1 : list (string * string)) (r r3 : list string) :
  ensureScormType a r = (a1, r3) ->
  Xml2js.truthyAttr a1 "href" = Xml2js.truthyAttr a "href"
  /\ exists extra, r3 = (r ++ extra)%list.
Proof.
  unfold ensureScormType.
  destruct (Xml2js.truthyAttr a "adlcp:scormtype"); intros H; inversion H; subst.
  - split; [reflexivity|]. exists []. now rewrite app_nil_r.
  - split; [|eauto]. unfold Xml2js.truthyAttr.
    now rewrite lookupKey_setKey_other by discriminate.
Qed.

Lemma fixResources_broken_href (fs : node) (tmpDir manifestPath : list string)
      (manifest primary : Xml2js.value) (a a1 : list (string * string))
      (r r3 : list string) (declaredHref : string) (found : list string) :
  primaryResource manifest = Some primary ->
  Xml2js.attributes primary = Some a ->
  ensureScormType a r = (a1, r3) ->
  Xml2js.truthyAttr a "href" = Some declaredHref ->
  existsSync fs (Path.join (Path.dirname manifestPath) declaredHref) = false ->
  findLaunchFile fs tmpDir = Ret (Some found) ->
  fixResources fs tmpDir manifestPath manifest r
  = Ret (setPrimaryAttrs manifest
           (Xml2js.setKey "href"
              (Path.relativeSlashed (Path.dirname manifestPath) found) a1),
         (r3 ++ [("🔧 Fixed broken launch file → "
                  ++ Path.relativeSlashed (Path.dirname manifestPath) found)%string])%list,
         Some (Path.relativeSlashed (Path.dirname manifestPath) found)).
Proof.
  intros Hprimary Hattrs Hsco Hhref Hmissing Hfound.
  apply primaryResource_inv in Hprimary as (block & blocks & others & Hb & Hr).
  destruct (ensureScormType_href _ _ _ _ Hsco) as [Hhref1 _].
  unfold fixResources. cbn [Js.get bind]. rewrite Hb. cbn [hd_error Js.get bind].
  rewrite Hr. cbn [hd_error Js.attrs bind]. rewrite Hattrs, Hsco, Hhref1, Hhref.
  rewrite Hmissing, Hfound. reflexivity.
Qed.








(** ** Worked repairs *)

Lemma C10_primary_without_attributes_witness :
  exists zip,
    Sample.repair
      [("imsmanifest.xml",
        File "<manifest><resources><resource><file href='a.html'/></resource></resources></manifest>");
       ("a.html", File "<html><head></head></html>")]
    = Ret ({| success := true;
              repairs := ["🔧 Added missing adlcp namespace";
                          "🔧 Added missing metadata/schema block"];
              launchFile := None |}, zip)
    /\ In ("a.html", "<html><head></head></html>") zip.
Proof.
  edestruct (C10_primary_without_attributes
               Sax.parseStringPromise Builder.buildObject Sample.tmpDir
               (Sample.host
                  [("imsmanifest.xml",
                    File "<manifest><resources><resource><file href='a.html'/></resource></resources></manifest>");
                   ("a.html", File "<html><head></head></html>")])
               (Sample.tmpDir ++ ["imsmanifest.xml"])%list
               "<manifest><resources><resource><file href='a.html'/></resource></resources></manifest>")
    with (primary := Xml2js.Element None None
                       [("file", [Xml2js.Element (Some [("href", "a.html")]) None []])])
    as (zip & Hrun & _ & _ & _ & Hfiles);
    try reflexivity.
  exists zip. split.
  - exact Hrun.
  - apply (Hfiles ["a.html"]); [discriminate | reflexivity].
Defined.


(** ** The folder endpoints *)

Section BatchLoops.

Variable parse : Xml2js.parser.
Variable build : Xml2js.builder.
Variable env : Batch.environment.
Variable folderPath : string.

Let analyzeStep := Batch.analyzeStep parse env folderPath.
Let analyzeOutcome := Batch.analyzeOutcome parse env folderPath.
Let repairFrom := Batch.repairFrom parse build env folderPath.
Let repairOutcome := Batch.repairOutcome parse build env folderPath.

Lemma analyzeStep_results (st : Batch.analyzeState) (zipFile : string) :
  Batch.analyzeResults (analyzeStep st zipFile)
  = (Batch.analyzeResults st ++ [analyzeOutcome zipFile])%list.
Proof.
  unfold analyzeStep, analyzeOutcome, Batch.analyzeStep, Batch.analyzeOutcome.
  now destruct (Batch.analyzeAttempt parse env folderPath zipFile).
Qed.

(** The loop appends, archive by archive, what each archive gives on its
    own. *)
Lemma analyze_fold_results (zipFiles : list string) :
  forall st,
    Batch.analyzeResults (fold_left analyzeStep zipFiles st)
    = (Batch.analyzeResults st ++ map analyzeOutcome zipFiles)%list.
Proof.
  induction zipFiles as [|z zipFiles IH]; intros st; cbn [fold_left map].
  - now rewrite app_nil_r.
  - rewrite IH, analyzeStep_results, <- app_assoc. reflexivity.
Qed.

Lemma repairStep_results (results : list Batch.repairEntry) (zipFile : string) :
  Batch.ensureRepairedDir env zipFile = Ret tt ->
  Batch.repairStep parse build env folderPath results zipFile
  = Ret (results ++ [repairOutcome zipFile])%list.
Proof.
  intros H. unfold Batch.repairStep, repairOutcome, Batch.repairOutcome.
  rewrite H. cbn [bind].
  now destruct (Batch.repairAttempt parse build env folderPath zipFile).
Qed.

(** As long as the output directory can be made, the repair loop does the
    same. *)
Lemma repair_fold_results (zipFiles : list string) :
  (forall z, In z zipFiles -> Batch.ensureRepairedDir env z = Ret tt) ->
  forall results,
    repairFrom zipFiles results = Ret (results ++ map repairOutcome zipFiles)%list.
Proof.
  unfold repairFrom.
  induction zipFiles as [|z zipFiles IH]; intros Hdir results;
    cbn [Batch.repairFrom map].
  - now rewrite app_nil_r.
  - rewrite repairStep_results by (apply Hdir; now left). cbn [bind].
    rewrite IH by (intros z' Hz'; apply Hdir; now right).
    now rewrite <- app_assoc.
Qed.

(** [mkdirSync] is outside the [try] block: when it throws, the loop ends
    with that exception, whatever was gathered so far. *)
Lemma repair_fold_mkdir_throws (before after : list string) (zipFile message : string) :
  (forall z, In z before -> Batch.ensureRepairedDir env z = Ret tt) ->
  Batch.ensureRepairedDir env zipFile = Throw message ->
  forall results,
    repairFrom (before ++ zipFile :: after) results = Throw message.
Proof.
  unfold repairFrom. intros Hdir Hthrow.
  induction before as [|z before IH]; intros results;
    cbn [Batch.repairFrom app].
  - unfold Batch.repairStep. now rewrite Hthrow.
  - rewrite repairStep_results by (apply Hdir; now left). cbn [bind].
    apply IH. intros z' Hz'. apply Hdir. now right.
Qed.

Lemma analyzeAttempt_filename (zipFile : string) (e : Batch.analyzeEntry) :
  Batch.analyzeAttempt parse env folderPath zipFile = Ret e ->
  Batch.analyzeEntryFilename e = zipFile.
Proof.
  unfold Batch.analyzeAttempt. intros H.
  destruct (analyzeSCORM parse _); cbn [bind] in H; [|discriminate].
  destruct (Batch.statSize env _); cbn [bind] in H; [|discriminate].
  now inversion H.
Qed.

Lemma repairAttempt_filename (zipFile : string) (e : Batch.repairEntry) :
  Batch.repairAttempt parse build env folderPath zipFile = Ret e ->
  Batch.repairEntryFilename e = zipFile.
Proof.
  unfold Batch.repairAttempt. intros H.
  destruct (repairSCORM parse build _ _) as [[result zip]|]; cbn [bind] in H;
    [|discriminate].
  destruct (if success result then _ else _); cbn [bind] in H; [|discriminate].
  now inversion H.
Qed.

Lemma analyzeStep_counted (st : Batch.analyzeState) (zipFile : string) :
  Batch.counted st -> Batch.counted (analyzeStep st zipFile).
Proof.
  unfold Batch.counted, analyzeStep, Batch.analyzeStep. intros (Hs & Hf & Hr).
  destruct (Batch.analyzeAttempt parse env folderPath zipFile) as [e|message];
    cbn [Batch.analyzeResults Batch.successCount Batch.failedCount Batch.resumeCount];
    rewrite !filter_app, !length_app; cbn [filter].
  - destruct (Batch.analyzeEntrySuccess e);
      destruct (Batch.analyzeEntryResumeCapable e); cbn [negb andb length]; lia.
  - cbn [Batch.analyzeEntrySuccess negb andb length]. lia.
Qed.

Lemma analyze_fold_counted (zipFiles : list string) :
  forall st, Batch.counted st -> Batch.counted (fold_left analyzeStep zipFiles st).
Proof.
  induction zipFiles as [|z zipFiles IH]; intros st Hst; [exact Hst|].
  cbn [fold_left]. apply IH. now apply analyzeStep_counted.
Qed.

End BatchLoops.

(** ** C8: one archive's failure stays its own *)

(** C8, as stated, fails on the repair path: the [mkdirSync] of the output
    directory runs inside the loop but before the [try] block.  On a host
    where [repaired] cannot be made the archive would repair, yet the loop
    ends with the exception of [mkdirSync] and the handler answers with no
    result sequence at all. *)
Lemma C8_mkdir_outside_try_counterexample :
  Batch.repairEntrySuccess
    (Batch.repairOutcome Sax.parseStringPromise Builder.buildObject
       Sample.blockedEnvironment "/courses" "good.zip") = true
  /\ Batch.repairLoop Sax.parseStringPromise Builder.buildObject
       Sample.blockedEnvironment "/courses" ["good.zip"; "broken.zip"]
     = Throw "EEXIST: file already exists, mkdir '/srv/scorm/repaired'"
  /\ Batch.repairFolder Sax.parseStringPromise Builder.buildObject
       Sample.blockedEnvironment "/courses"
       (Batch.Listing ["good.zip"; "broken.zip"])
     = Throw "EEXIST: file already exists, mkdir '/srv/scorm/repaired'".
Proof. repeat split; vm_compute; reflexivity. Qed.

(** C8 (amended): what each loop makes of an archive is the entry its [try]
    block builds, or, when anything in that block throws, a [success: false]
    entry carrying the archive's file name and the message; every entry
    carries the name of its archive.  The result sequence of the analyze
    loop is, in order, what each archive gives on its own, and the entries
    of a run over [before ++ zipFile :: after] are those of [before], the
    one of [zipFile], and those of [after], whatever happened to [zipFile].
    The same holds of the repair loop as long as the [mkdirSync] that
    stands before its [try] block returns; at the first archive for which
    it throws, the loop ends with that exception and returns no result
    sequence. *)
Theorem C8_batch_failures_isolated :
  forall (parse : Xml2js.parser) (build : Xml2js.builder) (env : Batch.environment)
         (folderPath : string) (zipFiles : list string),
    Batch.analyzeResults (Batch.analyzeLoop parse env folderPath zipFiles)
    = map (Batch.analyzeOutcome parse env folderPath) zipFiles
    /\ (forall zipFile,
           Batch.analyzeEntryFilename (Batch.analyzeOutcome parse env folderPath zipFile)
           = zipFile
           /\ Batch.repairEntryFilename
                (Batch.repairOutcome parse build env folderPath zipFile)
              = zipFile)
    /\ (forall zipFile message,
           Batch.analyzeAttempt parse env folderPath zipFile = Throw message ->
           Batch.analyzeOutcome parse env folderPath zipFile
           = Batch.AnalyzeError zipFile (Batch.joinPath folderPath zipFile) message)
    /\ (forall zipFile message,
           Batch.repairAttempt parse build env folderPath zipFile = Throw message ->
           Batch.repairOutcome parse build env folderPath zipFile
           = Batch.RepairError zipFile message)
    /\ (forall before zipFile after,
           zipFiles = (before ++ zipFile :: after)%list ->
           Batch.analyzeResults (Batch.analyzeLoop parse env folderPath zipFiles)
           = (Batch.analyzeResults (Batch.analyzeLoop parse env folderPath before)
              ++ Batch.analyzeOutcome parse env folderPath zipFile
              :: Batch.analyzeResults (Batch.analyzeLoop parse env folderPath after))%list)
    /\ ((forall z, In z zipFiles -> Batch.ensureRepairedDir env z = Ret tt) ->
        Batch.repairLoop parse build env folderPath zipFiles
        = Ret (map (Batch.repairOutcome parse build env folderPath) zipFiles)
        /\ forall before zipFile after,
             zipFiles = (before ++ zipFile :: after)%list ->
             exists resultsBefore resultsAfter,
               Batch.repairLoop parse build env folderPath before = Ret resultsBefore
               /\ Batch.repairLoop parse build env folderPath after = Ret resultsAfter
               /\ Batch.repairLoop parse build env folderPath zipFiles
                  = Ret (resultsBefore
                         ++ Batch.repairOutcome parse build env folderPath zipFile
                         :: resultsAfter)%list)
    /\ (forall before zipFile after message,
           zipFiles = (before ++ zipFile :: after)%list ->
           (forall z, In z before -> Batch.ensureRepairedDir env z = Ret tt) ->
           Batch.ensureRepairedDir env zipFile = Throw message ->
           Batch.repairLoop parse build env folderPath zipFiles = Throw message).
Proof.
  intros parse build env folderPath zipFiles.
  assert (Ha : forall l,
             Batch.analyzeResults (Batch.analyzeLoop parse env folderPath l)
             = map (Batch.analyzeOutcome parse env folderPath) l).
  { intros l. unfold Batch.analyzeLoop. now rewrite analyze_fold_results. }
  assert (Hr : forall l,
             (forall z, In z l -> Batch.ensureRepairedDir env z = Ret tt) ->
             Batch.repairLoop parse build env folderPath l
             = Ret (map (Batch.repairOutcome parse build env folderPath) l)).
  { intros l Hl. unfold Batch.repairLoop. now rewrite repair_fold_results. }
  split; [apply Ha|]. split; [|split; [|split; [|split; [|split]]]].
  - intros zipFile. split.
    + unfold Batch.analyzeOutcome.
      destruct (Batch.analyzeAttempt parse env folderPath zipFile) eqn:E;
        [now apply (analyzeAttempt_filename parse env folderPath) | reflexivity].
    + unfold Batch.repairOutcome.
      destruct (Batch.repairAttempt parse build env folderPath zipFile) eqn:E;
        [now apply (repairAttempt_filename parse build env folderPath) | reflexivity].
  - intros zipFile message H. unfold Batch.analyzeOutcome. now rewrite H.
  - intros zipFile message H. unfold Batch.repairOutcome. now rewrite H.
  - intros before zipFile after ->. now rewrite !Ha, !map_app.
  - intros Hdir. split; [now apply Hr|].
    intros before zipFile after ->.
    exists (map (Batch.repairOutcome parse build env folderPath) before),
           (map (Batch.repairOutcome parse build env folderPath) after).
    split; [|split].
    + apply Hr. intros z Hz. apply Hdir, in_or_app. now left.
    + apply Hr. intros z Hz. apply Hdir, in_or_app. right. now right.
    + rewrite Hr by exact Hdir. now rewrite map_app.
  - intros before zipFile after message -> Hbefore Hthrow.
    unfold Batch.repairLoop.
    now apply (repair_fold_mkdir_throws parse build env folderPath before after
                 zipFile message).
Qed.

Lemma C8_batch_failures_isolated_witness :
  Batch.repairAttempt Sax.parseStringPromise Builder.buildObject Sample.environment
    "/courses" "broken.zip"
  = Throw "Invalid or unsupported zip format. No END header found"
  /\ Batch.repairOutcome Sax.parseStringPromise Builder.buildObject Sample.environment
       "/courses" "broken.zip"
     = Batch.RepairError "broken.zip"
         "Invalid or unsupported zip format. No END header found"
  /\ option_map (map Batch.repairEntrySuccess)
       (match Batch.repairLoop Sax.parseStringPromise Builder.buildObject
                Sample.environment "/courses" ["broken.zip"; "good.zip"]
        with Ret results => Some results | Throw _ => None end)
     = Some [false; true]
  /\ Batch.repairLoop Sax.parseStringPromise Builder.buildObject
       Sample.blockedEnvironment "/courses" ["broken.zip"; "good.zip"]
     = Throw "EEXIST: file already exists, mkdir '/srv/scorm/repaired'".
Proof.
  destruct (C8_batch_failures_isolated Sax.parseStringPromise Builder.buildObject
              Sample.environment "/courses" ["broken.zip"; "good.zip"])
    as (_ & _ & _ & Hthrow & _ & Hrepair & _).
  destruct (Hrepair (fun z _ => eq_refl)) as [Hloop _].
  destruct (C8_batch_failures_isolated Sax.parseStringPromise Builder.buildObject
              Sample.blockedEnvironment "/courses" ["broken.zip"; "good.zip"])
    as (_ & _ & _ & _ & _ & _ & Hblocked).
  split; [vm_compute; reflexivity|]. split; [|split].
  - apply Hthrow. vm_compute. reflexivity.
  - rewrite Hloop. vm_compute. reflexivity.
  - apply (Hblocked [] "broken.zip" ["good.zip"]);
      [reflexivity | intros z [] | reflexivity].
Defined.

(** ** C7: the summary of a batch *)

(** C7, as stated, fails on the repair path: the answer of [/repair-folder]
    carries no summary at all. *)
Lemma C7_repair_folder_no_summary_counterexample :
  match Batch.repairFolder Sax.parseStringPromise Builder.buildObject
          Sample.environment "/courses"
          (Batch.Listing ["good.zip"; "broken.zip"; "notes.txt"])
  with
  | Ret (Batch.BatchResult _ batchSummary results) =>
      batchSummary = None /\ map Batch.repairEntrySuccess results = [true; false]
  | _ => False
  end.
Proof. vm_compute. split; reflexivity. Qed.

(** C7 (amended): the result of an analyze batch carries a summary, and its
    counts are counts over the result sequence: [totalFiles] its length,
    [failed] the number of entries whose [success] is false, the two other
    counters the numbers of successful and of resume-capable entries.  The
    result of a repair batch carries no summary; the summary the page
    derives from its result sequence has [totalFiles] the length of the
    sequence and [failed] the number of entries whose [success] is false. *)
Theorem C7_batch_summary_counts :
  forall (parse : Xml2js.parser) (build : Xml2js.builder) (env : Batch.environment)
         (folderPath : string) (dir : Batch.folder),
    (forall fp s results,
        Batch.analyzeFolder parse env folderPath dir = Batch.BatchResult fp s results ->
        exists sm,
          s = Some sm
          /\ Batch.totalFiles sm = length results
          /\ Batch.failed sm
             = length (filter (fun e => negb (Batch.analyzeEntrySuccess e)) results)
          /\ Batch.successfullyAnalyzed sm
             = length (filter Batch.analyzeEntrySuccess results)
          /\ Batch.resumeCapableCount sm
             = length (filter (fun e => Batch.analyzeEntrySuccess e
                                        && Batch.analyzeEntryResumeCapable e) results))
    /\ (forall fp s results,
           Batch.repairFolder parse build env folderPath dir
           = Ret (Batch.BatchResult fp s results) ->
           s = None
           /\ Batch.totalFiles (Batch.displayBatchRepairResults fp results)
              = length results
           /\ Batch.failed (Batch.displayBatchRepairResults fp results)
              = length (filter (fun e => negb (Batch.repairEntrySuccess e)) results)).
Proof.
  intros parse build env folderPath dir. split.
  - intros fp s results H. unfold Batch.analyzeFolder in H.
    destruct (negb (JsString.truthy folderPath)); [discriminate|].
    destruct dir as [| |files]; try discriminate.
    destruct (filter Batch.isZipToProcess files) as [|z zs] eqn:Ez; [discriminate|].
    inversion H; subst. clear H. eexists. split; [reflexivity|].
    cbn [Batch.totalFiles Batch.failed Batch.successfullyAnalyzed
         Batch.resumeCapableCount].
    pose proof (analyze_fold_counted parse env fp (z :: zs)
                  {| Batch.analyzeResults := []; Batch.successCount := 0;
                     Batch.resumeCount := 0; Batch.failedCount := 0 |}) as Hc.
    destruct Hc as (Hs & Hf & Hr); [repeat split|].
    unfold Batch.analyzeLoop. split; [|split; [|split]].
    + rewrite analyze_fold_results. cbn [Batch.analyzeResults app].
      now rewrite length_map.
    + exact Hf.
    + exact Hs.
    + exact Hr.
  - intros fp s results H. unfold Batch.repairFolder in H.
    destruct (negb (JsString.truthy folderPath)); [discriminate|].
    destruct dir as [| |files]; try discriminate.
    destruct (filter Batch.isZipToProcess files) as [|z zs] eqn:Ez; [discriminate|].
    destruct (Batch.repairLoop parse build env folderPath (z :: zs));
      cbn [bind] in H; [|discriminate].
    inversion H; subst. now repeat split.
Qed.

Lemma C7_batch_summary_counts_witness :
  exists sm results,
    Batch.analyzeFolder Sax.parseStringPromise Sample.environment "/courses"
      (Batch.Listing ["good.zip"; "broken.zip"; "good_repaired.zip"])
    = Batch.BatchResult "/courses" (Some sm) results
    /\ Batch.totalFiles sm = length results
    /\ Batch.failed sm
       = length (filter (fun e => negb (Batch.analyzeEntrySuccess e)) results)
    /\ Batch.totalFiles sm = 2 /\ Batch.failed sm = 1.
Proof.
  destruct (C7_batch_summary_counts Sax.parseStringPromise Builder.buildObject
              Sample.environment "/courses"
              (Batch.Listing ["good.zip"; "broken.zip"; "good_repaired.zip"]))
    as [Hanalyze _].
  eexists. eexists. split; [vm_compute; reflexivity|].
  edestruct Hanalyze as (sm & Hsm & Htotal & Hfailed & _);
    [vm_compute; reflexivity|].
  inversion Hsm; subst sm. clear Hsm.
  split; [exact Htotal|]. split; [exact Hfailed|]. split; reflexivity.
Defined.

(** ** Worked runs of the analyzer *)

(** Without SCO resource and persistence call the package is not resume
    capable; typing the resource [sco] flips the result. *)
Example resume_flips_with_sco :
  match Sample.analyze
          [Sample.file "imsmanifest.xml"
             "<manifest><resources><resource href='index.html'/></resources></manifest>";
           Sample.file "app.js" "API.LMSInitialize(''); set('cmi.core.lesson_status');"]
  with
  | Ret (Analyzed a) => resumeCapable a = false
  | _ => False
  end
  /\ match Sample.analyze
             [Sample.file "imsmanifest.xml"
                "<manifest><resources><resource adlcp:scormtype='sco' href='index.html'/></resources></manifest>";
              Sample.file "app.js" "API.LMSInitialize(''); set('cmi.core.lesson_status');"]
     with
     | Ret (Analyzed a) => resumeCapable a = true
     | _ => False
     end.
Proof. split; vm_compute; reflexivity. Qed.

(** ** C5: what counts as the manifest *)

(** C5, at its failing input: the archive holds no file called
    [imsmanifest.xml], only [backup_imsmanifest.xml]; [analyzeSCORM] takes
    that entry for the manifest, since its name ends with the fixed name, and
    returns a successful analysis instead of the missing-manifest failure. *)
Theorem C5_suffix_match_takes_other_file :
  forallb (fun e =>
             negb (String.eqb
                     (JsString.toLowerCase
                        (last (JsString.splitOn "/" (AdmZip.entryName e)) ""))
                     "imsmanifest.xml"))
          [Sample.file "course/backup_imsmanifest.xml"
             "<manifest><resources><resource adlcp:scormtype='sco' href='index.html'/></resources></manifest>";
           Sample.file "course/index.html" "<html></html>"]
  = true
  /\ match Sample.analyze
             [Sample.file "course/backup_imsmanifest.xml"
                "<manifest><resources><resource adlcp:scormtype='sco' href='index.html'/></resources></manifest>";
              Sample.file "course/index.html" "<html></html>"]
     with
     | Ret (Analyzed a) => hasManifest a = true /\ resumeCapable a = true
     | _ => False
     end.
Proof. split; vm_compute; [reflexivity | split; reflexivity]. Qed.

(** ** Worked runs of the repair *)

(** A package without manifest and with a plain launch file: the repair
    returns, having created the manifest. *)
Example repair_creates_manifest :
  match Sample.repair [("index.html", File "<html><head></head></html>")] with
  | Ret (report, zip) =>
      success report = true
      /\ repairs report = ["🆕 Created missing imsmanifest.xml";
                           "🔧 Fixed broken launch file → index.html";
                           "💉 Injected SCORM API shim into launch HTML"]
      /\ launchFile report = Some "index.html"
      /\ Sample.manifestHref zip = Some "index.html"
  | Throw _ => False
  end.
Proof. vm_compute. repeat split. Qed.


(** ** C1: errors leave repairSCORM as exceptions *)

(** C1, at its failing input: the manifest is well formed but its root is
    not [manifest], so [manifestObj.manifest] is undefined and fix 3 throws a
    TypeError; steps 1 and 2 do not handle it, and [repairSCORM], which has a
    [finally] but no [catch], throws it to its caller instead of returning
    [{ success: false, error }]. *)
Theorem C1_repair_throws_to_caller :
  Sample.repair
    [("imsmanifest.xml", File "<course><title>Intro</title></course>");
     ("index.html", File "<html><head></head></html>")]
  = Throw "Cannot read properties of undefined (reading '$')".
Proof. vm_compute. reflexivity. Qed.

(** ** C6: a package without manifest *)

(** C6, at its failing input: the only HTML file of the package is
    [q&a.html]; no manifest is found, the minimal manifest is synthesized
    with the file's path put into the [href] attributes as it is, the parser
    rejects the bare ampersand, the rebuild of fix 2 synthesizes the same
    text and its parse throws out of the [catch] block: the repair throws
    instead of returning [success: true]. *)
Theorem C6_ampersand_in_launch_name :
  findFile (Sample.host [("q&a.html", File "<html><head></head></html>")])
           Sample.tmpDir "imsmanifest.xml" = Ret None
  /\ findLaunchFile (Sample.host [("q&a.html", File "<html><head></head></html>")])
                    Sample.tmpDir = Ret (Some (Sample.tmpDir ++ ["q&a.html"])%list)
  /\ Sax.parseStringPromise
       (buildMinimalManifest (Path.render (Sample.tmpDir ++ ["q&a.html"])%list))
     = Throw "Invalid character in entity name"
  /\ Sample.repair [("q&a.html", File "<html><head></head></html>")]
     = Throw "Invalid character in entity name".
Proof. repeat split; vm_compute; reflexivity. Qed.

(** * Further properties of the server's functions *)

(** ** The search helpers (findFile, findFirstHtml, findLaunchFile) *)

Lemma find_append {A : Type} (f : A -> bool) (l l' : list A) :
  find f (l ++ l')
  = match find f l with
    | Some x => Some x
    | None => find f l'
    end.
Proof.
  induction l as [|a l IH]; [reflexivity|].
  cbn [app find]. now destruct (f a).
Qed.

(** The search loop returns the first listed file that passes the test. *)
Lemma search_listing (test : string -> bool) (n : node) :
  forall full,
    search test full n
    = option_map fst (find (fun f => test (last (fst f) "")) (listing full n)).
Proof.
  induction n as [content|entries IH] using node_induction; intros full;
    [reflexivity|].
  induction entries as [|[name child] tl IHtl]; [reflexivity|].
  inversion IH as [|? ? Hchild Htl]; subst. specialize (IHtl Htl).
  rewrite search_cons, (listing_Dir full ((name, child) :: tl)).
  cbn [flat_map]. rewrite find_append, <- (listing_Dir full tl), IHtl.
  destruct child as [data|sub]; cbn [isDirectory listed snd fst].
  - cbn [find fst]. rewrite last_append by discriminate. cbn [last].
    now destruct (test name).
  - cbn [snd] in Hchild. rewrite (Hchild (full ++ [name])%list).
    now destruct (find _ (listing (full ++ [name]) (Dir sub))).
Qed.

(** X1: [findFile] and [findFirstHtml] return the first file, in the order
    a depth-first listing of the directory gives, whose name is the wanted
    one up to the case of ASCII letters (for [findFirstHtml]: whose name
    ends in [.html] or [.htm]), and [null] when no listed file qualifies. *)
Theorem X1_search_first_listed :
  forall (fs : node) (dir : list string) (es : list (string * node))
         (filename : string),
    lookup fs dir = Some (Dir es) ->
    findFile fs dir filename
    = Ret (option_map fst
             (find (fun f => String.eqb (JsString.toLowerCase (last (fst f) ""))
                                        (JsString.toLowerCase filename))
                   (listing dir (Dir es))))
    /\ findFirstHtml fs dir
       = Ret (option_map fst
                (find (fun f => JsString.matchesHtml (last (fst f) ""))
                      (listing dir (Dir es)))).
Proof.
  intros fs dir es filename Hdir.
  unfold findFile, findFirstHtml, readdirSync. rewrite Hdir. cbn [bind].
  now rewrite !search_listing.
Qed.

Lemma X1_search_first_listed_witness :
  findFile (Sample.host [("content", Dir [("Index.HTML", File "a")]);
                         ("index.html", File "b")])
           Sample.tmpDir "index.html"
  = Ret (Some (Sample.tmpDir ++ ["content"; "Index.HTML"])%list).
Proof.
  destruct (X1_search_first_listed
              (Sample.host [("content", Dir [("Index.HTML", File "a")]);
                            ("index.html", File "b")])
              Sample.tmpDir
              [("content", Dir [("Index.HTML", File "a")]); ("index.html", File "b")]
              "index.html") as [H _]; [reflexivity|].
  rewrite H. reflexivity.
Defined.

Lemma firstCandidate_returns (fs : node) (dir : list string) (es : list (string * node))
      (candidates : list string) :
  lookup fs dir = Some (Dir es) ->
  exists r, firstCandidate fs dir candidates = Ret r.
Proof.
  intros Hdir. induction candidates as [|c rest IH]; cbn [firstCandidate].
  - unfold findFirstHtml, readdirSync. rewrite Hdir. cbn [bind]. eauto.
  - unfold findFile, readdirSync. rewrite Hdir. cbn [bind].
    destruct (search _ dir (Dir es)); eauto.
Qed.

Lemma firstCandidate_none (fs : node) (dir : list string) (candidates : list string) :
  firstCandidate fs dir candidates = Ret None -> findFirstHtml fs dir = Ret None.
Proof.
  induction candidates as [|c rest IH]; cbn [firstCandidate]; [auto|].
  destruct (findFile fs dir c) as [[p|]|]; cbn [bind]; try discriminate. exact IH.
Qed.

(** X2: on a directory, [findLaunchFile] returns; what it returns is a file
    of the tree whose name ends in [.html] or [.htm] (any letter case), and
    it returns [null] exactly when the tree holds no such file. *)
Theorem X2_findLaunchFile_finds_html :
  forall (fs : node) (dir : list string) (es : list (string * node)),
    lookup fs dir = Some (Dir es) ->
    wellFormed (Dir es) = true ->
    exists r,
      findLaunchFile fs dir = Ret r
      /\ (forall found,
             r = Some found ->
             exists q data,
               found = (dir ++ q)%list /\ fileAt (Dir es) q = Some data
               /\ fileAt fs found = Some data
               /\ JsString.matchesHtml (last q "") = true)
      /\ (r = None
          <-> forall q data,
                fileAt (Dir es) q = Some data ->
                JsString.matchesHtml (last q "") = false).
Proof.
  intros fs dir es Hdir Hwf.
  destruct (firstCandidate_returns fs dir es LAUNCH_CANDIDATES Hdir) as [r Hr].
  exists r. split; [exact Hr|]. split.
  - intros found ->.
    destruct (findLaunchFile_sound fs dir es found Hdir Hwf Hr)
      as (q & data & -> & Hq & Hfile & Hfs & Hhtml).
    exists q, data. repeat split; try assumption.
    now rewrite last_append in Hhtml.
  - split.
    + intros -> q data Hfile.
      apply firstCandidate_none in Hr.
      unfold findFirstHtml, readdirSync in Hr. rewrite Hdir in Hr. cbn [bind] in Hr.
      destruct (JsString.matchesHtml (last q "")) eqn:Hhtml; [|reflexivity].
      exfalso.
      assert (Hq : q <> []) by (intros ->; discriminate).
      apply (search_complete JsString.matchesHtml (Dir es) q data dir Hfile Hq Hhtml).
      now inversion Hr.
    + intros Hnone. destruct r as [found|]; [|reflexivity]. exfalso.
      destruct (findLaunchFile_sound fs dir es found Hdir Hwf Hr)
        as (q & data & -> & Hq & Hfile & _ & Hhtml).
      rewrite last_append in Hhtml by assumption.
      specialize (Hnone q data Hfile). congruence.
Qed.

Lemma X2_findLaunchFile_finds_html_witness :
  exists r,
    findLaunchFile (Sample.host [("readme.txt", File "r");
                                 ("pages", Dir [("Start.HTM", File "s")])])
                   Sample.tmpDir = Ret r
    /\ r = Some (Sample.tmpDir ++ ["pages"; "Start.HTM"])%list.
Proof.
  destruct (X2_findLaunchFile_finds_html
              (Sample.host [("readme.txt", File "r");
                            ("pages", Dir [("Start.HTM", File "s")])])
              Sample.tmpDir
              [("readme.txt", File "r"); ("pages", Dir [("Start.HTM", File "s")])])
    as (r & Hr & _); [reflexivity | reflexivity |].
  exists r. split; [exact Hr|].
  vm_compute in Hr. now inversion Hr.
Defined.

Lemma findFile_absent (fs : node) (dir : list string) (es : list (string * node))
      (c : string) :
  lookup fs dir = Some (Dir es) ->
  wellFormed (Dir es) = true ->
  JsString.toLowerCase c = c ->
  ~ hasFileNamed es c ->
  findFile fs dir c = Ret None.
Proof.
  intros Hdir Hwf Hlower Habsent.
  unfold findFile, readdirSync. rewrite Hdir. cbn [bind].
  destruct (search _ dir (Dir es)) as [found|] eqn:Hs; [|reflexivity].
  exfalso. apply Habsent.
  destruct (search_sound _ (Dir es) Hwf dir found Hs) as (q & data & _ & _ & Hfile & Ht).
  exists q, data. split; [exact Hfile|].
  apply String.eqb_eq in Ht. now rewrite Ht.
Qed.

(** X3: when no file of the tree carries one of the ten candidate names (in
    any letter case), [findLaunchFile] is [findFirstHtml]: the first listed
    file whose name ends in [.html] or [.htm]. *)
Theorem X3_findLaunchFile_fallback :
  forall (fs : node) (dir : list string) (es : list (string * node)),
    lookup fs dir = Some (Dir es) ->
    wellFormed (Dir es) = true ->
    (forall c, In c LAUNCH_CANDIDATES -> ~ hasFileNamed es c) ->
    findLaunchFile fs dir = findFirstHtml fs dir
    /\ findLaunchFile fs dir
       = Ret (option_map fst
                (find (fun f => JsString.matchesHtml (last (fst f) ""))
                      (listing dir (Dir es)))).
Proof.
  intros fs dir es Hdir Hwf Hnone.
  assert (H : forall candidates,
             (forall c, In c candidates -> In c LAUNCH_CANDIDATES) ->
             firstCandidate fs dir candidates = findFirstHtml fs dir).
  { induction candidates as [|c rest IH]; intros Hin; [reflexivity|].
    cbn [firstCandidate].
    rewrite (findFile_absent fs dir es c Hdir Hwf).
    - cbn [bind]. apply IH. intros c' Hc'. apply Hin. now right.
    - apply candidate_lowercase, Hin. now left.
    - apply Hnone, Hin. now left. }
  unfold findLaunchFile. rewrite H by auto. split; [reflexivity|].
  unfold findFirstHtml, readdirSync. rewrite Hdir. cbn [bind].
  now rewrite search_listing.
Qed.

Lemma X3_findLaunchFile_fallback_witness :
  findLaunchFile (Sample.host [("readme.txt", File "r");
                               ("pages", Dir [("Start.HTM", File "s")]);
                               ("about.html", File "a")])
                 Sample.tmpDir
  = findFirstHtml (Sample.host [("readme.txt", File "r");
                                ("pages", Dir [("Start.HTM", File "s")]);
                                ("about.html", File "a")])
                  Sample.tmpDir.
Proof.
  apply (X3_findLaunchFile_fallback
           (Sample.host [("readme.txt", File "r");
                         ("pages", Dir [("Start.HTM", File "s")]);
                         ("about.html", File "a")])
           Sample.tmpDir
           [("readme.txt", File "r"); ("pages", Dir [("Start.HTM", File "s")]);
            ("about.html", File "a")]); try reflexivity.
  intros c Hc (q & data & Hfile & Hname).
  assert (Hin : In (q, data)
                   (listing [] (Dir [("readme.txt", File "r");
                                     ("pages", Dir [("Start.HTM", File "s")]);
                                     ("about.html", File "a")]))).
  { apply listing_spec; [reflexivity|]. exists q. repeat split; [|exact Hfile].
    intros ->. discriminate. }
  cbn in Hin. destruct Hin as [Hin|[Hin|[Hin|[]]]];
    inversion Hin; subst q; cbn in Hname; subst c;
    cbv in Hc; intuition discriminate.
Defined.

(** ** The analyzer: failures and report lines *)

(** X4: [analyzeSCORM] never throws.  Whatever its body throws comes back as
    [{ success: false, error: message }]: an archive that cannot be opened,
    a manifest entry that cannot be read, a manifest the parser rejects; a
    document the parser returns as [null] or whose root element is not
    [manifest] fails with the message of the TypeError raised by the first
    property read, [result.manifest] on [null] and [manifest.metadata] on
    [undefined]. *)
Theorem X4_analyzeSCORM_failure_modes :
  forall (parse : Xml2js.parser) (zipOpen : outcome (list AdmZip.entry)),
    (exists r, analyzeSCORM parse zipOpen = Ret r)
    /\ (forall message,
           zipOpen = Throw message ->
           analyzeSCORM parse zipOpen = Ret (AnalysisFailed message))
    /\ (forall zipEntries manifestEntry,
           zipOpen = Ret zipEntries ->
           find isManifestEntry zipEntries = Some manifestEntry ->
           (forall message,
               AdmZip.getData manifestEntry = Throw message ->
               analyzeSCORM parse zipOpen = Ret (AnalysisFailed message))
           /\ (forall manifestContent,
                  AdmZip.getData manifestEntry = Ret manifestContent ->
                  (forall message,
                      parse manifestContent = Throw message ->
                      analyzeSCORM parse zipOpen = Ret (AnalysisFailed message))
                  /\ (parse manifestContent = Ret None ->
                      analyzeSCORM parse zipOpen
                      = Ret (AnalysisFailed
                               "Cannot read properties of null (reading 'manifest')"))
                  /\ (forall name root,
                         parse manifestContent = Ret (Some (name, root)) ->
                         name <> "manifest" ->
                         analyzeSCORM parse zipOpen
                         = Ret (AnalysisFailed
                                  "Cannot read properties of undefined (reading 'metadata')")))).
Proof.
  intros parse zipOpen. split; [|split].
  - unfold analyzeSCORM. destruct (analyzeBody parse zipOpen); cbn [tryCatch]; eauto.
  - intros message ->. reflexivity.
  - intros zipEntries manifestEntry -> Hfind.
    unfold analyzeSCORM, analyzeBody. cbn [bind]. rewrite Hfind. split.
    + intros message ->. reflexivity.
    + intros manifestContent ->. cbn [bind]. split; [|split].
      * intros message ->. reflexivity.
      * intros ->. reflexivity.
      * intros name root -> Hname. cbn [bind Js.root].
        apply String.eqb_neq in Hname. rewrite Hname. reflexivity.
Qed.

Lemma X4_analyzeSCORM_failure_modes_witness :
  Sample.analyze [Sample.file "imsmanifest.xml" "<course><title>Intro</title></course>"]
  = Ret (AnalysisFailed "Cannot read properties of undefined (reading 'metadata')").
Proof.
  destruct (X4_analyzeSCORM_failure_modes Sax.parseStringPromise
              (Ret [Sample.file "imsmanifest.xml"
                      "<course><title>Intro</title></course>"]))
    as (_ & _ & H).
  destruct (H [Sample.file "imsmanifest.xml" "<course><title>Intro</title></course>"]
              (Sample.file "imsmanifest.xml" "<course><title>Intro</title></course>")
              eq_refl eq_refl) as (_ & H').
  destruct (H' "<course><title>Intro</title></course>" eq_refl) as (_ & _ & Hroot).
  apply (Hroot "course" (Xml2js.Element None None [("title", [Xml2js.Text "Intro"])])).
  - vm_compute. reflexivity.
  - discriminate.
Defined.

Lemma ordinary_app (l1 l2 : list string) :
  Forall ordinaryLine l1 -> Forall ordinaryLine l2 -> Forall ordinaryLine (l1 ++ l2).
Proof. intros H1 H2. apply Forall_app. now split. Qed.

Lemma versionBlock_lines (m : option Xml2js.value) (lines : list string)
      (v : option Xml2js.value) :
  versionBlock m = Ret (lines, v) -> Forall ordinaryLine lines.
Proof.
  unfold versionBlock. intros H.
  step_bind H. destruct a as [mds|]; [|inversion H; constructor].
  step_bind H. destruct a as [svs|]; inversion H; subst; repeat constructor.
Qed.

Lemma titleBlock_lines (m : option Xml2js.value) (lines : list string)
      (t : option string) :
  titleBlock m = Ret (lines, t) -> Forall ordinaryLine lines.
Proof.
  unfold titleBlock. intros H.
  step_bind H. destruct a as [mds|]; [|inversion H; constructor].
  step_bind H. destruct a as [loms|]; [|inversion H; constructor].
  step_bind H. destruct a as [gs|]; [|inversion H; constructor].
  step_bind H. destruct a as [ts|]; [|inversion H; constructor].
  step_bind H. destruct a as [ls|]; [|inversion H; constructor].
  step_bind H. destruct a as [title|]; [|inversion H; constructor].
  destruct (JsString.truthy title); inversion H; subst; repeat constructor.
Qed.

Lemma itemLines_lines (org : Xml2js.value) : Forall ordinaryLine (itemLines org).
Proof.
  unfold itemLines. destruct (Xml2js.children org "item") as [items|]; [|constructor].
  induction items as [|item items IH]; [constructor|].
  cbn [flat_map]. apply ordinary_app; [|exact IH].
  destruct (Xml2js.attributes item) as [a|]; [|constructor].
  destruct (Xml2js.truthyAttr a "identifierref"); repeat constructor.
Qed.

Lemma organizationsBlock_lines (m : option Xml2js.value) (lines : list string) :
  organizationsBlock m = Ret lines -> Forall ordinaryLine lines.
Proof.
  unfold organizationsBlock. intros H.
  step_bind H. destruct a as [os|]; [|inversion H; constructor].
  step_bind H. destruct a as [orgs|]; inversion H; subst; [|constructor].
  constructor; [repeat constructor|].
  clear. induction orgs as [|org orgs IH]; [constructor|].
  cbn [flat_map]. apply ordinary_app; [apply itemLines_lines | exact IH].
Qed.

Lemma resourcesBlock_lines (m : option Xml2js.value) (lines : list string)
      (found : bool) (launch : option string) :
  resourcesBlock m = Ret (lines, found, launch) -> Forall ordinaryLine lines.
Proof.
  unfold resourcesBlock. intros H.
  step_bind H. destruct a as [rs|]; [|inversion H; constructor].
  step_bind H. destruct a as [resources|]; [|inversion H; constructor].
  step_bind H. inversion H; subst.
  destruct (0 <? length (filter isSco resources))%nat; repeat constructor.
Qed.

(** X5: in a successful analysis the report says so when no resume
    indicator was found, and only then: the line [No clear resume
    capability indicators found] (and the note that follows it) is among
    [details] exactly when [resumeCapable] is [false]; [details] is never
    empty. *)
Theorem X5_details_agree_with_classification :
  forall (parse : Xml2js.parser) (zipOpen : outcome (list AdmZip.entry)) (a : analysis),
    analyzeSCORM parse zipOpen = Ret (Analyzed a) ->
    (In "⚠️ No clear resume capability indicators found" (details a)
     <-> resumeCapable a = false)
    /\ (In "ℹ️ Package may still support resume if implemented at runtime" (details a)
        <-> resumeCapable a = false)
    /\ details a <> [].
Proof.
  intros parse zipOpen a H. apply analyzeSCORM_Analyzed in H.
  unfold analyzeBody in H.
  step_bind H. rename a0 into zipEntries.
  destruct (find isManifestEntry zipEntries) as [manifestEntry|]; [|discriminate].
  step_bind H. step_bind H. step_bind H. rename a2 into root.
  step_bind H. destruct a2 as [versionLines version].
  step_bind H. destruct a2 as [titleLines title].
  step_bind H. rename a2 into organizationLines.
  step_bind H. destruct a2 as [[resourceLines scoFound] launchFile].
  destruct (fold_left scanScript _ (false, [])) as [has calls].
  inversion H; subst a; clear H. cbn [resumeCapable details].
  assert (Hord : Forall ordinaryLine
                   (versionLines ++ titleLines ++ organizationLines ++ resourceLines
                    ++ (if has
                        then [("✅ Found SCORM API calls: "
                               ++ String.concat ", " (Js.unique [] calls))%string]
                        else []))%list).
  { repeat apply ordinary_app.
    - eapply versionBlock_lines; eassumption.
    - eapply titleBlock_lines; eassumption.
    - eapply organizationsBlock_lines; eassumption.
    - eapply resourcesBlock_lines; eassumption.
    - destruct has; repeat constructor. }
  rewrite !app_assoc in *.
  set (body := (((((versionLines ++ titleLines) ++ organizationLines) ++ resourceLines)
                 ++ _)%list)) in *.
  assert (Hno : forall w, In w body -> ordinaryLine w)
    by (now apply Forall_forall).
  destruct (scoFound || has) eqn:Eresume.
  - rewrite app_nil_r. split; [|split].
    + split; [|discriminate]. intros Hin. apply Hno in Hin as [Hw _]. discriminate.
    + split; [|discriminate]. intros Hin. apply Hno in Hin as [_ Hi]. discriminate.
    + subst body. intros Hnil. apply app_eq_nil in Hnil as [Hnil Hapi].
      apply app_eq_nil in Hnil as [_ Hres].
      apply orb_true_iff in Eresume as [Hsco | Hhas].
      * subst scoFound.
        unfold resourcesBlock in E6.
        step_bind E6. destruct a as [rs|]; [|inversion E6].
        step_bind E6. destruct a as [resources|]; [|inversion E6].
        step_bind E6. inversion E6 as [[Hlines Hfound]].
        rewrite Hfound in Hlines. rewrite <- Hlines in Hres. discriminate.
      * subst has. discriminate.
  - split; [|split].
    + split; [reflexivity|]. intros _. apply in_or_app. right. now left.
    + split; [reflexivity|]. intros _. apply in_or_app. right. right. now left.
    + intros Hnil. apply app_eq_nil in Hnil as [_ Hnil]. discriminate.
Qed.

Lemma X5_details_agree_with_classification_witness :
  exists a,
    Sample.analyze
      [Sample.file "imsmanifest.xml"
         "<manifest><resources><resource href='index.html'/></resources></manifest>";
       Sample.file "app.js" "API.LMSInitialize('');"]
    = Ret (Analyzed a)
    /\ resumeCapable a = false
    /\ In "⚠️ No clear resume capability indicators found" (details a).
Proof.
  eexists. split; [vm_compute; reflexivity|]. split; [reflexivity|].
  apply (X5_details_agree_with_classification Sax.parseStringPromise
           (Ret [Sample.file "imsmanifest.xml"
                   "<manifest><resources><resource href='index.html'/></resources></manifest>";
                 Sample.file "app.js" "API.LMSInitialize('');"]));
    [vm_compute; reflexivity | reflexivity].
Defined.

(** ** Fix 6: the shim tag in the launch document *)

Lemma includes_mid (a b c pat : string) :
  JsString.includes b pat = true -> JsString.includes (a ++ b ++ c) pat = true.
Proof.
  intros Hb.
  destruct (JsString.includes (a ++ b ++ c) pat) eqn:E; [reflexivity|].
  apply includes_app_r, includes_app_l in E. congruence.
Qed.

(** After the insertion the document mentions the shim. *)
Lemma injectShimTag_mentions (html : string) :
  JsString.includes (injectShimTag html) "scorm-api-shim.js" = true.
Proof.
  unfold injectShimTag.
  destruct (JsString.includes html "<head>") eqn:Hhead.
  - destruct (indexSplit_includes _ _ Hhead) as (pre & post & Hsplit).
    unfold JsString.replace. rewrite Hsplit.
    rewrite getSubstitution_free by reflexivity.
    apply includes_mid. apply (includes_mid ("<head>" ++ JsString.nl) shimTag "").
    reflexivity.
  - destruct (JsString.includes html "</head>") eqn:Hend.
    + destruct (indexSplit_includes _ _ Hend) as (pre & post & Hsplit).
      unfold JsString.replace. rewrite Hsplit.
      rewrite getSubstitution_free by reflexivity.
      apply includes_mid. apply (includes_mid "" shimTag "</head>"). reflexivity.
    + apply (includes_mid "" shimTag html). reflexivity.
Qed.

Lemma dropPrefix_app (pat b : string) : JsString.dropPrefix (pat ++ b) pat = Some b.
Proof.
  induction pat as [|c pat IH]; cbn [append JsString.dropPrefix].
  - now destruct b.
  - now rewrite Ascii.eqb_refl.
Qed.

Lemma startsWith_self (pat b : string) : JsString.startsWith (pat ++ b) pat = true.
Proof.
  induction pat as [|c pat IH]; cbn [append JsString.startsWith].
  - now destruct b.
  - now rewrite Ascii.eqb_refl.
Qed.

Lemma includes_occurrence (a pat b : string) :
  JsString.includes (a ++ pat ++ b) pat = true.
Proof.
  induction a as [|c a IH]; cbn [append].
  - destruct (pat ++ b) eqn:E; cbn [JsString.includes]; rewrite <- E;
      now rewrite startsWith_self.
  - cbn [JsString.includes]. rewrite IH. apply orb_true_r.
Qed.

Lemma not_included (s pat : string) :
  JsString.includes s pat = false -> forall a b, s <> a ++ pat ++ b.
Proof.
  intros H a b ->. now rewrite includes_occurrence in H.
Qed.

(** [indexSplit] cuts at the first occurrence: no occurrence of the pattern
    begins before the cut. *)
Lemma indexSplit_first (pat s : string) :
  forall pre post,
    JsString.indexSplit s pat = Some (pre, post) ->
    forall a b, s = a ++ pat ++ b -> String.length pre <= String.length a.
Proof.
  induction s as [|d s IH]; intros pre post H a b Hs;
    cbn [JsString.indexSplit] in H.
  - destruct (JsString.dropPrefix "" pat); [|discriminate].
    inversion H. cbn. lia.
  - destruct (JsString.dropPrefix (String d s) pat) eqn:E.
    + inversion H. cbn. lia.
    + destruct (JsString.indexSplit s pat) as [[pre' post']|] eqn:E';
        [|discriminate].
      inversion H; subst pre post. clear H.
      destruct a as [|c a].
      * cbn [append] in Hs. rewrite Hs, dropPrefix_app in E. discriminate.
      * cbn [append] in Hs. inversion Hs; subst c s.
        cbn [String.length]. apply le_n_S. exact (IH _ _ eq_refl a b eq_refl).
Qed.

(** X6: where the shim tag goes.  The tag is put at one place and the rest
    of the launch document is kept around it: right after the first
    [<head>], on a line of its own; in a document without [<head>], right
    before the first [</head>]; in a document with neither, in front.  The
    result mentions [scorm-api-shim.js]. *)
Theorem X6_shim_tag_is_inserted :
  forall html : string,
    ((exists pre post,
         html = pre ++ "<head>" ++ post
         /\ (forall a b,
                html = a ++ "<head>" ++ b -> String.length pre <= String.length a)
         /\ injectShimTag html = pre ++ "<head>" ++ JsString.nl ++ shimTag ++ post)
     \/ ((forall a b, html <> a ++ "<head>" ++ b)
         /\ exists pre post,
              html = pre ++ "</head>" ++ post
              /\ (forall a b,
                     html = a ++ "</head>" ++ b ->
                     String.length pre <= String.length a)
              /\ injectShimTag html = pre ++ shimTag ++ "</head>" ++ post)
     \/ ((forall a b, html <> a ++ "<head>" ++ b)
         /\ (forall a b, html <> a ++ "</head>" ++ b)
         /\ injectShimTag html = shimTag ++ html))
    /\ JsString.includes (injectShimTag html) "scorm-api-shim.js" = true.
Proof.
  intros html. split; [|apply injectShimTag_mentions].
  unfold injectShimTag.
  destruct (JsString.includes html "<head>") eqn:Hhead.
  - left. destruct (indexSplit_includes _ _ Hhead) as (pre & post & Hsplit).
    exists pre, post. split; [now apply indexSplit_spec|].
    split; [exact (indexSplit_first _ _ _ _ Hsplit)|].
    unfold JsString.replace. rewrite Hsplit.
    rewrite getSubstitution_free by reflexivity.
    now rewrite !append_assoc.
  - right. pose proof (not_included _ _ Hhead) as Hno.
    destruct (JsString.includes html "</head>") eqn:Hend.
    + left. split; [exact Hno|].
      destruct (indexSplit_includes _ _ Hend) as (pre & post & Hsplit).
      exists pre, post. split; [now apply indexSplit_spec|].
      split; [exact (indexSplit_first _ _ _ _ Hsplit)|].
      unfold JsString.replace. rewrite Hsplit.
      rewrite getSubstitution_free by reflexivity.
      now rewrite !append_assoc.
    + right. split; [exact Hno|]. split; [exact (not_included _ _ Hend)|].
      reflexivity.
Qed.

(** X7: Fix 6 runs once.  Applied to the file system and the log it has
    produced, the step changes neither: the launch document now mentions
    [scorm-api-shim.js], so the guard skips it. *)
Theorem X7_shim_tag_step_idempotent :
  forall (fs : node) (manifestPath : list string) (launch : option string)
         (repairs : list string) (fs' : node) (repairs' : list string),
    injectIntoLaunch fs manifestPath launch repairs = Ret (fs', repairs') ->
    injectIntoLaunch fs' manifestPath launch repairs' = Ret (fs', repairs').
Proof.
  intros fs manifestPath launch repairs fs' repairs' H.
  unfold injectIntoLaunch in *.
  destruct launch as [launchFile|]; [|now inversion H].
  destruct (JsString.truthy launchFile); [|now inversion H].
  set (joined := Path.join (Path.dirname manifestPath) launchFile) in *.
  destruct (existsSync fs joined && Path.matchesHtml joined) eqn:Eguard;
    [|inversion H; subst; now rewrite Eguard].
  apply andb_true_iff in Eguard as [Hexists Hhtml].
  destruct (readFileSync fs joined) as [html|] eqn:Eread; cbn [bind] in H;
    [|discriminate].
  destruct (JsString.includes html "scorm-api-shim.js") eqn:Eshim.
  - inversion H; subst. rewrite Hexists, Hhtml, Eread. cbn [andb bind].
    now rewrite Eshim.
  - destruct (writeFileSync fs joined (injectShimTag html)) as [fs1|] eqn:Ewrite;
      cbn [bind] in H; [|discriminate].
    inversion H; subst fs1 repairs'. clear H.
    unfold writeFileSync in Ewrite.
    destruct (snd joined) eqn:Etrail; [discriminate|].
    destruct (writeAt fs (fst joined) (injectShimTag html)) as [fs1|] eqn:Ew;
      [|discriminate].
    inversion Ewrite; subst fs1. clear Ewrite.
    destruct (fileAt_writeAt _ _ _ _ Ew (fst joined)) as [Hsame _].
    specialize (Hsame eq_refl). unfold fileAt in Hsame.
    destruct (lookup fs' (fst joined)) as [[c|sub]|] eqn:Elook; try discriminate.
    inversion Hsame; subst c.
    unfold existsSync, readFileSync. rewrite Elook, Etrail, Hhtml. cbn [negb andb bind].
    now rewrite injectShimTag_mentions.
Qed.

Lemma X7_shim_tag_step_idempotent_witness :
  exists fs' repairs',
    injectIntoLaunch (Sample.host Sample.goodPackage)
      (Sample.tmpDir ++ ["imsmanifest.xml"])%list (Some "index.html") []
    = Ret (fs', repairs')
    /\ repairs' = ["💉 Injected SCORM API shim into launch HTML"]
    /\ injectIntoLaunch fs' (Sample.tmpDir ++ ["imsmanifest.xml"])%list
         (Some "index.html") repairs'
       = Ret (fs', repairs').
Proof.
  eexists. eexists. split; [vm_compute; reflexivity|]. split; [reflexivity|].
  apply (X7_shim_tag_step_idempotent (Sample.host Sample.goodPackage)
           (Sample.tmpDir ++ ["imsmanifest.xml"])%list (Some "index.html") []).
  vm_compute. reflexivity.
Defined.

(** ** createUpdatedZip: both snippets, then the archive *)

Lemma wellFormed_visit (marker block : string) (n : node) :
  forall name, wellFormed (visit marker block name n) = wellFormed n.
Proof.
  induction n as [c|es IH] using node_induction; intros name.
  - cbn [visit]. now destruct (JsString.matchesHtml name).
  - cbn [visit wellFormed]. rewrite map_map. cbn [fst]. f_equal.
    induction es as [|[n child] es IHes]; [reflexivity|].
    inversion IH as [|? ? Hchild Hrest]; subst.
    cbn [map forallb fst snd]. cbn [snd] in Hchild.
    now rewrite Hchild, (IHes Hrest).
Qed.

Lemma wellFormed_walk (marker block : string) (es : list (string * node)) :
  wellFormed (Dir (walk marker block es)) = wellFormed (Dir es).
Proof. exact (wellFormed_visit marker block (Dir es) ""). Qed.

Lemma fileAt_walk_inv (marker block : string) (es : list (string * node))
      (p : list string) (out : string) :
  fileAt (Dir (walk marker block es)) p = Some out ->
  exists html, fileAt (Dir es) p = Some html.
Proof.
  unfold fileAt.
  change (Dir (walk marker block es)) with (visit marker block "" (Dir es)).
  rewrite lookup_visit.
  destruct (lookup (Dir es) p) as [[c|sub]|]; cbn [option_map visit]; try discriminate.
  intros _. now exists c.
Qed.

Section OtherPattern.

(** The snippet being inserted. *)
Variable marker : string.
Hypothesis marker_ok : markerOk marker = true.
Variable src : string.
Hypothesis src_clean : cleanSource marker src = true.

(** The text being counted. *)
Variable m : string.
Hypothesis m_nonempty : m <> "".
Hypothesis m_newline : JsString.hasChar "010" m = false.
Hypothesis m_lt : JsString.hasChar "<" m = false.
Hypothesis m_gt : JsString.hasChar ">" m = false.
Hypothesis m_comment :
  JsString.includes ("/* === " ++ marker ++ " === */") m = false.
Hypothesis m_src : JsString.includes src m = false.
Hypothesis m_script : JsString.includes "script" m = false.
Hypothesis m_endscript : JsString.includes "/script" m = false.

Let block := inlineBlock marker src.

Lemma occurrences_empty : JsString.occurrences "" m = 0.
Proof. cbn [JsString.occurrences]. now rewrite (startsWith_empty m m_nonempty). Qed.

Lemma occurrences_zero (s : string) :
  JsString.includes s m = false -> JsString.occurrences s m = 0.
Proof. apply includes_occurrences. Qed.

(** The block, followed by anything, adds no occurrence. *)
Lemma occurrences_other_block (x y : string) :
  JsString.occurrences (x ++ block ++ y) m
  = JsString.occurrences x m + JsString.occurrences y m.
Proof.
  unfold block. rewrite (block_shape marker src).
  change (x ++ "<script>" ++ JsString.nl
            ++ ("/* === " ++ marker ++ " === */") ++ JsString.nl
            ++ src ++ JsString.nl ++ "</script>" ++ JsString.nl ++ y)
    with (x ++ String "<"
            (("script" ++ String ">" "") ++ String "010"
               (("/* === " ++ marker ++ " === */") ++ String "010"
                  (src ++ String "010"
                     ("" ++ String "<"
                        (("/script" ++ String ">" "") ++ String "010" y)))))).
  rewrite (occurrences_sep "<" m m_lt m_nonempty).
  rewrite !(occurrences_sep "010" m m_newline m_nonempty).
  rewrite (occurrences_sep "<" m m_lt m_nonempty "").
  rewrite !(occurrences_sep "010" m m_newline m_nonempty).
  rewrite !(occurrences_sep ">" m m_gt m_nonempty).
  rewrite occurrences_empty, (occurrences_zero _ m_comment), (occurrences_zero _ m_src),
    (occurrences_zero _ m_script), (occurrences_zero _ m_endscript).
  lia.
Qed.

(** Inserting the snippet leaves the number of occurrences of [m] as it
    was. *)
Lemma injectDocument_other (html : string) :
  JsString.occurrences (injectDocument marker block html) m
  = JsString.occurrences html m.
Proof.
  unfold injectDocument.
  destruct (JsString.includes html marker); [reflexivity|].
  destruct (JsString.includes html "<head>") eqn:Hhead.
  - destruct (indexSplit_includes _ _ Hhead) as (pre & post & Hsplit).
    unfold JsString.replace. rewrite Hsplit.
    apply indexSplit_spec in Hsplit. subst html.
    rewrite getSubstitution_free.
    2:{ replace ("<head>" ++ JsString.nl ++ block)
          with (("<head>" ++ JsString.nl) ++ block ++ "")
          by now rewrite append_empty_r.
        apply (block_substFree marker marker_ok src src_clean); reflexivity. }
    replace (pre ++ ("<head>" ++ JsString.nl ++ block) ++ post)
      with (((pre ++ "<head") ++ String ">" "") ++ String "010" (block ++ post))
      by (now rewrite !append_assoc).
    replace (pre ++ "<head>" ++ post) with ((pre ++ "<head") ++ String ">" post)
      by (now rewrite !append_assoc).
    rewrite (occurrences_sep "010" m m_newline m_nonempty).
    rewrite !(occurrences_sep ">" m m_gt m_nonempty).
    pose proof (occurrences_other_block "" post) as Hb. cbn [append] in Hb.
    rewrite Hb, occurrences_empty. lia.
  - destruct (JsString.includes html "</head>") eqn:Hend.
    + destruct (indexSplit_includes _ _ Hend) as (pre & post & Hsplit).
      unfold JsString.replace. rewrite Hsplit.
      apply indexSplit_spec in Hsplit. subst html.
      rewrite getSubstitution_free.
      2:{ change (block ++ "</head>") with ("" ++ block ++ "</head>").
          apply (block_substFree marker marker_ok src src_clean); reflexivity. }
      rewrite (append_assoc block).
      rewrite occurrences_other_block.
      change (pre ++ "</head>" ++ post) with (pre ++ String "<" ("/head>" ++ post)).
      rewrite (occurrences_sep "<" m m_lt m_nonempty).
      change ("</head>" ++ post) with ("" ++ String "<" ("/head>" ++ post)).
      rewrite (occurrences_sep "<" m m_lt m_nonempty "").
      rewrite occurrences_empty. lia.
    + pose proof (occurrences_other_block "" html) as Hb. cbn [append] in Hb.
      rewrite Hb, occurrences_empty. lia.
Qed.

End OtherPattern.

(** After the guard and the insertion a document holds the marker as often
    as before, and at least once. *)
Lemma injectDocument_count (marker src html : string) :
  markerOk marker = true ->
  cleanSource marker src = true ->
  JsString.occurrences (injectDocument marker (inlineBlock marker src) html) marker
  = Nat.max 1 (JsString.occurrences html marker).
Proof.
  intros Hok Hclean.
  destruct (JsString.includes html marker) eqn:Hin.
  - rewrite (injectDocument_skip marker src html Hin).
    destruct (JsString.occurrences html marker) eqn:Hocc; [|lia].
    apply includes_occurrences in Hocc. congruence.
  - rewrite (injectDocument_fresh marker Hok src Hclean html Hin).
    apply includes_occurrences in Hin. now rewrite Hin.
Qed.

Lemma createUpdatedZip_tree (shim tracker : string) (tmpDir : list string) (fs : node)
      (es : list (string * node)) (origName : string) :
  lookup fs tmpDir = Some (Dir es) ->
  createUpdatedZip (Ret shim) (Ret tracker) tmpDir (Ret fs) origName
  = Ret (origName ++ "_updated.zip",
         addDirToZip [] tmpDir tmpDir
           (Dir (walk trackerMarker (trackerBlock tracker)
                   (walk shimMarker (shimBlock shim) es)))).
Proof. intros Hdir. unfold createUpdatedZip. cbn [bind]. now rewrite Hdir. Qed.

(** X8: [createUpdatedZip] keeps the file set.  For a package as extraction
    leaves it, the archive written under [updated/] has exactly one entry
    per file of the package, under the file's relative path; a file whose
    name does not end in [.html] or [.htm] keeps its content; an HTML file
    that is well-formed UTF-8 holds what the shim pass followed by the
    tracker pass make of it, the two sources being text.  The name returned
    is [origName_updated.zip]. *)
Theorem X8_updated_archive_files :
  forall (shim tracker : string) (tmpDir : list string) (fs : node)
         (es : list (string * node)) (origName : string),
    lookup fs tmpDir = Some (Dir es) ->
    wellFormed (Dir es) = true ->
    exists zip,
      createUpdatedZip (Ret shim) (Ret tracker) tmpDir (Ret fs) origName
      = Ret (origName ++ "_updated.zip", zip)
      /\ (forall p data,
             fileAt (Dir es) p = Some data ->
             exists out, In (String.concat "/" p, out) zip)
      /\ (forall p data,
             fileAt (Dir es) p = Some data ->
             JsString.matchesHtml (last p "") = false ->
             In (String.concat "/" p, data) zip)
      /\ (forall p data,
             fileAt (Dir es) p = Some data ->
             JsString.matchesHtml (last p "") = true ->
             Utf8.valid data = true ->
             Utf8.valid shim = true ->
             Utf8.valid tracker = true ->
             In (String.concat "/" p,
                 injectDocument trackerMarker (trackerBlock tracker)
                   (injectDocument shimMarker (shimBlock shim) data)) zip)
      /\ (forall name out,
             In (name, out) zip ->
             exists p data, name = String.concat "/" p /\ fileAt (Dir es) p = Some data)
      /\ NoDup (map fst zip).
Proof.
  intros shim tracker tmpDir fs es origName Hdir Hwf.
  eexists. split; [exact (createUpdatedZip_tree _ _ _ _ es _ Hdir)|].
  set (es1 := walk shimMarker (shimBlock shim) es).
  set (es2 := walk trackerMarker (trackerBlock tracker) es1).
  assert (Hwf2 : wellFormed (Dir es2) = true).
  { unfold es2, es1. now rewrite !wellFormed_walk. }
  destruct (repack_spec tmpDir es2 Hwf2) as (Hin & Hout & Hnodup).
  assert (Hfile2 : forall p data,
             fileAt (Dir es) p = Some data ->
             fileAt (Dir es2) p
             = Some (if JsString.matchesHtml (last p "")
                     then injectDocument trackerMarker (trackerBlock tracker)
                            (injectDocument shimMarker (shimBlock shim) data)
                     else data)).
  { intros p data Hfile. unfold es2.
    pose proof (fileAt_walk shimMarker (shimBlock shim) es p data Hfile) as H1.
    fold es1 in H1.
    rewrite (fileAt_walk trackerMarker (trackerBlock tracker) es1 p _ H1).
    now destruct (JsString.matchesHtml (last p "")). }
  split; [|split; [|split; [|split; [|exact Hnodup]]]].
  - intros p data Hfile. eexists. apply Hin, (Hfile2 _ _ Hfile).
  - intros p data Hfile Hhtml. apply Hin. rewrite (Hfile2 _ _ Hfile).
    now rewrite Hhtml.
  - intros p data Hfile Hhtml _ _ _. apply Hin. rewrite (Hfile2 _ _ Hfile).
    now rewrite Hhtml.
  - intros name out Hzip. destruct (Hout name out Hzip) as (p & -> & Hfile).
    unfold es2 in Hfile. apply fileAt_walk_inv in Hfile as [d1 Hfile].
    unfold es1 in Hfile. apply fileAt_walk_inv in Hfile as [data Hfile].
    now exists p, data.
Qed.

Lemma X8_updated_archive_files_witness :
  exists zip out,
    createUpdatedZip (Ret "var API;") (Ret "track();") Sample.tmpDir
      (Ret (Sample.host Sample.goodPackage)) "course"
    = Ret ("course_updated.zip", zip)
    /\ map fst zip = ["imsmanifest.xml"; "index.html"]
    /\ In ("index.html", out) zip
    /\ JsString.includes out "var API;" = true
    /\ JsString.includes out "track();" = true.
Proof.
  destruct (X8_updated_archive_files "var API;" "track();" Sample.tmpDir
              (Sample.host Sample.goodPackage) Sample.goodPackage "course")
    as (zip & Hzip & _ & _ & Hhtml & _); [reflexivity | reflexivity |].
  exists zip. eexists. split; [exact Hzip|].
  split; [vm_compute in Hzip; inversion Hzip; reflexivity|].
  split; [apply (Hhtml ["index.html"] "<html><head></head></html>"); reflexivity|].
  split; vm_compute; reflexivity.
Defined.

(** X9: in the archive [createUpdatedZip] writes, every HTML document of the
    package carries both snippets: the shim marker and the tracker marker
    each occur as often as in the original document, and at least once (so
    exactly once in a document that held neither).  The two sources are
    asked to be free of [$] patterns and of both markers. *)
Theorem X9_updated_documents_carry_both_snippets :
  forall (shim tracker : string) (tmpDir : list string) (fs : node)
         (es : list (string * node)) (origName : string),
    lookup fs tmpDir = Some (Dir es) ->
    wellFormed (Dir es) = true ->
    cleanSource shimMarker shim = true ->
    cleanSource trackerMarker tracker = true ->
    JsString.includes shim trackerMarker = false ->
    JsString.includes tracker shimMarker = false ->
    exists name zip,
      createUpdatedZip (Ret shim) (Ret tracker) tmpDir (Ret fs) origName
      = Ret (name, zip)
      /\ forall p html,
           fileAt (Dir es) p = Some html ->
           JsString.matchesHtml (last p "") = true ->
           exists out,
             In (String.concat "/" p, out) zip
             /\ JsString.occurrences out shimMarker
                = Nat.max 1 (JsString.occurrences html shimMarker)
             /\ JsString.occurrences out trackerMarker
                = Nat.max 1 (JsString.occurrences html trackerMarker).
Proof.
  intros shim tracker tmpDir fs es origName Hdir Hwf Hshim Htracker Hst Hts.
  eexists. eexists. split; [exact (createUpdatedZip_tree _ _ _ _ es _ Hdir)|].
  intros p html Hfile Hhtml.
  set (d1 := injectDocument shimMarker (shimBlock shim) html).
  exists (injectDocument trackerMarker (trackerBlock tracker) d1).
  split; [|split].
  - assert (Hwf2 : wellFormed
                     (Dir (walk trackerMarker (trackerBlock tracker)
                             (walk shimMarker (shimBlock shim) es))) = true)
      by (now rewrite !wellFormed_walk).
    destruct (repack_spec tmpDir _ Hwf2) as (Hin & _). apply Hin.
    pose proof (fileAt_walk shimMarker (shimBlock shim) es p html Hfile) as H1.
    rewrite (fileAt_walk trackerMarker (trackerBlock tracker) _ p _ H1).
    now rewrite Hhtml.
  - unfold trackerBlock.
    rewrite (injectDocument_other trackerMarker eq_refl tracker Htracker shimMarker);
      try reflexivity; try assumption; try discriminate.
    unfold d1, shimBlock. now apply injectDocument_count.
  - unfold trackerBlock. rewrite injectDocument_count by (reflexivity || assumption).
    unfold d1, shimBlock.
    rewrite (injectDocument_other shimMarker eq_refl shim Hshim trackerMarker);
      try reflexivity; try assumption; discriminate.
Qed.

Lemma X9_updated_documents_carry_both_snippets_witness :
  exists name zip,
    createUpdatedZip (Ret "var API = { key: `${k}` };") (Ret "track('load');")
      Sample.tmpDir (Ret (Sample.host Sample.goodPackage)) "course"
    = Ret (name, zip)
    /\ exists out,
         In ("index.html", out) zip
         /\ JsString.occurrences out shimMarker = 1
         /\ JsString.occurrences out trackerMarker = 1.
Proof.
  destruct (X9_updated_documents_carry_both_snippets
              "var API = { key: `${k}` };" "track('load');" Sample.tmpDir
              (Sample.host Sample.goodPackage) Sample.goodPackage "course")
    as (name & zip & Hzip & Hdocs); try reflexivity.
  exists name, zip. split; [exact Hzip|].
  destruct (Hdocs ["index.html"] "<html><head></head></html>")
    as (out & Hin & Hs & Ht); try reflexivity.
  exists out. repeat split; assumption.
Defined.

(** ** What a repair does to the files of a package *)

(** *** Writes seen from the package directory *)

(** Overwriting a file somewhere in the host tree leaves a well-formed
    package at [base]. *)
Lemma writeAt_overwrite_subtree (base : list string) :
  forall fs fs' p content old es,
    writeAt fs p content = Some fs' ->
    fileAt fs p = Some old ->
    lookup fs base = Some (Dir es) ->
    wellFormed (Dir es) = true ->
    exists es', lookup fs' base = Some (Dir es') /\ wellFormed (Dir es') = true.
Proof.
  induction base as [|b rest IH]; intros fs fs' p content old es Hw Hfile Hbase Hwf.
  - cbn in Hbase. inversion Hbase; subst fs.
    destruct (writeAt_Dir _ _ _ _ Hw) as [es' ->].
    exists es'. split; [reflexivity|]. eapply wellFormed_writeAt; eassumption.
  - destruct fs as [c|es0]; [discriminate|].
    cbn [lookup] in Hbase.
    destruct (entry b es0) as [child|] eqn:Eb; [|discriminate].
    destruct p as [|seg prest]; [discriminate|].
    rewrite fileAt_cons in Hfile.
    destruct (entry seg es0) as [c0|] eqn:Es; [|discriminate].
    destruct prest as [|s2 r].
    + rewrite writeAt_last, Es in Hw.
      destruct c0 as [c|sub]; [|discriminate]. inversion Hw; subst fs'.
      exists es. split; [|exact Hwf]. cbn [lookup]. rewrite entry_setEntry.
      destruct (String.eqb b seg) eqn:E.
      * apply String.eqb_eq in E. subst b. rewrite Es in Eb.
        inversion Eb; subst child. destruct rest; discriminate.
      * now rewrite Eb.
    + rewrite writeAt_deeper, Es in Hw.
      destruct (writeAt c0 (s2 :: r) content) as [c0'|] eqn:Ew; [|discriminate].
      inversion Hw; subst fs'.
      cbn [lookup]. rewrite entry_setEntry.
      destruct (String.eqb b seg) eqn:E.
      * apply String.eqb_eq in E. subst b. rewrite Es in Eb.
        inversion Eb; subst child. eapply IH; eassumption.
      * rewrite Eb. exists es. now split.
Qed.

(** The files of the package after a write in the host tree. *)
Lemma fileAt_after_write (base : list string) (fs fs' : node) (p : list string)
      (content : string) (es es' : list (string * node)) :
  writeAt fs p content = Some fs' ->
  lookup fs base = Some (Dir es) ->
  lookup fs' base = Some (Dir es') ->
  forall q,
    ((base ++ q)%list = p -> fileAt (Dir es') q = Some content)
    /\ ((base ++ q)%list <> p -> fileAt (Dir es') q = fileAt (Dir es) q).
Proof.
  intros Hw Hbase Hbase' q.
  rewrite <- (fileAt_app base q fs' _ Hbase'), <- (fileAt_app base q fs _ Hbase).
  apply (fileAt_writeAt _ _ _ _ Hw).
Qed.

(** A write directly below [base]. *)
Lemma writeAt_at_base (base : list string) (name content : string) :
  forall fs fs' es,
    lookup fs base = Some (Dir es) ->
    writeAt fs (base ++ [name])%list content = Some fs' ->
    (forall sub, entry name es <> Some (Dir sub))
    /\ lookup fs' base = Some (Dir (setEntry name (File content) es)).
Proof.
  induction base as [|b base IH]; intros fs fs' es Hbase Hw.
  - cbn in Hbase. inversion Hbase; subst fs. cbn [app] in Hw.
    rewrite writeAt_last in Hw.
    destruct (entry name es) as [[c|sub]|]; inversion Hw; split;
      try reflexivity; congruence.
  - destruct fs as [c|es0]; [discriminate|].
    cbn [lookup] in Hbase.
    destruct (entry b es0) as [child|] eqn:Eb; [|discriminate].
    cbn [app] in Hw.
    destruct (base ++ [name])%list as [|s l] eqn:Ebn; [destruct base; discriminate|].
    rewrite writeAt_deeper, Eb in Hw.
    destruct (writeAt child (s :: l) content) as [child'|] eqn:Ew; [|discriminate].
    inversion Hw; subst fs'.
    destruct (IH _ _ _ Hbase Ew) as [Hnodir Hlook]. split; [exact Hnodir|].
    cbn [lookup]. now rewrite entry_setEntry, String.eqb_refl.
Qed.

Lemma setEntry_new_names (name : string) (x : node) (es : list (string * node)) :
  entry name es = None ->
  map fst (setEntry name x es) = (map fst es ++ [name])%list.
Proof.
  induction es as [|[n old] es IH]; [reflexivity|].
  cbn [entry setEntry]. destruct (String.eqb n name); [discriminate|].
  intros H. cbn [map fst app]. now rewrite IH.
Qed.

Lemma entry_none_names (name : string) (es : list (string * node)) :
  entry name es = None -> existsb (fun n => String.eqb n name) (map fst es) = false.
Proof.
  induction es as [|[n old] es IH]; [reflexivity|].
  cbn [entry map fst existsb]. destruct (String.eqb n name); [discriminate|].
  exact IH.
Qed.

Lemma uniqueNames_snoc (names : list string) (name : string) :
  uniqueNames names = true ->
  existsb (fun n => String.eqb n name) names = false ->
  uniqueNames (names ++ [name]) = true.
Proof.
  induction names as [|n names IH]; [reflexivity|].
  cbn [uniqueNames existsb app]. intros Hu Hex.
  apply andb_true_iff in Hu as [Hn Hu]. apply orb_false_iff in Hex as [Hne Hex].
  rewrite existsb_app. cbn [existsb]. rewrite Hne, orb_false_r.
  rewrite Hn. cbn [andb]. now apply IH.
Qed.

(** A new file with a good name keeps a directory well formed. *)
Lemma wellFormed_new_entry (es : list (string * node)) (name content : string) :
  wellFormed (Dir es) = true ->
  entry name es = None ->
  goodName name = true ->
  wellFormed (Dir (setEntry name (File content) es)) = true.
Proof.
  intros Hwf Hnone Hgood. cbn [wellFormed] in *.
  apply andb_true_iff in Hwf as [Hu Hall].
  rewrite setEntry_new_names by assumption.
  rewrite uniqueNames_snoc by (assumption || now apply entry_none_names).
  apply setEntry_forallb; [assumption|]. cbn [fst snd wellFormed].
  now rewrite Hgood.
Qed.

(** *** The three steps that touch files *)

(** Fix 1 on a package: the manifest path lies in the package, under the
    manifest's name; the other files are as they were. *)
Lemma findOrCreateManifest_package (fs : node) (tmpDir : list string)
      (es : list (string * node)) (fs1 : node) (manifestPath : list string)
      (xml : string) (r : list string) :
  lookup fs tmpDir = Some (Dir es) ->
  wellFormed (Dir es) = true ->
  findOrCreateManifest fs tmpDir = Ret (fs1, manifestPath, xml, r) ->
  exists qm es1,
    manifestPath = (tmpDir ++ qm)%list /\ qm <> []
    /\ JsString.toLowerCase (last qm "") = "imsmanifest.xml"
    /\ lookup fs1 tmpDir = Some (Dir es1) /\ wellFormed (Dir es1) = true
    /\ fileAt (Dir es1) qm = Some xml
    /\ (forall q, q <> qm -> fileAt (Dir es1) q = fileAt (Dir es) q)
    /\ (fileAt (Dir es) qm = Some xml
        \/ (qm = ["imsmanifest.xml"] /\ fileAt (Dir es) qm = None)).
Proof.
  intros Hdir Hwf H. unfold findOrCreateManifest, findFile, readdirSync in H.
  rewrite Hdir in H. cbn [bind] in H.
  destruct (search _ tmpDir (Dir es)) as [found|] eqn:Hsearch.
  - step_bind H. inversion H; subst fs1 manifestPath xml r. clear H.
    destruct (found_in_fs _ fs tmpDir es found Hdir Hwf Hsearch)
      as (q & data & -> & Hq & Hfile & Hfs & Htest).
    unfold readFileSync in E. cbn [fst snd] in E. unfold fileAt in Hfs.
    destruct (lookup fs (tmpDir ++ q)%list) as [[c|sub]|]; try discriminate.
    inversion E; subst a. inversion Hfs; subst data.
    exists q, es. repeat split; try assumption.
    + rewrite last_append in Htest by assumption.
      apply String.eqb_eq in Htest. exact Htest.
    + now left.
  - step_bind H. step_bind H. inversion H; subst a0 manifestPath xml r. clear H.
    unfold writeFileSync in E0. cbn [fst snd] in E0.
    destruct (writeAt fs (tmpDir ++ ["imsmanifest.xml"])%list _) as [fs'|] eqn:Hw;
      [|discriminate].
    inversion E0; subst fs'. clear E0.
    destruct (writeAt_at_base tmpDir "imsmanifest.xml" _ fs fs1 es Hdir Hw)
      as [Hnodir Hdir1].
    assert (Hnone : entry "imsmanifest.xml" es = None).
    { destruct (entry "imsmanifest.xml" es) as [[c|sub]|] eqn:Eentry; [| |reflexivity].
      - exfalso.
        apply (search_complete
                 (fun name => String.eqb (JsString.toLowerCase name)
                                         (JsString.toLowerCase "imsmanifest.xml"))
                 (Dir es) ["imsmanifest.xml"] c tmpDir);
          [|discriminate|reflexivity|exact Hsearch].
        rewrite fileAt_cons, Eentry. reflexivity.
      - exfalso. now apply (Hnodir sub). }
    eexists ["imsmanifest.xml"], _. split; [reflexivity|].
    split; [discriminate|]. split; [reflexivity|]. split; [exact Hdir1|].
    split; [now apply wellFormed_new_entry|].
    destruct (fileAt_after_write tmpDir fs fs1 _ _ es _ Hw Hdir Hdir1
                ["imsmanifest.xml"]) as [Hsame _].
    split; [now apply Hsame|]. split.
    + intros q Hq.
      destruct (fileAt_after_write tmpDir fs fs1 _ _ es _ Hw Hdir Hdir1 q)
        as [_ Hother].
      apply Hother. intros Heq. apply app_inv_head in Heq. contradiction.
    + right. split; [reflexivity|]. now rewrite fileAt_cons, Hnone.
Qed.

(** Fix 6 on a package: a file is as it was, or it is an HTML file and now
    holds the shim tag. *)
Lemma injectIntoLaunch_effect (fs : node) (tmpDir manifestPath : list string)
      (launch : option string) (r : list string) (fs2 : node) (r2 : list string)
      (es1 : list (string * node)) :
  lookup fs tmpDir = Some (Dir es1) ->
  wellFormed (Dir es1) = true ->
  injectIntoLaunch fs manifestPath launch r = Ret (fs2, r2) ->
  exists es2,
    lookup fs2 tmpDir = Some (Dir es2) /\ wellFormed (Dir es2) = true
    /\ forall q,
         fileAt (Dir es2) q = fileAt (Dir es1) q
         \/ exists html,
              fileAt (Dir es1) q = Some html
              /\ JsString.matchesHtml (last q "") = true
              /\ fileAt (Dir es2) q = Some (injectShimTag html).
Proof.
  intros Hdir Hwf H.
  assert (Hsame : forall fs' r', Ret (fs, r) = Ret (fs', r') ->
             exists es2,
               lookup fs' tmpDir = Some (Dir es2) /\ wellFormed (Dir es2) = true
               /\ forall q,
                    fileAt (Dir es2) q = fileAt (Dir es1) q
                    \/ exists html,
                         fileAt (Dir es1) q = Some html
                         /\ JsString.matchesHtml (last q "") = true
                         /\ fileAt (Dir es2) q = Some (injectShimTag html)).
  { intros fs' r' Heq. inversion Heq; subst. exists es1. repeat split; auto. }
  unfold injectIntoLaunch in H.
  destruct launch as [launchFile|]; [|now apply (Hsame _ _ H)].
  destruct (JsString.truthy launchFile); [|now apply (Hsame _ _ H)].
  set (joined := Path.join (Path.dirname manifestPath) launchFile) in *.
  destruct (existsSync fs joined && Path.matchesHtml joined) eqn:Eguard;
    [|now apply (Hsame _ _ H)].
  apply andb_true_iff in Eguard as [_ Hhtml].
  step_bind H. rename a into html.
  destruct (JsString.includes html "scorm-api-shim.js"); [now apply (Hsame _ _ H)|].
  clear Hsame. step_bind H. inversion H; subst a r2. clear H.
  unfold Path.matchesHtml in Hhtml. apply andb_true_iff in Hhtml as [Htrail Hhtml].
  apply negb_true_iff in Htrail.
  unfold writeFileSync in E0. rewrite Htrail in E0.
  destruct (writeAt fs (fst joined) (injectShimTag html)) as [fs'|] eqn:Hw;
    [|discriminate].
  inversion E0; subst fs'. clear E0.
  assert (Hfile : fileAt fs (fst joined) = Some html).
  { unfold readFileSync in E. rewrite Htrail in E. unfold fileAt.
    destruct (lookup fs (fst joined)) as [[c|sub]|]; try discriminate.
    now inversion E. }
  destruct (writeAt_overwrite_subtree tmpDir _ _ _ _ _ _ Hw Hfile Hdir Hwf)
    as (es2 & Hdir2 & Hwf2).
  exists es2. split; [exact Hdir2|]. split; [exact Hwf2|].
  intros q.
  destruct (fileAt_after_write tmpDir fs fs2 _ _ es1 es2 Hw Hdir Hdir2 q)
    as [Hat Hother].
  destruct (list_eq_dec string_dec (tmpDir ++ q)%list (fst joined)) as [Heq|Hne].
  - right. exists html. split; [|split].
    + rewrite <- (fileAt_app tmpDir q fs _ Hdir), Heq. exact Hfile.
    + rewrite <- Heq in Hhtml.
      destruct q as [|s q]; [|now rewrite last_append in Hhtml].
      exfalso. rewrite app_nil_r in Heq. rewrite <- Heq in Hfile.
      unfold fileAt in Hfile. now rewrite Hdir in Hfile.
    + now apply Hat.
  - left. now apply Hother.
Qed.

(** The serialization and the re-zip: the archive lists the package with
    the serialized manifest in place of the manifest file. *)
Lemma serializeAndRepack_effect (build : Xml2js.builder) (fs2 : node)
      (tmpDir qm : list string) (manifest : Xml2js.value)
      (zip : list (string * string)) (es2 : list (string * node)) (cur : string) :
  lookup fs2 tmpDir = Some (Dir es2) ->
  wellFormed (Dir es2) = true ->
  fileAt (Dir es2) qm = Some cur ->
  serializeAndRepack build fs2 tmpDir (tmpDir ++ qm)%list manifest = Ret zip ->
  exists xml es3,
    build ("manifest", manifest) = Ret xml
    /\ wellFormed (Dir es3) = true
    /\ zip = addDirToZip [] tmpDir tmpDir (Dir es3)
    /\ fileAt (Dir es3) qm = Some xml
    /\ forall q, q <> qm -> fileAt (Dir es3) q = fileAt (Dir es2) q.
Proof.
  intros Hdir Hwf Hcur H. unfold serializeAndRepack in H.
  step_bind H. rename a into xml. step_bind H. rename a into fs3. step_bind H.
  inversion H; subst zip. clear H.
  unfold writeFileSync in E0. cbn [fst snd] in E0.
  destruct (writeAt fs2 (tmpDir ++ qm)%list xml) as [fs'|] eqn:Hw; [|discriminate].
  inversion E0; subst fs'. clear E0.
  assert (Hfile : fileAt fs2 (tmpDir ++ qm)%list = Some cur)
    by (now rewrite (fileAt_app tmpDir qm fs2 _ Hdir)).
  destruct (writeAt_overwrite_subtree tmpDir _ _ _ _ _ _ Hw Hfile Hdir Hwf)
    as (es3 & Hdir3 & Hwf3).
  apply readdirSync_Ret in E1. rewrite Hdir3 in E1. inversion E1; subst a.
  exists xml, es3. split; [reflexivity|]. split; [exact Hwf3|].
  split; [reflexivity|].
  split.
  - now apply (fileAt_after_write tmpDir fs2 fs3 _ _ es2 es3 Hw Hdir Hdir3 qm).
  - intros q Hq.
    apply (fileAt_after_write tmpDir fs2 fs3 _ _ es2 es3 Hw Hdir Hdir3 q).
    intros Heq. apply app_inv_head in Heq. contradiction.
Qed.

Lemma manifest_name_not_html (name : string) :
  JsString.toLowerCase name = "imsmanifest.xml" -> JsString.matchesHtml name = false.
Proof. intros H. unfold JsString.matchesHtml. now rewrite H. Qed.

(** X10: a repair never drops a file.  Whenever [repairSCORM] returns on a
    package as extraction leaves it, the archive it writes has one entry per
    file of the package, under the file's relative path, and at most one
    more, [imsmanifest.xml], when the package had no manifest.  The entry
    of a manifest holds what the builder returned.  Every other file that
    is not an HTML file keeps its content; so does every other file that is
    well-formed UTF-8, except that an HTML file may now hold the shim
    tag. *)
Theorem X10_repair_keeps_the_files :
  forall (parse : Xml2js.parser) (build : Xml2js.builder) (tmpDir : list string)
         (fs : node) (package : list (string * node)) (report : repairReport)
         (zip : list (string * string)),
    lookup fs tmpDir = Some (Dir package) ->
    wellFormed (Dir package) = true ->
    repairSCORM parse build tmpDir (Ret fs) = Ret (report, zip) ->
    (forall q data,
        fileAt (Dir package) q = Some data ->
        exists data', In (String.concat "/" q, data') zip)
    /\ (forall name data',
           In (name, data') zip ->
           (exists q data,
               name = String.concat "/" q /\ fileAt (Dir package) q = Some data)
           \/ name = "imsmanifest.xml")
    /\ NoDup (map fst zip)
    /\ (exists qm manifest xml,
           JsString.toLowerCase (last qm "") = "imsmanifest.xml"
           /\ build ("manifest", manifest) = Ret xml
           /\ In (String.concat "/" qm, xml) zip)
    /\ (forall q data,
           fileAt (Dir package) q = Some data ->
           JsString.toLowerCase (last q "") <> "imsmanifest.xml" ->
           JsString.matchesHtml (last q "") = false ->
           In (String.concat "/" q, data) zip)
    /\ (forall q data,
           fileAt (Dir package) q = Some data ->
           JsString.toLowerCase (last q "") <> "imsmanifest.xml" ->
           Utf8.valid data = true ->
           In (String.concat "/" q, data) zip
           \/ (JsString.matchesHtml (last q "") = true
               /\ In (String.concat "/" q, injectShimTag data) zip)).
Proof.
  intros parse build tmpDir fs package report zip Hdir Hwf H.
  unfold repairSCORM in H. cbn [bind] in H.
  step_bind H. destruct a as [[[fs1 manifestPath] manifestXml] r0].
  step_bind H. destruct a as [manifestObj r1].
  step_bind H. rename a into root.
  step_bind H. destruct a as [m1 r2].
  destruct (ensureMetadata m1 r2) as [m2 r3].
  step_bind H. destruct a as [[m3 r4] launch].
  step_bind H. destruct a as [fs2 r5].
  step_bind H. rename a into outZip. inversion H; subst report zip. clear H.
  destruct (findOrCreateManifest_package _ _ _ _ _ _ _ Hdir Hwf E)
    as (qm & es1 & -> & Hqm & Hname & Hdir1 & Hwf1 & Hm1 & Hother1 & Horigin).
  destruct (injectIntoLaunch_effect _ _ _ _ _ _ _ _ Hdir1 Hwf1 E4)
    as (es2 & Hdir2 & Hwf2 & Hstep2).
  assert (Hm2 : fileAt (Dir es2) qm = Some manifestXml).
  { destruct (Hstep2 qm) as [Heq | (html & _ & Hhtml & _)]; [congruence|].
    rewrite (manifest_name_not_html _ Hname) in Hhtml. discriminate. }
  destruct (serializeAndRepack_effect _ _ _ _ _ _ _ _ Hdir2 Hwf2 Hm2 E5)
    as (xml & es3 & Hbuild & Hwf3 & -> & Hm3 & Hother3).
  destruct (repack_spec tmpDir es3 Hwf3) as (Hin & Hout & Hnodup).
  assert (Hkeep : forall q data,
             fileAt (Dir package) q = Some data -> q <> qm ->
             fileAt (Dir es3) q = Some data
             \/ (JsString.matchesHtml (last q "") = true
                 /\ fileAt (Dir es3) q = Some (injectShimTag data))).
  { intros q data Hfile Hq. rewrite (Hother3 q Hq).
    rewrite <- (Hother1 q Hq) in Hfile.
    destruct (Hstep2 q) as [Heq | (html & Hhtml & Hmatch & Hnew)].
    - left. congruence.
    - right. split; [exact Hmatch|]. congruence. }
  split; [|split; [|split; [exact Hnodup|split; [|split]]]].
  - intros q data Hfile.
    destruct (list_eq_dec string_dec q qm) as [->|Hq].
    + exists xml. now apply Hin.
    + destruct (Hkeep q data Hfile Hq) as [Hk | [_ Hk]]; eexists; apply Hin, Hk.
  - intros name data' Hzip. destruct (Hout name data' Hzip) as (q & -> & Hfile).
    destruct (list_eq_dec string_dec q qm) as [->|Hq].
    + destruct Horigin as [Hold | [-> _]].
      * left. now exists qm, manifestXml.
      * right. reflexivity.
    + left. rewrite (Hother3 q Hq) in Hfile.
      destruct (Hstep2 q) as [Heq | (html & Hhtml & _ & _)].
      * rewrite Heq, (Hother1 q Hq) in Hfile. now exists q, data'.
      * rewrite (Hother1 q Hq) in Hhtml. now exists q, html.
  - exists qm, m3, xml. split; [exact Hname|]. split; [exact Hbuild|]. now apply Hin.
  - intros q data Hfile Hnot Hplain.
    assert (Hq : q <> qm) by (intros ->; contradiction).
    destruct (Hkeep q data Hfile Hq) as [Hk | [Hmatch Hk]].
    + now apply Hin.
    + congruence.
  - intros q data Hfile Hnot _.
    assert (Hq : q <> qm) by (intros ->; contradiction).
    destruct (Hkeep q data Hfile Hq) as [Hk | [Hmatch Hk]].
    + left. now apply Hin.
    + right. split; [exact Hmatch|]. now apply Hin.
Qed.

Lemma X10_repair_keeps_the_files_witness :
  match Sample.repair [("index.html", File "<html><head></head></html>");
                       ("js", Dir [("app.js", File "var x;")])]
  with
  | Ret (report, zip) =>
      In ("js/app.js", "var x;") zip
      /\ In ("index.html", injectShimTag "<html><head></head></html>") zip
      /\ NoDup (map fst zip)
  | Throw _ => False
  end.
Proof.
  unfold Sample.repair.
  eassert (E : repairSCORM Sax.parseStringPromise Builder.buildObject Sample.tmpDir
                 (Ret (Sample.host
                         [("index.html", File "<html><head></head></html>");
                          ("js", Dir [("app.js", File "var x;")])]))
               = Ret (_, _)) by (vm_compute; reflexivity).
  rewrite E.
  destruct (X10_repair_keeps_the_files Sax.parseStringPromise Builder.buildObject
              Sample.tmpDir
              (Sample.host [("index.html", File "<html><head></head></html>");
                            ("js", Dir [("app.js", File "var x;")])])
              [("index.html", File "<html><head></head></html>");
               ("js", Dir [("app.js", File "var x;")])]
              _ _ eq_refl eq_refl E)
    as (_ & _ & Hnodup & _ & Hplain & Hkeep).
  split; [|split; [|exact Hnodup]].
  - apply (Hplain ["js"; "app.js"] "var x;"); [reflexivity | discriminate | reflexivity].
  - destruct (Hkeep ["index.html"] "<html><head></head></html>") as [Hk | [_ Hk]];
      [reflexivity | discriminate | reflexivity | | exact Hk].
    vm_compute. tauto.
Defined.

(** ** Two more paths through the repair *)

Lemma setKey_same {A : Type} (key : string) (a : A) (l : list (string * A)) :
  Xml2js.lookupKey key l = Some a -> Xml2js.setKey key a l = l.
Proof.
  induction l as [|[k old] l IH]; [discriminate|].
  cbn [Xml2js.lookupKey Xml2js.setKey].
  destruct (String.eqb k key).
  - intros H. now inversion H.
  - intros H. now rewrite IH.
Qed.

(** Writing back the attributes the primary resource has changes nothing. *)
Lemma setPrimaryAttrs_same (manifest primary : Xml2js.value)
      (a : list (string * string)) :
  primaryResource manifest = Some primary ->
  Xml2js.attributes primary = Some a ->
  setPrimaryAttrs manifest a = manifest.
Proof.
  intros Hprimary Hattrs.
  apply primaryResource_inv in Hprimary as (block & blocks & others & Hb & Hr).
  destruct manifest as [s|mattrs mtext kids]; [discriminate|].
  cbn [Xml2js.children] in Hb.
  destruct block as [s|rattrs rtext rkids]; [discriminate|].
  cbn [Xml2js.children] in Hr.
  destruct primary as [s|pattrs ptext pkids]; [discriminate|].
  cbn [Xml2js.attributes] in Hattrs. subst pattrs.
  cbn [setPrimaryAttrs]. rewrite Hb, Hr.
  now rewrite (setKey_same "resource" _ rkids Hr), (setKey_same "resources" _ kids Hb).
Qed.

(** X11: a package that needs nothing gets an empty log.  When the manifest
    is found and parses, its root carries the [xmlns:adlcp] attribute and a
    metadata block, its primary resource an SCO type and an [href] that
    exists next to the manifest, and the launch file is not an HTML file or
    already mentions [scorm-api-shim.js], then the repair returns
    [success: true] with [repairs] empty and [launchFile] the declared
    [href]; the manifest is re-serialized unchanged and every other file
    goes into the archive as it is. *)
Theorem X11_valid_package_needs_no_repair :
  forall (parse : Xml2js.parser) (build : Xml2js.builder) (tmpDir : list string)
         (fs : node) (package : list (string * node)) (manifestPath : list string)
         (manifestXml : string) (mattrs : list (string * string))
         (mtext : option string) (kids : list (string * list Xml2js.value))
         (primary : Xml2js.value) (a : list (string * string))
         (ns scormType href repairedXml : string) (metadata : list Xml2js.value),
    lookup fs tmpDir = Some (Dir package) ->
    wellFormed (Dir package) = true ->
    findFile fs tmpDir "imsmanifest.xml" = Ret (Some manifestPath) ->
    readFileSync fs (manifestPath, false) = Ret manifestXml ->
    parse manifestXml
    = Ret (Some ("manifest", Xml2js.Element (Some mattrs) mtext kids)) ->
    Xml2js.truthyAttr mattrs "xmlns:adlcp" = Some ns ->
    Xml2js.lookupKey "metadata" kids = Some metadata ->
    primaryResource (Xml2js.Element (Some mattrs) mtext kids) = Some primary ->
    Xml2js.attributes primary = Some a ->
    Xml2js.truthyAttr a "adlcp:scormtype" = Some scormType ->
    Xml2js.truthyAttr a "href" = Some href ->
    existsSync fs (Path.join (Path.dirname manifestPath) href) = true ->
    (Path.matchesHtml (Path.join (Path.dirname manifestPath) href) = false
     \/ exists html,
          readFileSync fs (Path.join (Path.dirname manifestPath) href) = Ret html
          /\ JsString.includes html "scorm-api-shim.js" = true) ->
    build ("manifest", Xml2js.Element (Some mattrs) mtext kids) = Ret repairedXml ->
    exists zip,
      repairSCORM parse build tmpDir (Ret fs)
      = Ret ({| success := true; repairs := []; launchFile := Some href |}, zip)
      /\ In (Path.relativeSlashed tmpDir manifestPath, repairedXml) zip
      /\ (forall q data,
             (tmpDir ++ q)%list <> manifestPath ->
             fileAt (Dir package) q = Some data ->
             In (String.concat "/" q, data) zip).
Proof.
  intros parse build tmpDir fs package manifestPath manifestXml mattrs mtext kids
         primary a ns scormType href repairedXml metadata
         Hdir Hwf Hfind Hread Hparse Hns Hmd Hprimary Hattrs Hsco Hhref Hexists
         Hlaunch Hbuild.
  set (manifest := Xml2js.Element (Some mattrs) mtext kids) in *.
  destruct (findFile_sound _ _ _ _ _ Hdir Hwf Hfind)
    as (q & data & Hmp & Hq & Hfile & _).
  assert (Hns' : ensureNamespace (Some manifest) [] = Ret (manifest, [])).
  { unfold manifest, ensureNamespace. now rewrite Hns. }
  assert (Hmd' : ensureMetadata manifest [] = (manifest, [])).
  { unfold manifest, ensureMetadata. now rewrite Hmd. }
  assert (Hfix : fixResources fs tmpDir manifestPath manifest []
                 = Ret (manifest, [], Some href)).
  { pose proof Hprimary as Hp.
    apply primaryResource_inv in Hp as (block & blocks & others & Hb & Hr).
    unfold fixResources. cbn [Js.get bind]. rewrite Hb. cbn [hd_error Js.get bind].
    rewrite Hr. cbn [hd_error Js.attrs bind]. rewrite Hattrs.
    unfold ensureScormType. rewrite Hsco, Hhref, Hexists.
    now rewrite (setPrimaryAttrs_same _ _ _ Hprimary Hattrs). }
  assert (Htruthy : JsString.truthy href = true).
  { unfold Xml2js.truthyAttr in Hhref.
    destruct (Xml2js.lookupKey "href" a) as [s|]; [|discriminate].
    destruct (JsString.truthy s) eqn:E; [|discriminate]. now inversion Hhref; subst. }
  assert (Hinject : injectIntoLaunch fs manifestPath (Some href) [] = Ret (fs, [])).
  { unfold injectIntoLaunch. rewrite Htruthy, Hexists.
    destruct Hlaunch as [Hno | (html & Hhtml & Hshim)].
    - now rewrite Hno.
    - destruct (Path.matchesHtml _); [|reflexivity].
      cbn [andb]. rewrite Hhtml. cbn [bind]. now rewrite Hshim. }
  subst manifestPath.
  destruct (serializeAndRepack_spec build fs tmpDir q package manifest data repairedXml
              Hdir Hwf Hq Hfile Hbuild) as (zip & Hzip & Hin & Hothers & _).
  exists zip. split; [|split].
  - rewrite (repairSCORM_existing _ _ _ _ _ _ _ _ _ _ _ Hfind Hread Hparse Hns' Hmd').
    rewrite Hfix. cbn [bind]. rewrite Hinject. cbn [bind]. now rewrite Hzip.
  - exact Hin.
  - intros q' d Hne Hf. apply Hothers; [congruence | exact Hf].
Qed.

Lemma X11_valid_package_needs_no_repair_witness :
  exists zip,
    Sample.repair
      [("imsmanifest.xml",
        File "<manifest xmlns:adlcp='ns'><metadata><schema>ADL SCORM</schema></metadata><resources><resource adlcp:scormtype='sco' href='index.html'/></resources></manifest>");
       ("index.html",
        File "<html><head><script src='/scorm-api-shim.js'></script></head></html>")]
    = Ret ({| success := true; repairs := []; launchFile := Some "index.html" |}, zip).
Proof.
  edestruct (X11_valid_package_needs_no_repair Sax.parseStringPromise
               Builder.buildObject Sample.tmpDir
               (Sample.host
                  [("imsmanifest.xml",
                    File "<manifest xmlns:adlcp='ns'><metadata><schema>ADL SCORM</schema></metadata><resources><resource adlcp:scormtype='sco' href='index.html'/></resources></manifest>");
                   ("index.html",
                    File "<html><head><script src='/scorm-api-shim.js'></script></head></html>")])
               [("imsmanifest.xml",
                 File "<manifest xmlns:adlcp='ns'><metadata><schema>ADL SCORM</schema></metadata><resources><resource adlcp:scormtype='sco' href='index.html'/></resources></manifest>");
                ("index.html",
                 File "<html><head><script src='/scorm-api-shim.js'></script></head></html>")]
               (Sample.tmpDir ++ ["imsmanifest.xml"])%list)
    as (zip & Hzip & _);
    [reflexivity | reflexivity | reflexivity | reflexivity
     | vm_compute; reflexivity | reflexivity | reflexivity | reflexivity
     | reflexivity | reflexivity | reflexivity | reflexivity
     | right; eexists; split; reflexivity
     | vm_compute; reflexivity
     | exists zip; exact Hzip].
Defined.

Lemma ensureNamespace_children (manifest m1 : Xml2js.value) (r r1 : list string)
      (key : string) :
  ensureNamespace (Some manifest) r = Ret (m1, r1) ->
  Xml2js.children m1 key = Xml2js.children manifest key.
Proof.
  unfold ensureNamespace. destruct manifest as [s|attrs text kids]; [discriminate|].
  destruct (Xml2js.truthyAttr _ "xmlns:adlcp"); intros H; now inversion H.
Qed.

Lemma ensureMetadata_children (m1 m2 : Xml2js.value) (r1 r2 : list string)
      (key : string) :
  key <> "metadata" ->
  ensureMetadata m1 r1 = (m2, r2) ->
  Xml2js.children m2 key = Xml2js.children m1 key.
Proof.
  intros Hkey. unfold ensureMetadata. destruct m1 as [s|attrs text kids].
  - intros H. now inversion H.
  - destruct (Xml2js.lookupKey "metadata" kids); intros H; inversion H; subst;
      [reflexivity|].
    cbn [Xml2js.children]. now apply lookupKey_setKey_other.
Qed.

Lemma ensureNamespace_element (manifest : option Xml2js.value) (m1 : Xml2js.value)
      (r r1 : list string) :
  ensureNamespace manifest r = Ret (m1, r1) ->
  exists attrs text kids, m1 = Xml2js.Element (Some attrs) text kids.
Proof.
  unfold ensureNamespace. destruct manifest as [[s|attrs text kids]|]; try discriminate.
  destruct (Xml2js.truthyAttr _ "xmlns:adlcp"); intros H; inversion H; eauto.
Qed.

(** X12: a manifest without a resources block gets one, and the repair then
    always names a launch file.  The block holds one resource typed [sco]
    whose [href] is the launch file the search found, relative to the
    manifest, or [index.html] when the package has no HTML file at all;
    [launchFile] is that [href] and the log says so. *)
Theorem X12_missing_resources_block_is_created :
  forall (parse : Xml2js.parser) (build : Xml2js.builder) (tmpDir : list string)
         (fs : node) (package : list (string * node)) (manifestPath : list string)
         (manifestXml : string) (manifest m1 m2 : Xml2js.value) (r1 r2 : list string)
         (launch : option (list string)) (repairedXml : string),
    let href :=
      match launch with
      | Some found => Path.relativeSlashed (Path.dirname manifestPath) found
      | None => "index.html"
      end in
    lookup fs tmpDir = Some (Dir package) ->
    wellFormed (Dir package) = true ->
    findFile fs tmpDir "imsmanifest.xml" = Ret (Some manifestPath) ->
    readFileSync fs (manifestPath, false) = Ret manifestXml ->
    parse manifestXml = Ret (Some ("manifest", manifest)) ->
    Xml2js.children manifest "resources" = None ->
    ensureNamespace (Some manifest) [] = Ret (m1, r1) ->
    ensureMetadata m1 r1 = (m2, r2) ->
    findLaunchFile fs tmpDir = Ret launch ->
    (launch = None ->
     existsSync fs (Path.join (Path.dirname manifestPath) "index.html") = false) ->
    build ("manifest", setResources m2 href) = Ret repairedXml ->
    exists repairsOut zip primary,
      repairSCORM parse build tmpDir (Ret fs)
      = Ret ({| success := true; repairs := repairsOut; launchFile := Some href |}, zip)
      /\ In ("🆕 Created missing resources block (launch: " ++ href ++ ")") repairsOut
      /\ manifestResources (setResources m2 href) = [primary]
      /\ isSco primary = true
      /\ primaryHref (setResources m2 href) = Some href
      /\ In (Path.relativeSlashed tmpDir manifestPath, repairedXml) zip.
Proof.
  intros parse build tmpDir fs package manifestPath manifestXml manifest m1 m2 r1 r2
         launch repairedXml href
         Hdir Hwf Hfind Hread Hparse Hnone Hns Hmd Hlaunch Hindex Hbuild.
  destruct (findFile_sound _ _ _ _ _ Hdir Hwf Hfind)
    as (q & data & Hmp & Hq & Hfile & _).
  assert (Hnone2 : Xml2js.children m2 "resources" = None).
  { rewrite (ensureMetadata_children _ _ _ _ "resources" ltac:(discriminate) Hmd).
    now rewrite (ensureNamespace_children _ _ _ _ "resources" Hns). }
  destruct (ensureNamespace_element _ _ _ _ Hns) as (attrs1 & text1 & kids1 & Hm1).
  assert (Hm2 : exists attrs text kids, m2 = Xml2js.Element attrs text kids).
  { subst m1. unfold ensureMetadata in Hmd.
    destruct (Xml2js.lookupKey "metadata" kids1); inversion Hmd; eauto. }
  destruct Hm2 as (attrs2 & text2 & kids2 & Hm2).
  set (line := ("🆕 Created missing resources block (launch: " ++ href ++ ")")%string).
  assert (Hfix : fixResources fs tmpDir manifestPath m2 r2
                 = Ret (setResources m2 href, (r2 ++ [line])%list, Some href)).
  { unfold fixResources. cbn [Js.get bind]. rewrite Hnone2. cbn [bind].
    rewrite Hlaunch. cbn [bind]. unfold href, line. now destruct launch. }
  assert (Hinject : exists fs' repairs' es' old',
             injectIntoLaunch fs manifestPath (Some href) (r2 ++ [line])%list
             = Ret (fs', repairs')
             /\ lookup fs' tmpDir = Some (Dir es')
             /\ wellFormed (Dir es') = true
             /\ fileAt (Dir es') q = Some old'
             /\ exists extra, repairs' = ((r2 ++ [line]) ++ extra)%list).
  { destruct launch as [found|].
    - destruct (findLaunchFile_sound _ _ _ _ Hdir Hwf Hlaunch)
        as (qf & html & Hf & Hqf & Hhtml & _ & _).
      assert (Hjoin : Path.join (Path.dirname manifestPath) href
                      = ((tmpDir ++ qf)%list, false)).
      { unfold href. subst manifestPath found. unfold Path.dirname.
        rewrite removelast_app by assumption.
        apply join_relative_under. exact (fileAt_goodPath _ _ _ Hwf Hhtml). }
      destruct (injectIntoLaunch_package fs tmpDir manifestPath qf package href html
                  (r2 ++ [line])%list Hdir Hwf Hjoin Hhtml Hqf)
        as (fs' & repairs' & es' & Hi & Hdir' & Hwf' & Hfiles & Hextra).
      destruct (Hfiles _ _ Hfile) as [old' Hfile'].
      exists fs', repairs', es', old'. repeat split; assumption.
    - exists fs, (r2 ++ [line])%list, package, data.
      split; [|split; [|split; [|split]]]; try assumption.
      + unfold injectIntoLaunch, href. cbn [JsString.truthy].
        now rewrite (Hindex eq_refl).
      + exists []. now rewrite app_nil_r. }
  destruct Hinject as (fs' & repairs' & es' & old' & Hi & Hdir' & Hwf' & Hfile' & extra
                       & Hextra).
  subst manifestPath.
  destruct (serializeAndRepack_spec build fs' tmpDir q es' _ old' repairedXml
              Hdir' Hwf' Hq Hfile' Hbuild) as (zip & Hzip & Hin & _ & _).
  exists repairs', zip.
  exists (Xml2js.Element
            (Some [("identifier", "resource_1"); ("type", "webcontent");
                   ("adlcp:scormtype", "sco"); ("href", href)]) None []).
  split; [|split; [|split; [|split; [|split]]]].
  - rewrite (repairSCORM_existing _ _ _ _ _ _ _ _ _ _ _ Hfind Hread Hparse Hns Hmd).
    rewrite Hfix. cbn [bind]. rewrite Hi. cbn [bind]. now rewrite Hzip.
  - rewrite Hextra. apply in_or_app. left. apply in_or_app. right. now left.
  - subst m2. unfold manifestResources. cbn [setResources Xml2js.children].
    now rewrite lookupKey_setKey_same.
  - reflexivity.
  - subst m2. unfold primaryHref, primaryResource, manifestResources.
    cbn [setResources Xml2js.children]. now rewrite lookupKey_setKey_same.
  - exact Hin.
Qed.

Lemma X12_missing_resources_block_is_created_witness :
  exists repairsOut zip,
    Sample.repair [("imsmanifest.xml", File "<manifest><title>Course</title></manifest>");
                   ("notes.txt", File "n")]
    = Ret ({| success := true; repairs := repairsOut;
              launchFile := Some "index.html" |}, zip)
    /\ In "🆕 Created missing resources block (launch: index.html)" repairsOut.
Proof.
  edestruct (X12_missing_resources_block_is_created Sax.parseStringPromise
               Builder.buildObject Sample.tmpDir
               (Sample.host
                  [("imsmanifest.xml",
                    File "<manifest><title>Course</title></manifest>");
                   ("notes.txt", File "n")])
               [("imsmanifest.xml", File "<manifest><title>Course</title></manifest>");
                ("notes.txt", File "n")]
               (Sample.tmpDir ++ ["imsmanifest.xml"])%list
               "<manifest><title>Course</title></manifest>")
    with (launch := @None (list string))
    as (repairsOut & zip & primary & Hrepair & Hline & _);
    [reflexivity | reflexivity | reflexivity | reflexivity
     | vm_compute; reflexivity | reflexivity | reflexivity | reflexivity
     | reflexivity | reflexivity | vm_compute; reflexivity
     | exists repairsOut, zip; split; [exact Hrepair | exact Hline]].
Defined.

(** ** The folder endpoints: which archives, and what the page counts *)

Lemma toLowerCase_app (a b : string) :
  JsString.toLowerCase (a ++ b) = JsString.toLowerCase a ++ JsString.toLowerCase b.
Proof. induction a as [|c a IH]; [reflexivity|]. cbn. now rewrite IH. Qed.

Lemma endsWith_suffix (a s : string) : JsString.endsWith (a ++ s) s = true.
Proof.
  induction a as [|c a IH].
  - destruct s; cbn; [reflexivity|]. now rewrite Ascii.eqb_refl, String.eqb_refl.
  - cbn [append JsString.endsWith]. rewrite IH. apply orb_true_r.
Qed.

Lemma lowerChar_idempotent (c : ascii) :
  JsString.lowerChar (JsString.lowerChar c) = JsString.lowerChar c.
Proof. destruct c as [[] [] [] [] [] [] [] []]; reflexivity. Qed.

Lemma toLowerCase_idempotent (s : string) :
  JsString.toLowerCase (JsString.toLowerCase s) = JsString.toLowerCase s.
Proof.
  induction s as [|c s IH]; [reflexivity|].
  cbn [JsString.toLowerCase]. now rewrite lowerChar_idempotent, IH.
Qed.

Section RepairBatch.

Variable parse : Xml2js.parser.
Variable build : Xml2js.builder.
Variable env : Batch.environment.
Variable folderPath : string.

(** When the loop returns, it has gathered one outcome per archive. *)
Lemma repairFrom_returns (zipFiles : list string) :
  forall acc results,
    Batch.repairFrom parse build env folderPath zipFiles acc = Ret results ->
    results
    = (acc ++ map (Batch.repairOutcome parse build env folderPath) zipFiles)%list.
Proof.
  induction zipFiles as [|z zipFiles IH]; intros acc results H.
  - cbn in H. inversion H. now rewrite app_nil_r.
  - cbn [Batch.repairFrom] in H. unfold Batch.repairStep in H.
    destruct (Batch.ensureRepairedDir env z); cbn [bind] in H; [|discriminate].
    apply IH in H. rewrite H. cbn [map]. unfold Batch.repairOutcome at 2.
    destruct (Batch.repairAttempt parse build env folderPath z);
      now rewrite <- app_assoc.
Qed.

(** An entry of a repair batch is a success exactly when it carries a
    session. *)
Lemma repairOutcome_session (zipFile : string) :
  JsString.truthy (Batch.randomSessionId env zipFile) = true ->
  match Batch.repairEntrySessionId
          (Batch.repairOutcome parse build env folderPath zipFile) with
  | Some s => JsString.truthy s
  | None => false
  end
  = Batch.repairEntrySuccess (Batch.repairOutcome parse build env folderPath zipFile).
Proof.
  intros Hid. unfold Batch.repairOutcome, Batch.repairAttempt.
  destruct (repairSCORM parse build _ _) as [[result zip]|]; cbn [bind]; [|reflexivity].
  destruct (success result) eqn:Es.
  - destruct (Batch.materializeSession env _ zip); cbn [bind]; [|reflexivity].
    cbn [Batch.repairEntrySessionId Batch.repairEntrySuccess]. now rewrite Es.
  - cbn [bind Batch.repairEntrySessionId Batch.repairEntrySuccess]. now rewrite Es.
Qed.

End RepairBatch.

Lemma filter_partition_length {A : Type} (f : A -> bool) (l : list A) :
  length (filter f l) + length (filter (fun x => negb (f x)) l) = length l.
Proof.
  induction l as [|x l IH]; [reflexivity|].
  cbn [filter]. destruct (f x); cbn [negb length]; lia.
Qed.

Lemma append_cancel_r (s : string) :
  forall a b : string, a ++ s = b ++ s -> a = b.
Proof.
  assert (Hlen : forall x y : string, String.length (x ++ y)
                                      = String.length x + String.length y).
  { induction x as [|c x IH]; intros y; cbn; [reflexivity | now rewrite IH]. }
  induction a as [|c a IH]; intros b H.
  - destruct b as [|d b]; [reflexivity|].
    apply (f_equal String.length) in H.
    rewrite (Hlen (String d b) s) in H. cbn [append String.length] in H. lia.
  - destruct b as [|d b].
    + apply (f_equal String.length) in H.
      rewrite (Hlen (String c a) s) in H. cbn [append String.length] in H. lia.
    + cbn [append] in H. inversion H. f_equal. now apply IH.
Qed.

Lemma endsWith_split (s suf : string) :
  JsString.endsWith s suf = true -> exists a, s = a ++ suf.
Proof.
  induction s as [|c s IH]; cbn [JsString.endsWith]; intros H.
  - rewrite orb_false_r in H. apply String.eqb_eq in H. subst suf. now exists "".
  - apply orb_true_iff in H as [H|H].
    + apply String.eqb_eq in H. subst suf. now exists "".
    + destruct (IH H) as [a ->]. now exists (String c a).
Qed.

(** A suffix the two strings share can be left out of the test. *)
Lemma endsWith_common (a t s : string) :
  JsString.endsWith (a ++ s) (t ++ s) = JsString.endsWith a t.
Proof.
  destruct (JsString.endsWith a t) eqn:E.
  - apply endsWith_split in E as [p ->]. rewrite append_assoc.
    apply endsWith_suffix.
  - destruct (JsString.endsWith (a ++ s) (t ++ s)) eqn:E'; [|reflexivity].
    apply endsWith_split in E' as [p Hp]. rewrite <- append_assoc in Hp.
    apply append_cancel_r in Hp. subst a. now rewrite endsWith_suffix in E.
Qed.

(** Lower-casing works letter by letter: a split of the result comes from a
    split of the string. *)
Lemma toLowerCase_split (a b : string) :
  forall f,
    JsString.toLowerCase f = a ++ b ->
    exists x y, f = x ++ y /\ JsString.toLowerCase x = a /\ JsString.toLowerCase y = b.
Proof.
  induction a as [|c a IH]; intros f H.
  - exists "", f. now repeat split.
  - destruct f as [|d f]; [discriminate|].
    cbn [JsString.toLowerCase append] in H. inversion H as [[Hc Hrest]].
    destruct (IH _ Hrest) as (x & y & -> & Hx & Hy).
    exists (String d x), y. cbn [JsString.toLowerCase append].
    now rewrite Hx, Hy.
Qed.

Lemma isZipToProcess_repaired (x other : string) :
  JsString.toLowerCase other = JsString.toLowerCase (x ++ "_repaired.zip") ->
  Batch.isZipToProcess other = false.
Proof.
  intros Heq. unfold Batch.isZipToProcess.
  rewrite Heq, toLowerCase_app.
  change (JsString.toLowerCase "_repaired.zip") with "_repaired.zip".
  rewrite (endsWith_suffix _ "_repaired.zip"). cbn [negb]. apply andb_false_r.
Qed.

(** X13: which archives a folder endpoint takes, and that it never takes
    the output of a repair.  A file is processed exactly when its name is a
    stem followed by [.zip] in any letter case and the stem does not end,
    in any letter case, in [_repaired].  Every entry of a repair batch is
    that of such a file, and the name it reports for the repaired archive,
    the file's name without a final [.zip] followed by [_repaired.zip], is
    one neither folder endpoint processes: a batch run over a folder of
    repaired archives skips them all. *)
Theorem X13_repaired_outputs_are_skipped :
  (forall f : string,
      Batch.isZipToProcess f = true
      <-> exists stem ext,
            f = stem ++ ext
            /\ JsString.toLowerCase ext = ".zip"
            /\ JsString.endsWith (JsString.toLowerCase stem) "_repaired" = false)
  /\ (forall (parse : Xml2js.parser) (build : Xml2js.builder) (env : Batch.environment)
             (folderPath : string) (dir : Batch.folder) (fp : string)
             (s : option Batch.summary) (results : list Batch.repairEntry),
         Batch.repairFolder parse build env folderPath dir
         = Ret (Batch.BatchResult fp s results) ->
         forall filename result sessionId playerUrl repairedFile,
           In (Batch.RepairEntry filename result sessionId playerUrl (Some repairedFile))
              results ->
           Batch.isZipToProcess filename = true
           /\ repairedFile = Batch.basename filename ".zip" ++ "_repaired.zip"
           /\ Batch.isZipToProcess repairedFile = false
           /\ forall respelled,
                JsString.toLowerCase respelled = JsString.toLowerCase repairedFile ->
                Batch.isZipToProcess respelled = false).
Proof.
  split.
  - intros f. unfold Batch.isZipToProcess. split.
    + intros H. apply andb_true_iff in H as [Hzip Hrep].
      apply negb_true_iff in Hrep.
      apply endsWith_split in Hzip as [a Ha].
      destruct (toLowerCase_split _ _ _ Ha) as (stem & ext & -> & Hstem & Hext).
      exists stem, ext. split; [reflexivity|]. split; [exact Hext|].
      rewrite Ha in Hrep. rewrite Hstem.
      change "_repaired.zip" with ("_repaired" ++ ".zip") in Hrep.
      now rewrite endsWith_common in Hrep.
    + intros (stem & ext & -> & Hext & Hstem).
      rewrite toLowerCase_app, Hext.
      rewrite (endsWith_suffix _ ".zip").
      change "_repaired.zip" with ("_repaired" ++ ".zip").
      rewrite endsWith_common, Hstem. reflexivity.
  - intros parse build env folderPath dir fp s results H
           filename result sessionId playerUrl repairedFile Hin.
    unfold Batch.repairFolder in H.
    destruct (negb (JsString.truthy folderPath)); [discriminate|].
    destruct dir as [| |files]; try discriminate.
    destruct (filter Batch.isZipToProcess files) as [|z zs] eqn:Ez; [discriminate|].
    destruct (Batch.repairLoop parse build env folderPath (z :: zs)) as [rs|] eqn:Eloop;
      cbn [bind] in H; [|discriminate].
    inversion H; subst fp s results. clear H.
    unfold Batch.repairLoop in Eloop. apply repairFrom_returns in Eloop.
    cbn [app] in Eloop. rewrite Eloop in Hin.
    apply in_map_iff in Hin as (zf & Hentry & Hzf).
    rewrite <- Ez in Hzf. apply filter_In in Hzf as [_ Hzf].
    unfold Batch.repairOutcome, Batch.repairAttempt in Hentry.
    destruct (repairSCORM parse build _ _) as [[r zip]|]; cbn [bind] in Hentry;
      [|discriminate].
    destruct (if success r then _ else _); cbn [bind] in Hentry; [|discriminate].
    destruct (success r); inversion Hentry; subst.
    split; [exact Hzf|]. split; [reflexivity|].
    split; [now apply (isZipToProcess_repaired (Batch.basename filename ".zip"))|].
    intros respelled. apply isZipToProcess_repaired.
Qed.

Lemma X13_repaired_outputs_are_skipped_witness :
  Batch.isZipToProcess "Lesson 1.ZIP" = true
  /\ match Batch.repairFolder Sax.parseStringPromise Builder.buildObject
             Sample.environment "/courses"
             (Batch.Listing ["good.zip"; "notes.txt"])
     with
     | Ret (Batch.BatchResult _ _
              [Batch.RepairEntry filename _ _ _ (Some repairedFile)]) =>
         filename = "good.zip" /\ repairedFile = "good_repaired.zip"
         /\ Batch.isZipToProcess repairedFile = false
     | _ => False
     end.
Proof.
  destruct X13_repaired_outputs_are_skipped as [Hiff Hbatch]. split.
  - apply Hiff. exists "Lesson 1", ".ZIP". repeat split.
  - destruct (Batch.repairFolder Sax.parseStringPromise Builder.buildObject
                Sample.environment "/courses"
                (Batch.Listing ["good.zip"; "notes.txt"]))
      as [[e|fp s results]|] eqn:E; try (vm_compute in E; discriminate).
    pose proof (Hbatch _ _ _ _ _ _ _ _ E) as Hres.
    vm_compute in E. inversion E; subst fp s results. clear E.
    destruct (Hres _ _ _ _ _ (or_introl eq_refl)) as (_ & Hname & Hskip & _).
    split; [reflexivity|]. split; [exact Hname | exact Hskip].
Defined.

(** X14: the summary the page shows for a repair batch.  Whenever
    [/repair-folder] answers with a result sequence, it holds one entry per
    eligible archive of the folder, in listing order; in the summary the
    page derives from it, repaired and failed add up to the total, and,
    session identifiers being non-empty, every repaired archive is playable:
    the two counts are equal, so the [Repaired (No Play)] figure, their
    difference, is zero. *)
Theorem X14_repair_batch_counts :
  forall (parse : Xml2js.parser) (build : Xml2js.builder) (env : Batch.environment)
         (folderPath : string) (dir : Batch.folder) (fp : string)
         (s : option Batch.summary) (results : list Batch.repairEntry),
    (forall zipFile, JsString.truthy (Batch.randomSessionId env zipFile) = true) ->
    Batch.repairFolder parse build env folderPath dir
    = Ret (Batch.BatchResult fp s results) ->
    let sm := Batch.displayBatchRepairResults fp results in
    (exists files,
        dir = Batch.Listing files
        /\ map Batch.repairEntryFilename results = filter Batch.isZipToProcess files)
    /\ results <> []
    /\ Batch.successfullyAnalyzed sm + Batch.failed sm = Batch.totalFiles sm
    /\ Batch.resumeCapableCount sm = Batch.successfullyAnalyzed sm
    /\ Batch.successfullyAnalyzed sm - Batch.resumeCapableCount sm = 0.
Proof.
  intros parse build env folderPath dir fp s results Hid H sm.
  unfold Batch.repairFolder in H.
  destruct (negb (JsString.truthy folderPath)); [discriminate|].
  destruct dir as [| |files]; try discriminate.
  destruct (filter Batch.isZipToProcess files) as [|z zs] eqn:Ez; [discriminate|].
  destruct (Batch.repairLoop parse build env folderPath (z :: zs)) as [rs|] eqn:Eloop;
    cbn [bind] in H; [|discriminate].
  inversion H; subst fp s results. clear H.
  unfold Batch.repairLoop in Eloop. apply repairFrom_returns in Eloop.
  cbn [app] in Eloop.
  assert (Hplay : Batch.resumeCapableCount sm = Batch.successfullyAnalyzed sm).
  { unfold sm, Batch.displayBatchRepairResults.
    cbn [Batch.resumeCapableCount Batch.successfullyAnalyzed].
    f_equal. apply filter_ext_in. intros e He. rewrite Eloop in He.
    apply in_map_iff in He as (zf & <- & _). now apply repairOutcome_session. }
  split; [|split; [|split; [|split]]].
  - exists files. split; [reflexivity|]. rewrite Ez, Eloop, map_map.
    rewrite <- (map_id (z :: zs)) at 2. apply map_ext. intros zf.
    unfold Batch.repairOutcome.
    destruct (Batch.repairAttempt parse build env folderPath zf) eqn:E;
      [now apply (repairAttempt_filename parse build env folderPath) | reflexivity].
  - rewrite Eloop. discriminate.
  - unfold sm, Batch.displayBatchRepairResults.
    cbn [Batch.successfullyAnalyzed Batch.failed Batch.totalFiles].
    apply filter_partition_length.
  - exact Hplay.
  - rewrite Hplay. apply Nat.sub_diag.
Qed.

Lemma X14_repair_batch_counts_witness :
  match Batch.repairFolder Sax.parseStringPromise Builder.buildObject
          Sample.environment "/courses"
          (Batch.Listing ["good.zip"; "broken.zip"; "good_repaired.zip"])
  with
  | Ret (Batch.BatchResult fp _ results) =>
      Batch.resumeCapableCount (Batch.displayBatchRepairResults fp results) = 1
      /\ Batch.successfullyAnalyzed (Batch.displayBatchRepairResults fp results) = 1
  | _ => False
  end.
Proof.
  destruct (Batch.repairFolder Sax.parseStringPromise Builder.buildObject
              Sample.environment "/courses"
              (Batch.Listing ["good.zip"; "broken.zip"; "good_repaired.zip"]))
    as [[e|fp s results]|] eqn:E; try (vm_compute in E; discriminate).
  destruct (X14_repair_batch_counts Sax.parseStringPromise Builder.buildObject
              Sample.environment "/courses"
              (Batch.Listing ["good.zip"; "broken.zip"; "good_repaired.zip"])
              fp s results (fun _ => eq_refl) E)
    as (_ & _ & _ & Hplay & _).
  rewrite Hplay. vm_compute in E. inversion E. split; reflexivity.
Defined.

(** ** The single-file endpoints *)

(** Running the steps of a handler. *)
Ltac run_handler :=
  cbv [Endpoint.upload Endpoint.repair Endpoint.repairDownload Endpoint.catch
       Endpoint.andThen Endpoint.lift Endpoint.failWith Endpoint.unlinkSync
       Endpoint.existsSync Endpoint.pure negb fst].

(** X15: the upload handlers clean up after themselves.  Whatever the
    analysis, the repair, the making of the updated archive or of the player
    session do, [/upload], [/repair] and [/repair-download] answer the
    request and the file multer stored under [uploads/] is gone afterwards.
    The one exception is the [mkdirSync] that [/repair] and
    [/repair-download] run before their [try]: when it throws, the exception
    leaves the handler and the upload stays. *)
Theorem X15_uploads_are_removed :
  forall (parse : Xml2js.parser) (build : Xml2js.builder) (originalname : string)
         (zipOpen : outcome (list AdmZip.entry)) (shimSrc trackerSrc : outcome string)
         (tmpDir : list string) (extract : outcome node)
         (sessionId repairedDir : string)
         (materialize : list (string * string) -> outcome unit),
    (exists r,
        Endpoint.upload parse (Some originalname) zipOpen shimSrc trackerSrc tmpDir
          extract true
        = (Ret r, false))
    /\ (exists r,
           Endpoint.repair parse build (Some originalname) sessionId (Ret tt) tmpDir
             extract materialize true
           = (Ret r, false))
    /\ (exists r,
           Endpoint.repairDownload parse build (Some originalname) repairedDir (Ret tt)
             tmpDir extract true
           = (Ret r, false))
    /\ (forall message,
           Endpoint.repair parse build (Some originalname) sessionId (Throw message)
             tmpDir extract materialize true
           = (Throw message, true)
           /\ Endpoint.repairDownload parse build (Some originalname) repairedDir
                (Throw message) tmpDir extract true
              = (Throw message, true)).
Proof.
  intros parse build originalname zipOpen shimSrc trackerSrc tmpDir extract
         sessionId repairedDir materialize.
  split; [|split; [|split]].
  - run_handler.
    destruct (analyzeSCORM parse zipOpen) as [analysis|message]; run_handler; eauto.
  - run_handler.
    destruct (repairSCORM parse build tmpDir extract) as [[result zip]|message];
      run_handler; [|eauto].
    destruct (success result); run_handler; [|eauto].
    destruct (materialize zip); run_handler; eauto.
  - run_handler.
    destruct (repairSCORM parse build tmpDir extract) as [[result zip]|message];
      run_handler; [|eauto].
    destruct (success result); run_handler; eauto.
  - intros message. split; reflexivity.
Qed.



Lemma splitOn_segments (sep : ascii) (p : string) :
  Forall (fun s => JsString.hasChar sep s = false) (JsString.splitOn sep p).
Proof.
  induction p as [|c p IH]; [repeat constructor|].
  cbn [JsString.splitOn]. destruct (Ascii.eqb c sep) eqn:E.
  - constructor; [reflexivity | exact IH].
  - destruct (JsString.splitOn sep p) as [|hd tl]; [repeat constructor|].
    + cbn. rewrite Ascii.eqb_sym, E. reflexivity.
    + inversion IH; subst. constructor; [|assumption].
      cbn [JsString.hasChar]. rewrite Ascii.eqb_sym, E. assumption.
Qed.

Lemma basename_no_slash (p : string) :
  JsString.hasChar "/" (Posix.basename p) = false.
Proof.
  unfold Posix.basename.
  pose proof (splitOn_segments "/" p) as H.
  induction (JsString.splitOn "/" p) as [|s l IH]; [reflexivity|].
  inversion H; subst. cbn [filter].
  destruct (JsString.truthy s); [|now apply IH].
  destruct (filter JsString.truthy l) eqn:El; [assumption|].
  now apply IH.
Qed.

(** X17: [/download-updated] cannot be led out of [updated/].  The name
    taken from the request holds no slash, and the path looked up and served
    is that name directly under [updated/]; the two degenerate names give
    the [updated] directory itself ([.] or an empty name) or its parent
    ([..]), never a file elsewhere. *)
Theorem X17_download_stays_under_updated :
  forall (root : list string) (fs : node) (param : string),
    let name := Posix.basename param in
    JsString.hasChar "/" name = false
    /\ (Endpoint.downloadUpdated root fs param
        = Endpoint.Status 404 (Some "File not found")
        \/ exists p,
             Endpoint.downloadUpdated root fs param
             = Endpoint.Download (Path.render p) name
             /\ lookup fs p <> None
             /\ (p = (root ++ ["updated"; name])%list
                 \/ (p = (root ++ ["updated"])%list /\ (name = "" \/ name = "."))
                 \/ (p = root /\ name = ".."))).
Proof.
  intros root fs param name.
  pose proof (basename_no_slash param) as Hslash. fold name in Hslash.
  split; [exact Hslash|].
  unfold Endpoint.downloadUpdated. fold name.
  destruct (Fs.existsSync fs (Path.join (root ++ ["updated"]) name)) eqn:Eexists;
    [right | now left].
  exists (fst (Path.join (root ++ ["updated"]) name)).
  split; [reflexivity|]. split.
  - unfold Fs.existsSync in Eexists.
    destruct (lookup fs (fst (Path.join (root ++ ["updated"]) name)));
      [discriminate | discriminate].
  - unfold Path.join. cbn [fst].
    rewrite (splitOn_plain "/" name Hslash). cbn [Path.normalizeOnto].
    rewrite rev_app_distr. cbn [rev app tl].
    destruct (String.eqb name "") eqn:E1.
    + apply String.eqb_eq in E1. cbn [orb]. rewrite rev_involutive.
      right. left. split; [reflexivity | now left].
    + destruct (String.eqb name ".") eqn:E2.
      * apply String.eqb_eq in E2. cbn [orb]. rewrite rev_involutive.
        right. left. split; [reflexivity | now right].
      * cbn [orb]. destruct (String.eqb name "..") eqn:E3.
        -- apply String.eqb_eq in E3. right. right.
           rewrite rev_involutive. now split.
        -- left. cbn [rev]. rewrite rev_involutive, <- app_assoc. reflexivity.
Qed.

(** ** The synthesized manifest under the reference parser *)

Lemma run_feed (input rest : string) :
  forall m stack,
    Sax.run m stack (input ++ rest)
    = match feed m stack input with
      | Sax.Go m' stack' => Sax.run m' stack' rest
      | Sax.Done doc => Ret (Some doc)
      | Sax.Fail e => Throw e
      end.
Proof.
  induction input as [|c input IH]; intros m stack; [reflexivity|].
  cbn [append feed Sax.run]. destruct (Sax.step m stack c); auto.
Qed.

(** Inside a double-quoted attribute value a safe text is taken as it is. *)
Lemma feed_value (s : string) :
  forall name attrs attr v stack,
    attributeSafe s = true ->
    feed (Sax.ATTRIB_VALUE_QUOTED name attrs attr "034" v) stack s
    = Sax.Go (Sax.ATTRIB_VALUE_QUOTED name attrs attr "034" (v ++ s)) stack.
Proof.
  induction s as [|c s IH]; intros name attrs attr v stack Hsafe.
  - cbn [feed]. now rewrite append_empty_r.
  - unfold attributeSafe in Hsafe. cbn [JsString.hasChar] in Hsafe.
    apply andb_true_iff in Hsafe as [Hq Ha].
    apply negb_true_iff, orb_false_iff in Hq as [Hq Hqs].
    apply negb_true_iff, orb_false_iff in Ha as [Ha Has].
    cbn [feed Sax.step]. rewrite (Ascii.eqb_sym c "034"), Hq.
    rewrite (Ascii.eqb_sym c "&"), Ha.
    rewrite IH.
    + unfold Sax.snoc. now rewrite append_assoc.
    + unfold attributeSafe. now rewrite Hqs, Has.
Qed.

Lemma template_pieces (launchFile : string) :
  buildMinimalManifest launchFile
  = templateHead ++ launchFile ++ templateMiddle ++ launchFile ++ templateTail.
Proof.
  unfold buildMinimalManifest, templateHead, templateMiddle, templateTail, quoted.
  repeat rewrite append_assoc. reflexivity.
Qed.

Lemma isBlank_template (launchFile : string) :
  Sax.isBlank (buildMinimalManifest launchFile) = false.
Proof. reflexivity. Qed.

(** The reference parser on the synthesized manifest. *)
Lemma parse_template (launchFile : string) :
  attributeSafe launchFile = true ->
  Sax.parseStringPromise (buildMinimalManifest launchFile)
  = Ret (Some ("manifest", minimalManifest launchFile)).
Proof.
  intros Hsafe.
  unfold Sax.parseStringPromise. rewrite isBlank_template.
  change (Sax.stripBOM (buildMinimalManifest launchFile))
    with (buildMinimalManifest launchFile).
  rewrite template_pieces.
  rewrite run_feed.
  eassert (H1 : feed Sax.TEXT [] templateHead = Sax.Go _ _)
    by (vm_compute; reflexivity).
  rewrite H1. clear H1.
  rewrite run_feed, (feed_value launchFile _ _ _ _ _ Hsafe). cbn [append].
  rewrite run_feed.
  match goal with
  | |- context [feed ?m ?st templateMiddle] =>
      eassert (H2 : feed m st templateMiddle = Sax.Go _ _)
        by (vm_compute; reflexivity);
      rewrite H2; clear H2
  end.
  rewrite run_feed, (feed_value launchFile _ _ _ _ _ Hsafe). cbn [append].
  vm_compute. reflexivity.
Qed.

(** X18: the manifest [buildMinimalManifest] writes is well formed whenever
    the launch file it is given holds no double quote and no ampersand: the
    reference parser reads it as a [manifest] with the adlcp namespace, a
    metadata block, one organization with one item, and one resource typed
    [sco] whose [href], like that of its [file] element, is the launch file
    as given. *)
Theorem X18_minimal_manifest_parses :
  forall launchFile : string,
    attributeSafe launchFile = true ->
    exists manifest primary,
      Sax.parseStringPromise (buildMinimalManifest launchFile)
      = Ret (Some ("manifest", manifest))
      /\ manifestResources manifest = [primary]
      /\ isSco primary = true
      /\ primaryHref manifest = Some launchFile
      /\ Xml2js.children primary "file"
         = Some [Xml2js.Element (Some [("href", launchFile)]) None []]
      /\ Xml2js.children manifest "metadata" <> None
      /\ (exists attrs,
             Xml2js.attributes manifest = Some attrs
             /\ Xml2js.truthyAttr attrs "xmlns:adlcp"
                = Some "http://www.adlnet.org/xsd/adlcp_rootv1p2").
Proof.
  intros launchFile Hsafe.
  exists (minimalManifest launchFile). eexists.
  split; [now apply parse_template|].
  split; [reflexivity|]. split; [reflexivity|]. split; [reflexivity|].
  split; [reflexivity|]. split; [discriminate|].
  eexists. split; reflexivity.
Qed.

Lemma X18_minimal_manifest_parses_witness :
  exists manifest,
    Sax.parseStringPromise (buildMinimalManifest "content/start page.html")
    = Ret (Some ("manifest", manifest))
    /\ primaryHref manifest = Some "content/start page.html".
Proof.
  destruct (X18_minimal_manifest_parses "content/start page.html" eq_refl)
    as (manifest & primary & Hparse & _ & _ & Hhref & _).
  exists manifest. split; assumption.
Defined.

(** ** The repair of a package without manifest *)

Lemma setEntry_absent (name : string) (x : node) (es : list (string * node)) :
  entry name es = None -> setEntry name x es = (es ++ [(name, x)])%list.
Proof.
  induction es as [|[n old] es IH]; [reflexivity|].
  cbn [entry setEntry]. destruct (String.eqb n name); [discriminate|].
  intros H. cbn [app]. now rewrite IH.
Qed.

(** A file added at the end of a listing is found only after everything
    else. *)
Lemma search_snoc (test : string -> bool) (full : list string)
      (es : list (string * node)) (name content : string) :
  search test full (Dir (es ++ [(name, File content)]))
  = match search test full (Dir es) with
    | Some found => Some found
    | None => if test name then Some (full ++ [name])%list else None
    end.
Proof.
  induction es as [|[n child] es IH].
  - cbn. now destruct (test name).
  - cbn [app]. rewrite !search_cons, IH.
    destruct (isDirectory child).
    + now destruct (search test (full ++ [n]) child).
    + now destruct (test n).
Qed.

(** The manifest written by Fix 1 does not change what [findLaunchFile]
    finds. *)
Lemma findLaunchFile_after_manifest (fs fs1 : node) (dir : list string)
      (es : list (string * node)) (xml : string) :
  lookup fs dir = Some (Dir es) ->
  lookup fs1 dir = Some (Dir (es ++ [("imsmanifest.xml", File xml)])) ->
  findLaunchFile fs1 dir = findLaunchFile fs dir.
Proof.
  intros Hdir Hdir1.
  assert (Hsearch : forall test,
             test "imsmanifest.xml" = false ->
             search test dir (Dir (es ++ [("imsmanifest.xml", File xml)]))
             = search test dir (Dir es)).
  { intros test Ht. rewrite search_snoc, Ht. now destruct (search test dir (Dir es)). }
  assert (H : forall candidates,
             (forall c, In c candidates -> In c LAUNCH_CANDIDATES) ->
             firstCandidate fs1 dir candidates = firstCandidate fs dir candidates).
  { induction candidates as [|c rest IH]; intros Hin.
    - cbn [firstCandidate]. unfold findFirstHtml, readdirSync.
      rewrite Hdir, Hdir1. cbn [bind]. now rewrite Hsearch.
    - cbn [firstCandidate]. unfold findFile, readdirSync.
      rewrite Hdir, Hdir1. cbn [bind]. rewrite Hsearch.
      + destruct (search _ dir (Dir es)); [reflexivity|].
        apply IH. intros c' Hc'. apply Hin. now right.
      + assert (Hc : In c LAUNCH_CANDIDATES) by (apply Hin; now left).
        cbv in Hc. repeat (destruct Hc as [<-|Hc]; [reflexivity|]). contradiction. }
  apply H. auto.
Qed.

(** A path that goes through a file leads nowhere. *)
Lemma lookup_through_new_file (es : list (string * node)) (name content : string)
      (p : list string) :
  entry name es = None ->
  lookup (Dir es) p = None ->
  2 <= length p ->
  lookup (Dir (es ++ [(name, File content)])) p = None.
Proof.
  intros Hnone Hp Hlen. destruct p as [|s [|s2 rest]]; cbn in Hlen; try lia.
  rewrite <- (setEntry_absent name (File content) es Hnone).
  cbn [lookup] in *. rewrite entry_setEntry.
  destruct (String.eqb s name); [reflexivity|]. exact Hp.
Qed.

Lemma injectIntoLaunch_log (fs : node) (manifestPath : list string)
      (launch : option string) (r : list string) (fs' : node) (r' : list string) :
  injectIntoLaunch fs manifestPath launch r = Ret (fs', r') ->
  r' = r \/ r' = (r ++ ["💉 Injected SCORM API shim into launch HTML"])%list.
Proof.
  unfold injectIntoLaunch. intros H.
  destruct launch as [l|]; [|inversion H; now left].
  destruct (JsString.truthy l); [|inversion H; now left].
  destruct (existsSync fs _ && Path.matchesHtml _); [|inversion H; now left].
  step_bind H.
  destruct (JsString.includes a "scorm-api-shim.js"); [inversion H; now left|].
  step_bind H. inversion H. now right.
Qed.

(** Joining a directory with an absolute path, as [path.join] does, puts the
    path below the directory. *)
Lemma join_absolute (dir p : list string) :
  goodPath p -> p <> [] ->
  Path.join dir (Path.render p) = ((dir ++ p)%list, false).
Proof.
  intros Hgood Hne. unfold Path.join, Path.render. f_equal.
  - change (JsString.splitOn "/" ("/" ++ String.concat "/" p))
      with ("" :: JsString.splitOn "/" (String.concat "/" p)).
    rewrite splitOn_concat by assumption.
    cbn [Path.normalizeOnto String.eqb orb].
    now rewrite normalizeOnto_good, rev_involutive.
  - pose proof (goodPath_plain p Hgood) as Hplain.
    change ("/" ++ String.concat "/" p) with (String "/" "" ++ String.concat "/" p).
    rewrite endsWith_append; [now apply concat_ends | | cbn; lia].
    destruct Hplain as [|s rest (Hs & _) _]; [congruence|].
    destruct s; [congruence|]. destruct rest; discriminate.
Qed.

(** X19: a package without manifest is repaired.  When the package holds an
    HTML file, no entry called [imsmanifest.xml], and the absolute path of
    the launch file found holds no double quote and no ampersand (and names
    nothing inside the package), the repair, run with the reference parser
    and a builder that returns, succeeds: it writes the manifest, logs its
    creation, then rewrites the manifest's launch [href], the absolute path
    Fix 1 had put there, to the launch file's path relative to the package
    and logs that, and names that path as [launchFile]; the archive holds
    the serialized manifest as [imsmanifest.xml].  The [file] element of the
    resource is not rewritten: the manifest serialized still carries there
    the absolute path under the temporary directory. *)
Theorem X19_package_without_manifest_is_repaired :
  forall (build : Xml2js.builder) (tmpDir : list string) (fs : node)
         (package : list (string * node)) (q : list string),
    lookup fs tmpDir = Some (Dir package) ->
    wellFormed (Dir package) = true ->
    goodPath tmpDir ->
    findFile fs tmpDir "imsmanifest.xml" = Ret None ->
    entry "imsmanifest.xml" package = None ->
    findLaunchFile fs tmpDir = Ret (Some (tmpDir ++ q)%list) ->
    attributeSafe (Path.render (tmpDir ++ q)) = true ->
    lookup (Dir package) (tmpDir ++ q)%list = None ->
    (forall doc, exists xml, build doc = Ret xml) ->
    exists extra zip manifest xml,
      repairSCORM Sax.parseStringPromise build tmpDir (Ret fs)
      = Ret ({| success := true;
                repairs :=
                  ["🆕 Created missing imsmanifest.xml";
                   ("🔧 Fixed broken launch file → " ++ String.concat "/" q)%string]
                  ++ extra;
                launchFile := Some (String.concat "/" q) |}, zip)
      /\ (extra = [] \/ extra = ["💉 Injected SCORM API shim into launch HTML"])
      /\ build ("manifest", manifest) = Ret xml
      /\ primaryHref manifest = Some (String.concat "/" q)
      /\ (exists primary,
             primaryResource manifest = Some primary
             /\ Xml2js.children primary "file"
                = Some [Xml2js.Element
                          (Some [("href", Path.render (tmpDir ++ q))]) None []])
      /\ In ("imsmanifest.xml", xml) zip.
Proof.
  intros build tmpDir fs package q Hdir Hwf Hgood Hfind Hnone Hlaunch Hsafe Habs Hbuild.
  set (found := (tmpDir ++ q)%list) in *.
  set (xml0 := buildMinimalManifest (Path.render found)).
  set (manifestPath := (tmpDir ++ ["imsmanifest.xml"])%list).
  set (es1 := (package ++ [("imsmanifest.xml", File xml0)])%list).
  set (rel := String.concat "/" q).
  destruct (findLaunchFile_sound _ _ _ _ Hdir Hwf Hlaunch)
    as (q' & html & Hq' & Hqne & Hhtml & _ & Hmatch).
  apply app_inv_head in Hq'. subst q'.
  pose proof (fileAt_goodPath _ _ _ Hwf Hhtml) as Hgoodq.
  assert (Htmp : tmpDir <> []).
  { intros ->. unfold found in Habs. cbn [app] in Habs. unfold fileAt in Hhtml.
    now rewrite Habs in Hhtml. }
  assert (Hgoodf : goodPath found) by (apply Forall_app; now split).
  assert (Hfne : found <> []).
  { unfold found. destruct tmpDir; [congruence | discriminate]. }
  assert (Hdirname : Path.dirname manifestPath = tmpDir).
  { unfold Path.dirname, manifestPath.
    rewrite removelast_app by discriminate. cbn [removelast]. apply app_nil_r. }
  (* Fix 1 *)
  assert (Hw : writeAt (Dir package) ["imsmanifest.xml"] xml0 = Some (Dir es1)).
  { rewrite writeAt_last, Hnone. unfold es1. now rewrite setEntry_absent. }
  destruct (writeAt_under tmpDir ["imsmanifest.xml"] xml0 ltac:(discriminate)
              _ _ _ Hdir Hw) as (fs1 & Hw1 & Hdir1).
  assert (Hfix1 : findOrCreateManifest fs tmpDir
                  = Ret (fs1, manifestPath, xml0,
                         ["🆕 Created missing imsmanifest.xml"])).
  { unfold findOrCreateManifest. rewrite Hfind. cbn [bind]. rewrite Hlaunch.
    cbn [bind orIndex]. unfold writeFileSync. cbn [fst snd].
    fold found. fold xml0. now rewrite Hw1. }
  assert (Hwf1 : wellFormed (Dir es1) = true).
  { unfold es1. rewrite <- (setEntry_absent _ (File xml0) _ Hnone).
    now apply wellFormed_new_entry. }
  (* Fix 2 *)
  pose proof (parse_template (Path.render found) Hsafe) as Hparse. fold xml0 in Hparse.
  set (manifest := minimalManifest (Path.render found)) in *.
  (* Fix 5 *)
  assert (Hlaunch1 : findLaunchFile fs1 tmpDir = Ret (Some found)).
  { rewrite (findLaunchFile_after_manifest fs fs1 tmpDir package xml0 Hdir Hdir1).
    exact Hlaunch. }
  assert (Hmissing : existsSync fs1 (Path.join (Path.dirname manifestPath)
                                       (Path.render found)) = false).
  { rewrite Hdirname, (join_absolute tmpDir found Hgoodf Hfne).
    unfold existsSync. cbn [fst snd]. rewrite lookup_app, Hdir1.
    unfold es1. rewrite lookup_through_new_file; auto.
    unfold found. rewrite length_app.
    destruct tmpDir; [congruence|]. destruct q; [congruence|]. cbn. lia. }
  assert (Hrel : Path.relativeSlashed (Path.dirname manifestPath) found = rel).
  { rewrite Hdirname. unfold found. now apply relativeSlashed_app. }
  set (a := [("identifier", "resource_1"); ("type", "webcontent");
             ("adlcp:scormtype", "sco"); ("href", Path.render found)]).
  set (primary := Xml2js.Element (Some a) None
                    [("file", [Xml2js.Element (Some [("href", Path.render found)])
                                 None []])]).
  assert (Hprimary : primaryResource manifest = Some primary) by reflexivity.
  pose proof (fixResources_broken_href fs1 tmpDir manifestPath manifest primary a a
                ["🆕 Created missing imsmanifest.xml"]
                ["🆕 Created missing imsmanifest.xml"]
                (Path.render found) found Hprimary eq_refl eq_refl eq_refl
                Hmissing Hlaunch1) as Hfix.
  rewrite Hrel in Hfix.
  (* Fix 6 *)
  assert (Hjoin : Path.join (Path.dirname manifestPath) rel
                  = ((tmpDir ++ q)%list, false)).
  { rewrite <- Hrel, Hdirname.
    pose proof (join_relative_under tmpDir [] q Hgoodq) as Hj.
    now rewrite app_nil_r in Hj. }
  assert (Hhtml1 : fileAt (Dir es1) q = Some html).
  { destruct (fileAt_writeAt _ _ _ _ Hw q) as [_ Hother].
    rewrite Hother; [exact Hhtml|].
    intros ->. rewrite fileAt_cons, Hnone in Hhtml. discriminate Hhtml. }
  destruct (injectIntoLaunch_package fs1 tmpDir manifestPath q es1 rel html
              (["🆕 Created missing imsmanifest.xml"]
               ++ [("🔧 Fixed broken launch file → " ++ rel)%string])%list
              Hdir1 Hwf1 Hjoin Hhtml1 Hqne)
    as (fs2 & repairs2 & es2 & Hinject & Hdir2 & Hwf2 & Hfiles & _).
  assert (Hmanifest1 : fileAt (Dir es1) ["imsmanifest.xml"] = Some xml0).
  { now apply (fileAt_writeAt _ _ _ _ Hw). }
  destruct (Hfiles _ _ Hmanifest1) as [old2 Hmanifest2].
  set (manifest' := setPrimaryAttrs manifest (Xml2js.setKey "href" rel a)) in *.
  destruct (Hbuild ("manifest", manifest')) as [xml Hxml].
  destruct (serializeAndRepack_spec build fs2 tmpDir ["imsmanifest.xml"] es2 manifest'
              old2 xml Hdir2 Hwf2 ltac:(discriminate) Hmanifest2 Hxml)
    as (zip & Hzip & Hin & _ & _).
  fold manifestPath in Hzip.
  destruct (injectIntoLaunch_log _ _ _ _ _ _ Hinject) as [Hlog | Hlog].
  - exists [], zip, manifest', xml. split; [|split; [now left|split; [exact Hxml|split; [|split]]]].
    + unfold repairSCORM. cbn [bind]. rewrite Hfix1. cbn [bind].
      unfold parseOrRebuild. rewrite Hparse. cbn [bind tryCatch Js.root].
      rewrite String.eqb_refl.
      change (ensureNamespace (Some manifest) ["🆕 Created missing imsmanifest.xml"])
        with (Ret (manifest, ["🆕 Created missing imsmanifest.xml"])).
      cbn [bind].
      change (ensureMetadata manifest ["🆕 Created missing imsmanifest.xml"])
        with (manifest, ["🆕 Created missing imsmanifest.xml"]).
      cbv beta iota zeta. rewrite Hfix. cbn [bind]. rewrite Hinject. cbn [bind]. rewrite Hzip.
      cbn [bind]. now rewrite Hlog.
    + reflexivity.
    + eexists. split; reflexivity.
    + now rewrite relativeSlashed_app in Hin by (repeat constructor).
  - exists ["💉 Injected SCORM API shim into launch HTML"], zip, manifest', xml.
    split; [|split; [now right|split; [exact Hxml|split; [|split]]]].
    + unfold repairSCORM. cbn [bind]. rewrite Hfix1. cbn [bind].
      unfold parseOrRebuild. rewrite Hparse. cbn [bind tryCatch Js.root].
      rewrite String.eqb_refl.
      change (ensureNamespace (Some manifest) ["🆕 Created missing imsmanifest.xml"])
        with (Ret (manifest, ["🆕 Created missing imsmanifest.xml"])).
      cbn [bind].
      change (ensureMetadata manifest ["🆕 Created missing imsmanifest.xml"])
        with (manifest, ["🆕 Created missing imsmanifest.xml"]).
      cbv beta iota zeta. rewrite Hfix. cbn [bind]. rewrite Hinject. cbn [bind]. rewrite Hzip.
      cbn [bind]. now rewrite Hlog.
    + reflexivity.
    + eexists. split; reflexivity.
    + now rewrite relativeSlashed_app in Hin by (repeat constructor).
Qed.

Lemma X19_package_without_manifest_is_repaired_witness :
  exists extra zip xml,
    Sample.repair [("lesson", Dir [("start.html", File "<html><head></head></html>")]);
                   ("notes.txt", File "n")]
    = Ret ({| success := true;
              repairs :=
                ["🆕 Created missing imsmanifest.xml";
                 "🔧 Fixed broken launch file → lesson/start.html"] ++ extra;
              launchFile := Some "lesson/start.html" |}, zip)
    /\ In ("imsmanifest.xml", xml) zip.
Proof.
  unfold Sample.repair.
  pose proof (X19_package_without_manifest_is_repaired Builder.buildObject Sample.tmpDir
                (Sample.host
                   [("lesson", Dir [("start.html", File "<html><head></head></html>")]);
                    ("notes.txt", File "n")])
                [("lesson", Dir [("start.html", File "<html><head></head></html>")]);
                 ("notes.txt", File "n")]
                ["lesson"; "start.html"]) as H.
  assert (Hpath : goodPath Sample.tmpDir) by (repeat constructor).
  specialize (H eq_refl eq_refl Hpath eq_refl eq_refl eq_refl eq_refl eq_refl
                (fun doc => ex_intro _ _ eq_refl)).
  destruct H as (extra & zip & manifest & xml & Hrepair & _ & _ & _ & _ & Hin).
  exists extra, zip, xml. split; [exact Hrepair | exact Hin].
Defined.

(** ** C2: the resume classification and what the report says of the scan *)

(** What one script adds to [apiCallsFound]. *)
Lemma scanScript_calls (e : AdmZip.entry) (has : bool) (calls : list string)
      (call : string) :
  In call (snd (scanScript (has, calls) e))
  <-> In call calls \/ mentions call e = true.
Proof.
  unfold scanScript, mentions.
  destruct (AdmZip.getData e) as [content|message]; cbn [fst snd];
    [|split; [auto | intros [H|H]; [exact H | discriminate]]].
  generalize (JsString.includes content "cmi.core.lesson_status"
              || JsString.includes content "cmi.completion_status") as c1.
  generalize (JsString.includes content "cmi.suspend_data") as c2.
  generalize (JsString.includes content "cmi.location") as c3.
  generalize (JsString.includes content "API.LMSInitialize"
              || JsString.includes content "API_1484_11.Initialize") as c4.
  intros c4 c3 c2 c1.
  destruct (String.eqb_spec call "lesson_status") as [->|N1];
    [|destruct (String.eqb_spec call "suspend_data") as [->|N2];
      [|destruct (String.eqb_spec call "location") as [->|N3];
        [|destruct (String.eqb_spec call "LMS_Initialize") as [->|N4]]]];
    destruct c1, c2, c3, c4; cbn [snd fst andb orb String.eqb Ascii.eqb Bool.eqb];
    rewrite ?in_app_iff; cbn [In];
    intuition (congruence || discriminate).
Qed.

(** What the scan of the scripts gathers. *)
Lemma scan_calls (l : list AdmZip.entry) :
  forall st call,
    In call (snd (fold_left scanScript l st))
    <-> In call (snd st) \/ exists e, In e l /\ mentions call e = true.
Proof.
  induction l as [|e l IH]; intros [has calls] call; cbn [fold_left].
  - split; [auto | intros [H | (e & [] & _)]; exact H].
  - rewrite IH. destruct (scanScript (has, calls) e) as [has' calls'] eqn:E.
    pose proof (scanScript_calls e has calls call) as Hstep. rewrite E in Hstep.
    cbn [snd] in *. rewrite Hstep. split.
    + intros [[H | H] | (e' & He' & H)]; auto.
      * right. exists e. split; [now left | exact H].
      * right. exists e'. split; [now right | exact H].
    + intros [H | (e' & [<- | He'] & H)]; auto.
      right. exists e'. now split.
Qed.

(** [[...new Set(l)]] keeps each element once. *)
Lemma unique_spec (l : list string) :
  forall seen,
    NoDup (Js.unique seen l)
    /\ forall x, In x (Js.unique seen l) <-> In x l /\ ~ In x seen.
Proof.
  induction l as [|y l IH]; intros seen; cbn [Js.unique].
  - split; [constructor|]. intros x. cbn [In]. tauto.
  - destruct (existsb (String.eqb y) seen) eqn:E.
    + apply existsb_exists in E as (z & Hz & Heq). apply String.eqb_eq in Heq.
      subst z. destruct (IH seen) as [Hnd Hin]. split; [exact Hnd|].
      intros x. rewrite Hin. cbn [In]. split; [tauto|].
      intros [[<- | H] Hno]; [contradiction | tauto].
    + assert (Hy : ~ In y seen).
      { intros Hy. assert (existsb (String.eqb y) seen = true); [|congruence].
        apply existsb_exists. exists y. split; [exact Hy | apply String.eqb_refl]. }
      destruct (IH (y :: seen)) as [Hnd Hin]. split.
      * constructor; [|exact Hnd]. rewrite Hin. cbn [In]. tauto.
      * intros x. cbn [In]. rewrite Hin. cbn [In].
        destruct (string_dec y x) as [<- | Hne]; tauto.
Qed.

Lemma filter_none {A : Type} (f : A -> bool) (l : list A) :
  Forall (fun x => f x = false) l -> filter f l = [].
Proof.
  induction 1 as [|x l Hx Hl IH]; [reflexivity|]. cbn [filter]. now rewrite Hx.
Qed.

Lemma versionBlock_no_api (m : option Xml2js.value) (lines : list string)
      (v : option Xml2js.value) :
  versionBlock m = Ret (lines, v) -> Forall (fun l => apiLine l = false) lines.
Proof.
  unfold versionBlock. intros H.
  step_bind H. destruct a as [mds|]; [|inversion H; constructor].
  step_bind H. destruct a as [svs|]; inversion H; subst; repeat constructor.
Qed.

Lemma titleBlock_no_api (m : option Xml2js.value) (lines : list string)
      (t : option string) :
  titleBlock m = Ret (lines, t) -> Forall (fun l => apiLine l = false) lines.
Proof.
  unfold titleBlock. intros H.
  step_bind H. destruct a as [mds|]; [|inversion H; constructor].
  step_bind H. destruct a as [loms|]; [|inversion H; constructor].
  step_bind H. destruct a as [gs|]; [|inversion H; constructor].
  step_bind H. destruct a as [ts|]; [|inversion H; constructor].
  step_bind H. destruct a as [ls|]; [|inversion H; constructor].
  step_bind H. destruct a as [title|]; [|inversion H; constructor].
  destruct (JsString.truthy title); inversion H; subst; repeat constructor.
Qed.

Lemma itemLines_no_api (org : Xml2js.value) :
  Forall (fun l => apiLine l = false) (itemLines org).
Proof.
  unfold itemLines. destruct (Xml2js.children org "item") as [items|]; [|constructor].
  induction items as [|item items IH]; [constructor|].
  cbn [flat_map]. apply Forall_app. split; [|exact IH].
  destruct (Xml2js.attributes item) as [a|]; [|constructor].
  destruct (Xml2js.truthyAttr a "identifierref"); repeat constructor.
Qed.

Lemma organizationsBlock_no_api (m : option Xml2js.value) (lines : list string) :
  organizationsBlock m = Ret lines -> Forall (fun l => apiLine l = false) lines.
Proof.
  unfold organizationsBlock. intros H.
  step_bind H. destruct a as [os|]; [|inversion H; constructor].
  step_bind H. destruct a as [orgs|]; inversion H; subst; [|constructor].
  constructor; [reflexivity|].
  clear. induction orgs as [|org orgs IH]; [constructor|].
  cbn [flat_map]. apply Forall_app. split; [apply itemLines_no_api | exact IH].
Qed.

Lemma resourcesBlock_no_api (m : option Xml2js.value) (lines : list string)
      (found : bool) (launch : option string) :
  resourcesBlock m = Ret (lines, found, launch) ->
  Forall (fun l => apiLine l = false) lines.
Proof.
  unfold resourcesBlock. intros H.
  step_bind H. destruct a as [rs|]; [|inversion H; constructor].
  step_bind H. destruct a as [resources|]; [|inversion H; constructor].
  step_bind H. inversion H; subst.
  destruct (0 <? length (filter isSco resources))%nat; repeat constructor.
Qed.

(** The report lines about API calls, in a completed analysis. *)
Lemma analyzeBody_api_lines (parse : Xml2js.parser)
      (zipEntries : list AdmZip.entry) (a : analysis) :
  analyzeBody parse (Ret zipEntries) = Ret (Analyzed a) ->
  filter apiLine (details a)
  = let st := fold_left scanScript (firstn 10 (filter isScriptEntry zipEntries))
                        (false, []) in
    if fst st
    then ["✅ Found SCORM API calls: " ++ String.concat ", " (Js.unique [] (snd st))]
    else [].
Proof.
  intros H. unfold analyzeBody in H. cbn [bind] in H.
  destruct (find isManifestEntry zipEntries) as [manifestEntry|]; [|discriminate].
  step_bind H. step_bind H. step_bind H. rename a2 into root.
  step_bind H. destruct a2 as [versionLines version].
  step_bind H. destruct a2 as [titleLines title].
  step_bind H. rename a2 into organizationLines.
  step_bind H. destruct a2 as [[resourceLines scoFound] launchFile].
  cbv zeta.
  destruct (fold_left scanScript _ (false, [])) as [has calls].
  inversion H; subst a; clear H. cbn [details fst snd].
  rewrite !filter_app.
  rewrite (filter_none _ _ (versionBlock_no_api _ _ _ E2)).
  rewrite (filter_none _ _ (titleBlock_no_api _ _ _ E3)).
  rewrite (filter_none _ _ (organizationsBlock_no_api _ _ E4)).
  rewrite (filter_none _ _ (resourcesBlock_no_api _ _ _ _ E5)).
  cbn [app].
  replace (filter apiLine
             (if scoFound || has then []
              else ["⚠️ No clear resume capability indicators found";
                    "ℹ️ Package may still support resume if implemented at runtime"]))
    with (@nil string) by (now destruct (scoFound || has)).
  rewrite app_nil_r. destruct has; [|reflexivity].
  assert (Hline : apiLine ("✅ Found SCORM API calls: "
                           ++ String.concat ", " (Js.unique [] calls)) = true)
    by (unfold apiLine; apply startsWith_self).
  cbn [filter].
  match goal with
  | |- context [apiLine ?x] =>
      replace (apiLine x) with true by (symmetry; exact Hline)
  end.
  reflexivity.
Qed.

(** C2, as stated, fails in what it says of [details]: here the one script
    scanned holds a lesson-status and an LMS-initialization pattern and no
    persistence substring; the analysis succeeds, and [details] holds the
    two lines about missing indicators and nothing about the patterns. *)
Lemma C2_unreported_patterns_counterexample :
  mentions "lesson_status"
    (Sample.file "app.js" "API.LMSInitialize(''); set('cmi.core.lesson_status');")
  = true
  /\ mentions "LMS_Initialize"
       (Sample.file "app.js" "API.LMSInitialize(''); set('cmi.core.lesson_status');")
     = true
  /\ match Sample.analyze
             [Sample.file "imsmanifest.xml"
                "<manifest><resources><resource href='index.html'/></resources></manifest>";
              Sample.file "app.js"
                "API.LMSInitialize(''); set('cmi.core.lesson_status');"]
     with
     | Ret (Analyzed a) =>
         resumeCapable a = false
         /\ details a
            = ["⚠️ No clear resume capability indicators found";
               "ℹ️ Package may still support resume if implemented at runtime"]
     | _ => False
     end.
Proof. repeat split; vm_compute; reflexivity. Qed.

(** C2 (amended): when the analysis of a package succeeds, its
    [resumeCapable] is [true] exactly when a resource of the manifest's
    resources block is typed [sco], or one of the first ten [.js] entries,
    in archive order, contains [cmi.suspend_data] or [cmi.location]; nothing
    else enters the boolean.  The lesson-status and LMS-initialization
    patterns are reported only along with a persistence substring: when one
    of the scanned scripts holds one, [details] has one line about API
    calls, which lists, once each, the names of the patterns found in the
    scanned scripts; when none does, [details] has no such line, whatever
    else the scripts hold. *)
Theorem C2_resume_classification :
  forall (parse : Xml2js.parser) (zipOpen : outcome (list AdmZip.entry)) (a : analysis),
    analyzeSCORM parse zipOpen = Ret (Analyzed a) ->
    exists zipEntries manifestEntry manifestContent manifest,
      zipOpen = Ret zipEntries
      /\ find isManifestEntry zipEntries = Some manifestEntry
      /\ AdmZip.getData manifestEntry = Ret manifestContent
      /\ parse manifestContent = Ret (Some ("manifest", manifest))
      /\ (resumeCapable a = true
          <-> (exists res, In res (manifestResources manifest) /\ isSco res = true)
              \/ (exists js,
                     In js (firstn 10 (filter isScriptEntry zipEntries))
                     /\ persists js = true))
      /\ ((exists js,
              In js (firstn 10 (filter isScriptEntry zipEntries))
              /\ persists js = true) ->
          exists calls,
            filter apiLine (details a)
            = ["✅ Found SCORM API calls: " ++ String.concat ", " calls]
            /\ NoDup calls
            /\ forall call,
                 In call calls
                 <-> exists js,
                       In js (firstn 10 (filter isScriptEntry zipEntries))
                       /\ mentions call js = true)
      /\ ((forall js,
              In js (firstn 10 (filter isScriptEntry zipEntries)) ->
              persists js = false) ->
          filter apiLine (details a) = []).
Proof.
  intros parse zipOpen a H.
  apply analyzeSCORM_Analyzed in H. pose proof H as Hbody.
  apply analyzeBody_classification in H
    as (zipEntries & manifestEntry & manifestContent & manifest
        & Hopen & Hfind & Hdata & Hparse & Hresume).
  subst zipOpen. apply analyzeBody_api_lines in Hbody. cbv zeta in Hbody.
  exists zipEntries, manifestEntry, manifestContent, manifest.
  remember (firstn 10 (filter isScriptEntry zipEntries)) as scanned eqn:Hscanned.
  clear Hscanned.
  pose proof (scan_has scanned false []) as Hhas. cbn [orb] in Hhas.
  split; [reflexivity|]. split; [exact Hfind|]. split; [exact Hdata|].
  split; [exact Hparse|]. split; [|split].
  - rewrite Hresume. rewrite orb_true_iff, !existsb_exists. reflexivity.
  - intros Hjs. apply existsb_exists in Hjs. rewrite Hhas, Hjs in Hbody.
    exists (Js.unique [] (snd (fold_left scanScript scanned (false, [])))).
    split; [exact Hbody|].
    destruct (unique_spec (snd (fold_left scanScript scanned (false, []))) [])
      as [Hnd Hin].
    split; [exact Hnd|]. intros call. rewrite Hin, scan_calls. cbn [snd In].
    tauto.
  - intros Hnone. rewrite Hhas in Hbody.
    replace (existsb persists scanned) with false in Hbody; [exact Hbody|].
    symmetry. apply not_true_is_false. intros Hex.
    apply existsb_exists in Hex as (js & Hjs & Hp). rewrite (Hnone js Hjs) in Hp.
    discriminate.
Qed.

Lemma C2_resume_classification_witness :
  exists a,
    Sample.analyze
      [Sample.file "imsmanifest.xml"
         "<manifest><resources><resource identifier='r1' type='webcontent' href='index.html'/></resources></manifest>";
       Sample.file "index.html" "<html></html>";
       Sample.file "lib/scorm.js"
         "API.LMSInitialize(''); API.LMSSetValue('cmi.suspend_data', state);"]
    = Ret (Analyzed a)
    /\ resumeCapable a = true
    /\ filter apiLine (details a)
       = ["✅ Found SCORM API calls: suspend_data, LMS_Initialize"].
Proof.
  eexists. split; [vm_compute; reflexivity|].
  match goal with
  | |- resumeCapable ?a = true /\ _ =>
      destruct (C2_resume_classification Sax.parseStringPromise
                  (Ret [Sample.file "imsmanifest.xml"
                          "<manifest><resources><resource identifier='r1' type='webcontent' href='index.html'/></resources></manifest>";
                        Sample.file "index.html" "<html></html>";
                        Sample.file "lib/scorm.js"
                          "API.LMSInitialize(''); API.LMSSetValue('cmi.suspend_data', state);"])
                  a)
        as (zipEntries & entry & content & manifest & Hopen & _ & _ & _ & Hiff
            & Hfound & _);
        [vm_compute; reflexivity|]
  end.
  inversion Hopen; subst zipEntries.
  assert (Hjs : exists js,
             In js (firstn 10
                      (filter isScriptEntry
                         [Sample.file "imsmanifest.xml"
                            "<manifest><resources><resource identifier='r1' type='webcontent' href='index.html'/></resources></manifest>";
                          Sample.file "index.html" "<html></html>";
                          Sample.file "lib/scorm.js"
                            "API.LMSInitialize(''); API.LMSSetValue('cmi.suspend_data', state);"]))
             /\ persists js = true).
  { exists (Sample.file "lib/scorm.js"
              "API.LMSInitialize(''); API.LMSSetValue('cmi.suspend_data', state);").
    split; [cbv; left; reflexivity | reflexivity]. }
  split; [apply Hiff; right; exact Hjs|].
  destruct (Hfound Hjs) as (calls & Hline & _). vm_compute. reflexivity.
Defined.

